(** * BCImgView: the Badly Coded image decoders

    A shallow embedding of the decoding core of [bcimgview]
    ([bcimgview-core1.c], [bcimgview-core2.c] and the start-up code of
    [main]) together with the properties of the decoders.

    Conventions of the embedding.
    - A byte ([unsigned char]) is a [Z] in [0, 256); fixed-width C integers
      are [Z] with the wrap-around written out ([u8], [u32], [u64],
      [to_int], [to_long]).  The platform is the LP64 one the program is
      built for: [int] has 32 bits, [long], [size_t] and [time_t] have 64,
      conversions to a signed type wrap.
      The [int] counters of the BCPROG and BCFLAT readers stay below the
      dimensions their parsers have bounded and are plain [Z]; those of the
      BCRAW reader, whose parser bounds nothing, wrap.
    - The input [FILE *] is the list of bytes not yet read.
    - The globals [format_problem] and [logging_fmt] live in [world].
    - A C function is a computation in the monad [M]: it returns a value and
      a new world, or it leaves defined behaviour ([Crashed]): a failing
      [assert], [exit] from [xmalloc], or an access outside the object it
      was meant for.
    - A loop whose bound is fixed when it starts is a [Fixpoint] on the
      number of turns left; any other loop is a [Fixpoint] on a fuel
      argument, and the function that starts it supplies fuel computed from
      what bounds the loop.  [OutOfFuel] is the result of a loop that used up
      its fuel; the properties below establish results other than that. *)

From Stdlib Require Import ZArith List Lia Bool.
From Stdlib Require Import DecimalString.
From stdpp Require Import base list strings.
Import ListNotations.
Local Open Scope Z_scope.

(** ** Machine integers *)

Definition u8 (x : Z) : Z := x mod 256.
Definition u32 (x : Z) : Z := x mod 2 ^ 32.
Definition u64 (x : Z) : Z := x mod 2 ^ 64.

(** Conversion of a 32-bit pattern to [int] and of a 64-bit pattern to
    [long]: values with the top bit set are negative. *)
Definition to_int (x : Z) : Z :=
  let y := u32 x in if y <? 2 ^ 31 then y else y - 2 ^ 32.
Definition to_long (x : Z) : Z :=
  let y := u64 x in if y <? 2 ^ 63 then y else y - 2 ^ 64.

(** [(uint64_t)-1], the value [read_u64_bigendian] returns on a short read. *)
Definition U64_MINUS_1 : Z := 2 ^ 64 - 1.

(** ** The world: input stream and globals *)

Record world := World {
  fh : list Z;                      (* bytes of the file not yet read *)
  format_problem : option string;   (* const char *format_problem *)
  logging_fmt : list Z              (* buffer logging_fmt points to *)
}.

Inductive crash :=
| AssertionFailed (expr : string)   (* assert(expr) failed: abort() *)
| OutOfMemory                       (* xmalloc: exit(1) *)
| OutOfBounds (object : string)     (* access outside the named object *)
| OutOfFuel.                        (* artefact of the embedding *)

Inductive outcome (A : Type) :=
| Done (a : A) (w : world)
| Crashed (c : crash).
Arguments Done {A} a w.
Arguments Crashed {A} c.

Definition M (A : Type) : Type := world -> outcome A.

Definition ret {A} (a : A) : M A := fun w => Done a w.
Definition bind {A B} (m : M A) (k : A -> M B) : M B :=
  fun w => match m w with
           | Done a w' => k a w'
           | Crashed c => Crashed c
           end.
Definition crashed {A} (c : crash) : M A := fun _ => Crashed c.

Notation "'let*' p := m 'in' k" := (bind m (fun p => k))
  (at level 10, p pattern, m at level 100, k at level 200).
Notation "m ;;; k" := (bind m (fun _ => k))
  (at level 100, right associativity).

(** [format_problem = msg;] *)
Definition set_format_problem (msg : string) : M unit :=
  fun w => Done tt (World (fh w) (Some msg) (logging_fmt w)).

(** [logging_fmt = buf;] *)
Definition set_logging_fmt (buf : list Z) : M unit :=
  fun w => Done tt (World (fh w) (format_problem w) buf).

(** [assert(b);] *)
Definition assert (b : bool) (expr : string) : M unit :=
  if b then ret tt else crashed (AssertionFailed expr).

(** [fread(ptr, size, nmemb, fh)]: transfers as many of the [size * nmemb]
    bytes as the stream still has and returns them with the number of
    complete items. *)
Definition fread (size nmemb : Z) : M (list Z * Z) :=
  fun w =>
    let n := Z.to_nat (size * nmemb) in
    let got := take n (fh w) in
    Done (got, Z.of_nat (length got) / size)
         (World (drop n (fh w)) (format_problem w) (logging_fmt w)).

(** ** Big-endian 64-bit fields: [read_u64_bigendian] *)

(** [for (i = 7; i >= 0; i--) { x |= (uint64_t)bytes[i] << pos; pos += 8; }]
    with [n = i + 1]. *)
Fixpoint be_loop (n : nat) (bytes : list Z) (pos x : Z) : Z :=
  match n with
  | O => x
  | S i => be_loop i bytes (pos + 8)
             (Z.lor x (u64 (Z.shiftl (nth i bytes 0) pos)))
  end.

Definition read_u64_bigendian : M Z :=
  let* (bytes, num_read) := fread 8 1 in
  if negb (num_read =? 1) then
    set_format_problem "short read of u64" ;;;
    ret U64_MINUS_1
  else ret (be_loop 8 bytes 0 0).

(** ** Image records *)

Record image_info := ImageInfo {
  width : Z;            (* long width *)
  height : Z;           (* long height *)
  cleanup : Z;          (* destructor callback, 0 when absent *)
  create_time : Z;      (* time_t, -1 when absent *)
  pixels : list Z       (* the pixel bytes the [pixels] pointer addresses *)
}.

Definition set_create_time (info : image_info) (t : Z) : image_info :=
  ImageInfo (width info) (height info) (cleanup info) t (pixels info).
Definition set_pixels (info : image_info) (p : list Z) : image_info :=
  ImageInfo (width info) (height info) (cleanup info) (create_time info) p.

(** ** The tagged-data section: [process_tagged_data] *)

Definition bytes_of (s : string) : list Z :=
  map (fun a => Z.of_N (Ascii.N_of_ascii a)) (String.list_ascii_of_string s).

Definition DATA : list Z := [68; 65; 84; 65].
Definition TIME : list Z := [84; 73; 77; 69].
Definition FRMT : list Z := [70; 82; 77; 84].

(** [memcmp(a, b, n) == 0] on two [n]-byte arrays. *)
Definition bytes_eqb (a b : list Z) : bool :=
  (length a =? length b)%nat && forallb (fun p => fst p =? snd p) (combine a b).

(** The printf format the program starts with. *)
Definition default_logging_fmt : list Z :=
  bytes_of "Displaying image of width %ld and height %ld from %s" ++ [0].

(** The body of the [for (;;)] loop; [fuel] bounds the number of tags. The
    result is the C return value (1 = [true]) and the updated [*info]. *)
Fixpoint tagged_data_loop (fuel : nat) (info : image_info)
  : M (bool * image_info) :=
  match fuel with
  | O => crashed OutOfFuel
  | S fuel' =>
    let* (ident, num_read) := fread 4 1 in
    if negb (num_read =? 1) then
      set_format_problem "short read of tag" ;;; ret (false, info)
    else if bytes_eqb ident DATA then
      ret (true, info)
    else
      let* size := read_u64_bigendian in
      if size =? U64_MINUS_1 then ret (false, info)
      else if size >? 2 ^ 40 then
        set_format_problem "tag too large" ;;; ret (false, info)
      else if bytes_eqb ident TIME then
        if negb (size =? 8) then
          set_format_problem "wrong size for TIME" ;;; ret (false, info)
        else
          let* t := read_u64_bigendian in
          tagged_data_loop fuel' (set_create_time info (to_long t))
      else if bytes_eqb ident FRMT then
        (* xmalloc(size + 1) is taken to succeed *)
        let* (fmt_buf, num_read) := fread 1 size in
        if negb (num_read =? size) then
          set_format_problem "short read of format" ;;; ret (false, info)
        else
          set_logging_fmt (fmt_buf ++ [0]) ;;;
          tagged_data_loop fuel' info
      else
        set_format_problem "unrecognized tag" ;;; ret (false, info)
  end.

(** Every iteration that continues has read at least twelve bytes, so the
    length of the stream (plus one for the final [DATA]) is enough fuel. *)
Definition process_tagged_data (info : image_info) : M (bool * image_info) :=
  fun w => tagged_data_loop (S (length (fh w))) info w.

(** ** Memory objects

    A buffer is the list of its bytes.  An access outside the buffer leaves
    defined behaviour; the name of the object is kept in the crash. *)

(** [memcpy]/[fread] of [data] to offset [off] of [buf]. *)
Definition store (object : string) (buf : list Z) (off : Z) (data : list Z)
  : M (list Z) :=
  if (length data =? 0)%nat then ret buf
  else if (0 <=? off) && (off + Z.of_nat (length data) <=? Z.of_nat (length buf))
  then ret (take (Z.to_nat off) buf ++ data
              ++ drop (Z.to_nat off + length data)%nat buf)
  else crashed (OutOfBounds object).

(** [buf[off]] *)
Definition load (object : string) (buf : list Z) (off : Z) : M Z :=
  if (0 <=? off) && (off <? Z.of_nat (length buf))
  then ret (nth (Z.to_nat off) buf 0)
  else crashed (OutOfBounds object).

(** [fread(pixels + off, size, nmemb, fh)] *)
Definition fread_into (buf : list Z) (off size nmemb : Z) : M (list Z * Z) :=
  let* (got, num_read) := fread size nmemb in
  let* buf' := store "pixels" buf off got in
  ret (buf', num_read).

Definition TRAILER_ALIGNMENT : Z := 8.
Definition sizeof_image_info : Z := 48.

(** [pixels = xmalloc(num_bytes + TRAILER_ALIGNMENT + sizeof(struct image_info));
     info_footer = trailer_location(pixels, num_bytes);]
    The size is computed in [size_t].  A request of [2^63] bytes or more
    cannot be met and [xmalloc] exits; smaller requests are taken to
    succeed.  With a negative [num_bytes] that still yields a block, the
    trailer lies before the block.  The pixel region is the first
    [num_bytes] bytes of the block (its contents are indeterminate, here 0). *)
Definition alloc_image (num_bytes : Z) : M (list Z) :=
  let size := u64 (num_bytes + TRAILER_ALIGNMENT + sizeof_image_info) in
  if size >=? 2 ^ 63 then crashed OutOfMemory
  else if num_bytes <? 0 then crashed (OutOfBounds "image_info trailer")
  else ret (repeat 0 (Z.to_nat num_bytes)).

(** [int num_bytes = 3 * width * height;] the product is a [long], the
    assignment keeps its low 32 bits. *)
Definition image_num_bytes (width height : Z) : Z :=
  to_int (to_long (3 * width * height)).

(** The part the three parsers share word for word, from the allocation
    on: allocate, fill in the trailer, read the tags, then the pixel data
    with the format's [reader]; the result is the copy of the trailer. *)
Definition parse_body (reader : image_info -> M (bool * image_info))
  (width height : Z) : M (option image_info) :=
  let num_bytes := image_num_bytes width height in
  let* pixels := alloc_image num_bytes in
  let info_footer := ImageInfo width height 0 (-1) pixels in
  let* (is_ok, info_footer) := process_tagged_data info_footer in
  if negb is_ok then ret None else
  let* (is_ok, info_footer) := reader info_footer in
  if negb is_ok then ret None else
  ret (Some info_footer).

(** ** BCRAW: [read_raw_data], [parse_bcraw] *)

(** [for (col = 0; col < info->width - 8; col += 8)]: eight pixels at once.
    Returns [None] when the C function returns 0, else the column and the
    write position reached.  [row] and [col] are [int]s compared with the
    [long] dimensions, which this parser does not bound: their increments
    wrap. *)
Fixpoint raw_groups (fuel : nat) (info : image_info) (col p : Z)
  (buf : list Z) : M (option (Z * Z * list Z)) :=
  match fuel with
  | O => crashed OutOfFuel
  | S fuel' =>
    if col <? width info - 8 then
      let* (buf', num_read) := fread_into buf p 3 8 in
      if negb (num_read =? 8) then
        set_format_problem "short read of raw data" ;;; ret None
      else raw_groups fuel' info (to_int (col + 8)) (p + 3 * 8) buf'
    else ret (Some (col, p, buf))
  end.

(** [for (; col < info->width; col++)]: the pixels left over. *)
Fixpoint raw_singles (fuel : nat) (info : image_info) (col p : Z)
  (buf : list Z) : M (option (Z * list Z)) :=
  match fuel with
  | O => crashed OutOfFuel
  | S fuel' =>
    if col <? width info then
      let* (buf', num_read) := fread_into buf p 3 1 in
      if negb (num_read =? 1) then
        set_format_problem "short read of raw data" ;;; ret None
      else raw_singles fuel' info (to_int (col + 1)) (p + 3) buf'
    else ret (Some (p, buf))
  end.

(** [for (row = 0; row < info->height; row++)] *)
Fixpoint raw_rows (fuel : nat) (info : image_info) (row p : Z)
  (buf : list Z) : M (option (list Z)) :=
  match fuel with
  | O => crashed OutOfFuel
  | S fuel' =>
    if row <? height info then
      let fuel_col := S (Z.to_nat (width info)) in
      let* r := raw_groups fuel_col info 0 p buf in
      match r with
      | None => ret None
      | Some (col, p, buf) =>
        let* r := raw_singles fuel_col info col p buf in
        match r with
        | None => ret None
        | Some (p, buf) => raw_rows fuel' info (to_int (row + 1)) p buf
        end
      end
    else ret (Some buf)
  end.

Definition read_raw_data (info : image_info) : M (bool * image_info) :=
  let* r := raw_rows (S (Z.to_nat (height info))) info 0 0 (pixels info) in
  match r with
  | None => ret (false, info)
  | Some buf => ret (true, set_pixels info buf)
  end.

(** [flags[0] != 0 || ... || flags[n-1] != 0] *)
Definition reserved_flags_set (n : nat) (flags : list Z) : bool :=
  existsb (fun b => negb (b =? 0)) (take n flags).

(** The part of [parse_bcraw] before the allocation: the flags and the two
    dimensions.  [None] when the function returns a null pointer there. *)
Definition bcraw_header : M (option (Z * Z)) :=
  let* (flags, num_read) := fread 8 1 in
  if negb (num_read =? 1) then
    set_format_problem "short read of flags" ;;; ret None
  else if reserved_flags_set 7 flags then
    set_format_problem "reserved flags should be 0" ;;; ret None
  else if negb (nth 7 flags 0 =? 8) then
    set_format_problem "unsupported depth" ;;; ret None
  else
    let* width := read_u64_bigendian in
    let width := to_long width in
    if width =? -1 then ret None else
    let* height := read_u64_bigendian in
    let height := to_long height in
    if height =? -1 then ret None else
    ret (Some (width, height)).

Definition parse_bcraw : M (option image_info) :=
  let* r := bcraw_header in
  match r with
  | None => ret None
  | Some (width, height) => parse_body read_raw_data width height
  end.

(** ** BCPROG: [read_prog_data], [parse_bcprog] *)

(** One pass of step 1:
    [do { fread(p + row * 3 * width, width, 1, fh); row += step; }
     while (row < info->height);] *)
Fixpoint prog_pass (fuel : nat) (info : image_info) (step row : Z)
  (buf : list Z) : M (option (list Z)) :=
  match fuel with
  | O => crashed OutOfFuel
  | S fuel' =>
    let row_start := row * 3 * width info in
    let* (buf', num_read) := fread_into buf row_start (width info) 1 in
    if negb (num_read =? 1) then
      set_format_problem "short read of row" ;;; ret None
    else
      let row := row + step in
      if row <? height info then prog_pass fuel' info step row buf'
      else ret (Some buf')
  end.

(** The inner loop of step 2, [for (col = info->width - 1; col >= 0; col--)],
    with [n = col + 1]. *)
Fixpoint expand_cols (n : nat) (row_p : Z) (buf : list Z)
  : M (option (list Z)) :=
  match n with
  | O => ret (Some buf)
  | S n' =>
    let col := Z.of_nat n' in
    let* packed := load "pixels" buf (row_p + col) in
    if packed >=? 216 then
      set_format_problem "invalid packed byte" ;;; ret None
    else
      let b := packed mod 6 in
      let packed := u8 (packed / 6) in
      let g := packed mod 6 in
      let packed := u8 (packed / 6) in
      let r := packed in
      let* buf := store "pixels" buf (row_p + 3 * col) [u8 (51 * r)] in
      let* buf := store "pixels" buf (row_p + 3 * col + 1) [u8 (51 * g)] in
      let* buf := store "pixels" buf (row_p + 3 * col + 2) [u8 (51 * b)] in
      expand_cols n' row_p buf
  end.

(** The outer loop of step 2, [for (row = 0; row < info->height; row++)],
    with [n] rows still to do. *)
Fixpoint expand_rows (n : nat) (info : image_info) (row : Z) (buf : list Z)
  : M (option (list Z)) :=
  match n with
  | O => ret (Some buf)
  | S n' =>
    let row_p := row * 3 * width info in
    let* r := expand_cols (Z.to_nat (width info)) row_p buf in
    match r with
    | None => ret None
    | Some buf => expand_rows n' info (row + 1) buf
    end
  end.

Definition read_prog_data (info : image_info) : M (bool * image_info) :=
  let fuel := S (Z.to_nat (height info)) in
  let p := pixels info in
  (* Pass 1: multiples of 4 *)
  let* r := prog_pass fuel info 4 0 p in
  match r with None => ret (false, info) | Some p =>
  (* Pass 2: odd multiples of 2 *)
  let* r := prog_pass fuel info 4 2 p in
  match r with None => ret (false, info) | Some p =>
  (* Pass 3: odd rows *)
  let* r := prog_pass fuel info 2 1 p in
  match r with None => ret (false, info) | Some p =>
  let* r := expand_rows (Z.to_nat (height info)) info 0 p in
  match r with None => ret (false, info) | Some p =>
  ret (true, set_pixels info p)
  end end end end.

(** The part of [parse_bcprog] before the allocation. *)
Definition bcprog_header : M (option (Z * Z)) :=
  let* (flags, num_read) := fread 8 1 in
  if negb (num_read =? 1) then ret None
  else if reserved_flags_set 6 flags then
    set_format_problem "reserved flags should be 0" ;;; ret None
  else if negb (nth 6 flags 0 =? 1) then
    set_format_problem "unsupported passes number" ;;; ret None
  else if negb (nth 7 flags 0 =? 216) then
    set_format_problem "unsupported color depth" ;;; ret None
  else
    let* width := read_u64_bigendian in
    let width := to_long width in
    if width =? -1 then ret None else
    let* height := read_u64_bigendian in
    let height := to_long height in
    if height =? -1 then ret None else
    if (height <? 2) || (width <? 1) then
      set_format_problem "size too small" ;;; ret None
    else if (height >? 600) || (width >? 800) then
      set_format_problem "size too large" ;;; ret None
    else ret (Some (width, height)).

Definition parse_bcprog : M (option image_info) :=
  let* r := bcprog_header in
  match r with
  | None => ret None
  | Some (width, height) => parse_body read_prog_data width height
  end.

(** ** BCFLAT: [decode_flat] *)

Definition FLATBUF : Z := 100.
Definition EXPANSION : Z := 8.

Record flat_decode_state := FlatState {
  reg : Z;        (* shift register of codeword bits, 32 bits *)
  reg_size : Z;   (* number of bits in the register *)
  last : Z        (* previous pixel value *)
}.

(** What a matched codeword stands for: the three branches of the tree. *)
Inductive action :=
| Zeros (num_zeros : Z)      (* 00...: the previous sample, num_zeros times *)
| Repeated (num diff : Z)    (* 01...: num samples, each diff from the one before *)
| Single (diff : Z).         (* 1...: one sample, diff from the one before *)

(** The tree of branches on [reg]: the length of the codeword at the top of
    the register and what it stands for. *)
Definition codeword (reg : Z) : M (Z * action) :=
  if Z.land reg 0xc0000000 =? 0 then
    (* 00... repeated 0 differences *)
    if Z.land reg 0xe0000000 =? 0 then ret (3, Zeros 2)
    else if Z.land reg 0xf0000000 =? 0x20000000 then ret (4, Zeros 3)
    else if Z.land reg 0xf8000000 =? 0x30000000 then ret (5, Zeros 4)
    else if Z.land reg 0xf8000000 =? 0x38000000 then
      ret (7, Zeros (5 + Z.land (Z.shiftr reg 25) 3))
    else crashed (AssertionFailed "0")
  else if Z.land reg 0xc0000000 =? 0x40000000 then
    (* 01... repeated small differences *)
    let num := if negb (Z.land reg 0x20000000 =? 0) then 3 else 2 in
    let amt := Z.shiftr (Z.land reg 0x0c000000) 26 in
    let diff := if negb (Z.land reg 0x10000000 =? 0) then -4 + amt
                else 1 + amt in
    ret (6, Repeated num diff)
  else
    assert (Z.land reg 0x80000000 =? 0x80000000)
           "(reg & 0x80000000) == 0x80000000" ;;;
    (* 1... one sample difference *)
    if Z.land reg 0xe0000000 =? 0x80000000 then ret (3, Single 0)
    else if Z.land reg 0xe0000000 =? 0xa0000000 then
      if Z.land reg 0xf0000000 =? 0xa0000000 then ret (4, Single 1)
      else ret (4, Single (-1))
    else if Z.land reg 0xf0000000 =? 0xc0000000 then
      let diffs := [2; 3; -3; -2] in
      ret (6, Single (nth (Z.to_nat (Z.shiftr (Z.land reg 0x0c000000) 26))
                          diffs 0))
    else if Z.land reg 0xf0000000 =? 0xd0000000 then
      let diffs := [4; 5; 6; 7; -7; -6; -5; -4] in
      ret (7, Single (nth (Z.to_nat (Z.shiftr (Z.land reg 0x0e000000) 25))
                          diffs 0))
    else if Z.land reg 0xf0000000 =? 0xe0000000 then
      let subtype := Z.shiftr (Z.land reg 0x0e000000) 25 in
      let mask := Z.shiftl 1 (3 + Z.shiftr subtype 1) - 1 in
      let pos := 22 - Z.shiftr subtype 1 in
      let amt := Z.land (Z.shiftr reg pos) mask in
      let bases := [8; -15; 16; -31; 32; -63; 64; -127] in
      let codelen := 10 + Z.shiftr subtype 1 in
      assert ((subtype >=? 0) && (subtype <=? 7))
             "subtype >= 0 && subtype <= 7" ;;;
      ret (codelen, Single (nth (Z.to_nat subtype) bases 0 + amt))
    else if Z.land reg 0xf0000000 =? 0xf0000000 then
      ret (7, Single (-128))
    else crashed (AssertionFailed "0").

(** [*q++ = x;] into [uncomp_buf[EXPANSION * (FLATBUF + 1)]]; [out] holds
    the bytes written so far. *)
Definition push (out : list Z) (x : Z) : M (list Z) :=
  if Z.of_nat (length out) <? EXPANSION * (FLATBUF + 1) then ret (out ++ [x])
  else crashed (OutOfBounds "uncomp_buf").

(** [for (i = 0; i < num_zeros; i++) *q++ = last;] *)
Fixpoint push_zeros (n : nat) (last : Z) (out : list Z) : M (list Z) :=
  match n with
  | O => ret out
  | S n' => let* out := push out last in push_zeros n' last out
  end.

(** [for (i = 0; i < num; i++) { next = last + diff; *q++ = next; last = next; }] *)
Fixpoint push_steps (n : nat) (diff last : Z) (out : list Z)
  : M (list Z * Z) :=
  match n with
  | O => ret (out, last)
  | S n' =>
    let next := u8 (last + diff) in
    let* out := push out next in
    push_steps n' diff next out
  end.

(** The samples a matched codeword appends, the new [last], and the
    increment of [num_pixels]. *)
Definition emit (a : action) (last : Z) (out : list Z) : M (list Z * Z * Z) :=
  match a with
  | Zeros num_zeros =>
    assert ((num_zeros >=? 2) && (num_zeros <=? 8))
           "num_zeros >= 2 && num_zeros <= 8" ;;;
    let* out := push_zeros (Z.to_nat num_zeros) last out in
    ret (out, last, num_zeros)
  | Repeated num diff =>
    let* (out, last) := push_steps (Z.to_nat num) diff last out in
    ret (out, last, num)
  | Single diff =>
    let* out := push out (u8 (last + diff)) in
    ret (out, u8 (last + diff), 1)
  end.

(** [while (reg_size < 13)]: bytes enter the register below the bits it
    holds; bytes taken at or after [comp_size] are padding. *)
Fixpoint fill_register (fuel : nat) (comp_buf : list Z) (comp_size : Z)
  (reg reg_size p padding_bits : Z) : M (Z * Z * Z * Z) :=
  if reg_size <? 13 then
    match fuel with
    | O => crashed OutOfFuel
    | S fuel' =>
      let padding_bits :=
        if p >=? comp_size then padding_bits + 8 else padding_bits in
      let* byte := load "comp_buf" comp_buf p in
      let reg := Z.lor reg (u32 (Z.shiftl byte ((32 - 8) - reg_size))) in
      fill_register fuel' comp_buf comp_size reg (reg_size + 8) (p + 1)
                    padding_bits
    end
  else ret (reg, reg_size, p, padding_bits).

(** The main loop,
    [while (num_pixels < max_pixels && p < comp_buf + comp_size + 2)]. *)
Fixpoint decode_loop (fuel : nat) (comp_buf : list Z)
  (comp_size max_pixels : Z)
  (reg reg_size last p : Z) (out : list Z) (num_pixels padding_bits : Z)
  : M (Z * Z * Z * Z * list Z * Z) :=
  if (num_pixels <? max_pixels) && (p <? comp_size + 2) then
    match fuel with
    | O => crashed OutOfFuel
    | S fuel' =>
      assert (num_pixels >=? 0) "num_pixels >= 0" ;;;
      let* (reg, reg_size, p, padding_bits) :=
        fill_register 2 comp_buf comp_size reg reg_size p padding_bits in
      let* (codelen, act) := codeword reg in
      if codelen >? u32 (reg_size - padding_bits) then
        (* Don't match using padding bits *)
        ret (reg, reg_size, last, p, out, num_pixels)
      else
        let* (out, last, n) := emit act last out in
        let num_pixels := num_pixels + n in
        let reg := u32 (Z.shiftl reg codelen) in
        let reg_size := reg_size - codelen in
        decode_loop fuel' comp_buf comp_size max_pixels
                    reg reg_size last p out num_pixels padding_bits
    end
  else ret (reg, reg_size, last, p, out, num_pixels).

(** [while (reg_size >= 8) { reg &= ~(0xff << (32 - reg_size));
     reg_size -= 8; p--; }] *)
Fixpoint unget (fuel : nat) (reg reg_size p : Z) : M (Z * Z * Z) :=
  if reg_size >=? 8 then
    match fuel with
    | O => crashed OutOfFuel
    | S fuel' =>
      let reg := Z.land reg (u32 (Z.lnot (Z.shiftl 0xff (32 - reg_size)))) in
      unget fuel' reg (reg_size - 8) (p - 1)
    end
  else ret (reg, reg_size, p).

(** [decode_flat(comp_p, &comp_size, uncomp_p, &num_pixels, state)] with
    [comp] the [comp_size] bytes at [comp_p] and [max_pixels] the value of
    [*pixels_inout] on entry.  The result is the new [*comp_size_inout], the
    bytes copied to [uncomp_p] (their number is the new [*pixels_inout]) and
    the new [*state].  Each turn of the main loop that goes on retires at
    least three bits, which bounds the turns by the bits at hand. *)
Definition decode_flat (comp : list Z) (max_pixels : Z)
  (state : flat_decode_state) : M (Z * list Z * flat_decode_state) :=
  let comp_size := Z.of_nat (length comp) in
  assert (comp_size <=? FLATBUF) "comp_size <= FLATBUF" ;;;
  let comp_buf := comp ++ [0; 0] in
  let fuel := S (Z.to_nat (reg_size state + 8 * (comp_size + 2))) in
  let* (reg, reg_size, last, p, out, num_pixels) :=
    decode_loop fuel comp_buf comp_size max_pixels
                (reg state) (u32 (reg_size state)) (last state) 0 [] 0 0 in
  let* (reg, reg_size, p) := unget (Z.to_nat reg_size) reg reg_size p in
  assert (Z.of_nat (length out) =? num_pixels)
         "q - uncomp_buf == num_pixels" ;;;
  assert (num_pixels <=? max_pixels + EXPANSION)
         "num_pixels <= max_pixels + EXPANSION" ;;;
  ret (Z.min comp_size p, out, FlatState reg reg_size last).

(** ** BCFLAT: [read_flat_data], [parse_bcflat] *)

(** [for (i = 0; i < num_pixels; i++) { assert(x < info->width);
     row[3*x + channel] = pixel_buf[i]; x++; }] *)
Fixpoint write_samples (pixel_buf : list Z) (info : image_info)
  (row channel x : Z) (pix : list Z) : M (list Z * Z) :=
  match pixel_buf with
  | [] => ret (pix, x)
  | s :: rest =>
    assert (x <? width info) "x < info->width" ;;;
    let* pix := store "pixels" pix (row + (3 * x + channel)) [s] in
    write_samples rest info row channel (x + 1) pix
  end.

(** [while (x < info->width)]: refill the buffer, decode, store.  [buf] holds
    the [buf_read_pos] bytes buffered so far.  Returns [None] when the C
    function returns 0. *)
Fixpoint flat_row_loop (fuel : nat) (info : image_info) (row channel x : Z)
  (buf : list Z) (state : flat_decode_state) (pix : list Z)
  : M (option (list Z * list Z)) :=
  if x <? width info then
    match fuel with
    | O => crashed OutOfFuel
    | S fuel' =>
      let max_pixels := width info - x in
      let buf_read_pos := Z.of_nat (length buf) in
      let* buf :=
        if buf_read_pos <? FLATBUF then
          let num_to_read := FLATBUF - buf_read_pos in
          let* (got, num_read) := fread 1 num_to_read in
          (* a short read happens at end of file only *)
          ret (buf ++ got)
        else ret buf in
      let comp_size := Z.of_nat (length buf) in
      if comp_size =? 0 then
        set_format_problem "too little data" ;;; ret None
      else
        let* (comp_size, pixel_buf, state) :=
          decode_flat buf max_pixels state in
        let num_pixels := Z.of_nat (length pixel_buf) in
        assert (num_pixels >? 0) "num_pixels > 0" ;;;
        assert (num_pixels <=? max_pixels + EXPANSION)
               "num_pixels <= max_pixels + EXPANSION" ;;;
        if num_pixels >? max_pixels then
          set_format_problem "excess pixels at end of row" ;;; ret None
        else
          let* (pix, x) := write_samples pixel_buf info row channel x pix in
          let buf := drop (Z.to_nat comp_size) buf in
          flat_row_loop fuel' info row channel x buf state pix
    end
  else ret (Some (buf, pix)).

(** [for (y = 0; y < info->height; y++)] with [n] rows still to do. *)
Fixpoint flat_rows (n : nat) (info : image_info) (channel y : Z)
  (buf pix : list Z) : M (option (list Z * list Z)) :=
  match n with
  | O => ret (Some (buf, pix))
  | S n' =>
    let row := 3 * y * width info in
    let* r :=
      match buf with
      | first :: buf => ret (Some (first, buf))
      | [] =>
        let* (got, num_read) := fread 1 1 in
        if negb (num_read =? 1) then
          set_format_problem "failed to read first byte" ;;; ret None
        else ret (Some (nth 0 got 0, []))
      end in
    match r with
    | None => ret None
    | Some (first, buf) =>
      let* pix := store "pixels" pix (row + (0 + channel)) [first] in
      let x := 1 in
      let state := FlatState 0 0 first in
      let* r := flat_row_loop (Z.to_nat (width info)) info row channel x
                              buf state pix in
      match r with
      | None => ret None
      | Some (buf, pix) => flat_rows n' info channel (y + 1) buf pix
      end
    end
  end.

(** [for (channel = 0; channel <= 2; channel++)] with [n] channels to do. *)
Fixpoint flat_channels (n : nat) (info : image_info) (channel : Z)
  (buf pix : list Z) : M (option (list Z)) :=
  match n with
  | O => ret (Some pix)
  | S n' =>
    let* r := flat_rows (Z.to_nat (height info)) info channel 0 buf pix in
    match r with
    | None => ret None
    | Some (buf, pix) => flat_channels n' info (channel + 1) buf pix
    end
  end.

Definition read_flat_data (info : image_info) : M (bool * image_info) :=
  let* r := flat_channels 3 info 0 [] (pixels info) in
  match r with
  | None => ret (false, info)
  | Some pix => ret (true, set_pixels info pix)
  end.

(** The value the global [size_limit] is initialised with. *)
Definition size_limit_init : Z := 26754.

(** The part of [parse_bcflat] before the allocation.  The function reads
    the global [size_limit]; it is a parameter here. *)
Definition bcflat_header (size_limit : Z) : M (option (Z * Z)) :=
  let* (flags, num_read) := fread 8 1 in
  if negb (num_read =? 1) then ret None
  else if reserved_flags_set 6 flags then
    set_format_problem "reserved flags should be 0" ;;; ret None
  else if negb (nth 6 flags 0 =? 0x0d) then
    set_format_problem "unsupported dictionary size" ;;; ret None
  else if negb (nth 7 flags 0 =? 0x03) then
    set_format_problem "unsupported number of channels" ;;; ret None
  else
    let* width := read_u64_bigendian in
    let width := to_long width in
    if width =? -1 then ret None else
    let* height := read_u64_bigendian in
    let height := to_long height in
    if height =? -1 then ret None else
    if (height <? 1) || (width <? 1) then
      set_format_problem "size must be positive" ;;; ret None
    else if (height >? size_limit) || (width >? size_limit) then
      set_format_problem "size too large compared to stack" ;;; ret None
    else ret (Some (width, height)).

Definition parse_bcflat (size_limit : Z) : M (option image_info) :=
  let* r := bcflat_header size_limit in
  match r with
  | None => ret None
  | Some (width, height) => parse_body read_flat_data width height
  end.

(** ** The dispatcher: [parse_image] *)

Definition bcraw_magic : list Z :=
  [0x00; 0x42; 0x43; 0x52; 0xc3; 0x84; 0x57; 0x0a].
Definition bcprog_magic : list Z :=
  [0x42; 0x43; 0x50; 0x52; 0xc3; 0x96; 0x47; 0x0a].
Definition bcflat_magic : list Z :=
  [0x42; 0x43; 0x46; 0x4c; 0xc3; 0x84; 0x54; 0x0a].

(** [format_problem = 0;] *)
Definition clear_format_problem : M unit :=
  fun w => Done tt (World (fh w) None (logging_fmt w)).

(** [parse_image] on an opened file: the world's stream is the file. *)
Definition parse_image (size_limit : Z) : M (option image_info) :=
  let* (magic, num_read) := fread 8 1 in
  if negb (num_read =? 1) then ret None
  else
    clear_format_problem ;;;
    if bytes_eqb magic bcraw_magic then parse_bcraw
    else if bytes_eqb magic bcprog_magic then parse_bcprog
    else if bytes_eqb magic bcflat_magic then parse_bcflat size_limit
    else ret None.

(** The world [parse_image] starts in when it has opened a file with the
    given contents and no image with a [FRMT] tag was read before. *)
Definition open_file (contents : list Z) : world :=
  World contents None default_logging_fmt.

(** ** Start-up: the size limit set by [main] *)

Definition RLIM_INFINITY : Z := 2 ^ 64 - 1.

(** [res = getrlimit(RLIMIT_STACK, &rlim);
     if (res == 0 && rlim.rlim_cur != RLIM_INFINITY)
         size_limit = (long)sqrt(rlim.rlim_cur * 1024 / 3);]
    [rlim_cur] is a 64-bit unsigned value.  The quotient is below [2^62]
    and the square root of its nearest double, cut to a [long], is taken to
    be the integer square root (it is when the quotient is below [2^52]). *)
Definition main_size_limit (res rlim_cur : Z) : Z :=
  if (res =? 0) && negb (rlim_cur =? RLIM_INFINITY)
  then Z.sqrt (u64 (rlim_cur * 1024) / 3)
  else size_limit_init.

(** ** Logging: [print_log_msg] *)

(** A call [printf(format, args...)]: the buffer [format] points to and the
    arguments, integers or strings. *)
Inductive printf_arg :=
| ArgLong (n : Z)
| ArgString (s : list Z).

Record printf_call := Printf {
  pf_format : list Z;
  pf_args : list printf_arg
}.

(** The C string a buffer holds: its bytes before the first 0. *)
Fixpoint cstring (buf : list Z) : list Z :=
  match buf with
  | [] => []
  | b :: rest => if b =? 0 then [] else b :: cstring rest
  end.

(** The conversion specifications [printf] finds in a format: a ['%'] starts
    one unless the next byte is ['%'] too; it runs up to and including the
    first conversion letter ([d i o u x X e E f F g G a A c s p n]). *)
Definition is_conversion_letter (b : Z) : bool :=
  existsb (Z.eqb b) (bytes_of "diouxXeEfFgGaAcspn").

Fixpoint take_directive (fmt : list Z) : list Z * list Z :=
  match fmt with
  | [] => ([], [])
  | b :: rest =>
    if is_conversion_letter b then ([b], rest)
    else let (d, rest') := take_directive rest in (b :: d, rest')
  end.

Fixpoint directives_fuel (fuel : nat) (fmt : list Z) : list (list Z) :=
  match fuel with
  | O => []
  | S fuel' =>
    match fmt with
    | [] => []
    | 37 :: 37 :: rest => directives_fuel fuel' rest
    | 37 :: rest =>
      let (d, rest') := take_directive rest in
      (37 :: d) :: directives_fuel fuel' rest'
    | _ :: rest => directives_fuel fuel' rest
    end
  end.

Definition printf_directives (fmt : list Z) : list (list Z) :=
  directives_fuel (length fmt) fmt.

(** The format of the second call, a newline. *)
Definition newline_fmt : list Z := [10; 0].

Section Logging.
(** [localtime_r] and [strftime] with ["%a, %d %b %Y %T %z"] depend on the
    time zone of the process. *)
Variable strftime_local : Z -> list Z.

(** The two [printf] calls of [print_log_msg], in order. *)
Definition print_log_msg (info : image_info) (w : world) : list printf_call :=
  let time_str :=
    if negb (create_time info =? -1) then strftime_local (create_time info)
    else bytes_of "recently" in
  [ Printf (logging_fmt w)
           [ArgLong (width info); ArgLong (height info);
            ArgString time_str; ArgLong (create_time info)];
    Printf newline_fmt [] ].
End Logging.

(** ** Files as the decoders expect them

    The encoders below build the byte sequences the statements quantify
    over: a 64-bit field, a tag, a tag section. *)

(** The [n] low-order bytes of [x], most significant first. *)
Fixpoint be_bytes (n : nat) (x : Z) : list Z :=
  match n with
  | O => []
  | S n' => be_bytes n' (x / 256) ++ [x mod 256]
  end.

Definition be64 (x : Z) : list Z := be_bytes 8 x.

(** The number a list of bytes denotes, most significant first. *)
Definition be_value (bytes : list Z) : Z :=
  fold_left (fun acc b => acc * 256 + b) bytes 0.

Definition is_byte (b : Z) : Prop := 0 <= b < 256.

(** A tag other than the final [DATA]. *)
Inductive tag :=
| TagTime (t : Z)
| TagFrmt (payload : list Z).

Definition encode_tag (t : tag) : list Z :=
  match t with
  | TagTime t => TIME ++ be64 8 ++ be64 t
  | TagFrmt payload => FRMT ++ be64 (Z.of_nat (length payload)) ++ payload
  end.

Definition encode_tags (tags : list tag) : list Z :=
  flat_map encode_tag tags.

Definition tag_ok (t : tag) : Prop :=
  match t with
  | TagTime t => 0 <= t < 2 ^ 64
  | TagFrmt payload => Z.of_nat (length payload) <= 2 ^ 40
  end.

(** What a tag section leaves in [info->create_time] and [logging_fmt]. *)
Definition tags_create_time (tags : list tag) (t0 : Z) : Z :=
  fold_left (fun acc t => match t with TagTime t => to_long t | _ => acc end)
            tags t0.
Definition tags_logging_fmt (tags : list tag) (fmt0 : list Z) : list Z :=
  fold_left (fun acc t => match t with TagFrmt p => p ++ [0] | _ => acc end)
            tags fmt0.

(** An image record to run the tag parser on. *)
Definition info0 : image_info := ImageInfo 1 1 0 (-1) [].


(** The payload of the last [FRMT] tag of a section, if it has one. *)
Definition last_frmt (tags : list tag) : option (list Z) :=
  fold_left (fun acc t => match t with TagFrmt p => Some p | _ => acc end)
            tags None.

(** The claim that a [FRMT] payload stays inert: no [printf] call takes the
    buffer holding it as a format in which it finds a conversion. *)
Definition payload_inert (payload : list Z) (calls : list printf_call) : Prop :=
  forall c, In c calls -> pf_format c = payload ++ [0] ->
            printf_directives (cstring (pf_format c)) = [].

(** A BCRAW file: magic, flags, dimensions, tags, [DATA], payload. *)
Definition bcraw_flags : list Z := [0; 0; 0; 0; 0; 0; 0; 8].
Definition bcraw_file (w h : Z) (tags : list tag) (payload : list Z) : list Z :=
  bcraw_magic ++ bcraw_flags ++ be64 w ++ be64 h
  ++ encode_tags tags ++ DATA ++ payload.

(** The state of a sequential copy of [data] from the stream into a buffer
    that started as [buf0], once [n] bytes are copied: the buffer, and the
    world with the rest of [data] and then [extra] still to read. *)
Definition copied (data buf0 : list Z) (n : nat) : list Z :=
  take n data ++ drop n buf0.
Definition pending (data extra : list Z) (fp : option string) (lf : list Z)
  (n : nat) : world :=
  World (drop n data ++ extra) fp lf.

(** ** The BCFLAT code table

    The table of codewords as the format describes it.  A class of
    codewords is a fixed prefix [cw_bits] ([cw_plen] bits with value [cw_prefix])
    followed by [cw_ext] extension bits with value [x]; it stands for the
    action [cw_action x]. *)
Record cw_class := CwClass {
  cw_bits : list Z;          (* the prefix, most significant bit first *)
  cw_ext : Z;                (* the number of extension bits *)
  cw_action : Z -> action    (* the action, given the extension's value *)
}.

Definition cw_prefix (e : cw_class) : Z :=
  fold_left (fun acc b => 2 * acc + b) (cw_bits e) 0.
Definition cw_plen (e : cw_class) : Z := Z.of_nat (length (cw_bits e)).
Definition cw_len (e : cw_class) : Z := cw_plen e + cw_ext e.
Definition cw_value (e : cw_class) (x : Z) : Z := cw_prefix e * 2 ^ cw_ext e + x.

Definition code_table : list cw_class :=
  [ CwClass [0; 0; 0] 0 (fun _ => Zeros 2);            (* 000 *)
    CwClass [0; 0; 1; 0] 0 (fun _ => Zeros 3);           (* 0010 *)
    CwClass [0; 0; 1; 1; 0] 0 (fun _ => Zeros 4);          (* 00110 *)
    CwClass [0; 0; 1; 1; 1] 2 (fun x => Zeros (5 + x));    (* 00111xx *)
    CwClass [0; 1; 0; 0] 2 (fun x => Repeated 2 (1 + x));      (* 0100xx *)
    CwClass [0; 1; 0; 1] 2 (fun x => Repeated 2 (- (4 - x)));  (* 0101xx *)
    CwClass [0; 1; 1; 0] 2 (fun x => Repeated 3 (1 + x));      (* 0110xx *)
    CwClass [0; 1; 1; 1] 2 (fun x => Repeated 3 (- (4 - x)));  (* 0111xx *)
    CwClass [1; 0; 0] 0 (fun _ => Single 0);           (* 100 *)
    CwClass [1; 0; 1; 0] 0 (fun _ => Single 1);          (* 1010 *)
    CwClass [1; 0; 1; 1] 0 (fun _ => Single (-1));       (* 1011 *)
    CwClass [1; 1; 0; 0; 0] 1 (fun x => Single (2 + x));        (* 11000x *)
    CwClass [1; 1; 0; 0; 1] 1 (fun x => Single (- (3 - x)));    (* 11001x *)
    CwClass [1; 1; 0; 1; 0] 2 (fun x => Single (4 + x));        (* 11010xx *)
    CwClass [1; 1; 0; 1; 1] 2 (fun x => Single (- (7 - x)));    (* 11011xx *)
    CwClass [1; 1; 1; 0; 0; 0; 0] 3 (fun x => Single (8 + x));
    CwClass [1; 1; 1; 0; 0; 0; 1] 3 (fun x => Single (- (15 - x)));
    CwClass [1; 1; 1; 0; 0; 1; 0] 4 (fun x => Single (16 + x));
    CwClass [1; 1; 1; 0; 0; 1; 1] 4 (fun x => Single (- (31 - x)));
    CwClass [1; 1; 1; 0; 1; 0; 0] 5 (fun x => Single (32 + x));
    CwClass [1; 1; 1; 0; 1; 0; 1] 5 (fun x => Single (- (63 - x)));
    CwClass [1; 1; 1; 0; 1; 1; 0] 6 (fun x => Single (64 + x));
    CwClass [1; 1; 1; 0; 1; 1; 1] 6 (fun x => Single (- (127 - x)));
    CwClass [1; 1; 1; 1; 0; 0; 0] 0 (fun _ => Single (-128)) ].     (* 1111000 *)

(** The number of samples an action appends and the step between them. *)
Definition action_count (a : action) : Z :=
  match a with Zeros n => n | Repeated n _ => n | Single _ => 1 end.
Definition action_diff (a : action) : Z :=
  match a with Zeros _ => 0 | Repeated _ d => d | Single d => d end.

(** The range of the arguments the decoder's actions carry. *)
Definition action_ok (a : action) : Prop :=
  match a with
  | Zeros n => 2 <= n <= 8
  | Repeated n _ => 0 <= n
  | Single _ => True
  end.

(** The samples an action stands for after the sample [last]: sample [k]
    (from 1) is [last + k * diff], wrapping modulo 256. *)
Definition action_samples (a : action) (last : Z) : list Z :=
  map (fun k => (last + Z.of_nat k * action_diff a) mod 256)
      (seq 1 (Z.to_nat (action_count a))).




Definition action_eqb (a b : action) : bool :=
  match a, b with
  | Zeros n, Zeros m => n =? m
  | Repeated n d, Repeated m e => (n =? m) && (d =? e)
  | Single d, Single e => d =? e
  | _, _ => false
  end.

(** The register with everything below its top 13 bits cleared. *)
Definition top13 (reg : Z) : Z := Z.shiftl (Z.shiftr reg 19) 19.

(** A world for computations that do not touch it. *)
Definition world0 : world := World [] None [].


(** The check that on a register whose top 13 bits are [h] the tree finds a
    codeword of 3 to 13 bits that stands for 1 to 8 samples. *)
Definition codeword_shape_at (h : Z) : bool :=
  match codeword (Z.shiftl h 19) world0 with
  | Done (codelen, act) _ =>
    (3 <=? codelen) && (codelen <=? 13)
    && (1 <=? action_count act) && (action_count act <=? 8)
    && match act with Zeros n => 2 <=? n | _ => true end
  | Crashed _ => false
  end.

(** The register, the read position and the padding count in step at the
    top of the main loop of [decode_flat]: the register holds [reg_size]
    bits (at most 20, never more than were read), [padding_bits] of them
    from the bytes read at or after [comp_size]. *)
Definition register_in_step (comp_size reg reg_size p padding_bits : Z)
  : Prop :=
  0 <= reg < 2 ^ 32 /\
  0 <= padding_bits <= reg_size /\
  reg_size <= 8 * p + 7 /\ reg_size <= 20 /\
  0 <= p <= comp_size + 2 /\
  padding_bits = 8 * Z.max 0 (p - comp_size).

(** ** Decoding by chunks

    [decode_flat] called once per refill, as the row loop of
    [read_flat_data] calls it: each call gets the bytes the call before
    left unconsumed followed by the next chunk, the state the call before
    left, and the number of samples still missing. *)
Fixpoint decode_chunks (chunks : list (list Z)) (buf : list Z)
  (max_pixels : Z) (state : flat_decode_state)
  : M (list Z * flat_decode_state) :=
  match chunks with
  | [] => ret ([], state)
  | chunk :: chunks' =>
    let comp := buf ++ chunk in
    let* (comp_size, pixel_buf, state) := decode_flat comp max_pixels state in
    let* (more, state) :=
      decode_chunks chunks' (drop (Z.to_nat comp_size) comp)
                    (max_pixels - Z.of_nat (length pixel_buf)) state in
    ret (pixel_buf ++ more, state)
  end.

(** ** Sample files *)

Definition bcprog_flags : list Z := [0; 0; 0; 0; 0; 0; 1; 0xd8].
Definition bcprog_file (w h : Z) (tags : list tag) (payload : list Z) : list Z :=
  bcprog_magic ++ bcprog_flags ++ be64 w ++ be64 h
  ++ encode_tags tags ++ DATA ++ payload.

Definition bcflat_flags : list Z := [0; 0; 0; 0; 0; 0; 0x0d; 0x03].
Definition bcflat_file (w h : Z) (tags : list tag) (payload : list Z) : list Z :=
  bcflat_magic ++ bcflat_flags ++ be64 w ++ be64 h
  ++ encode_tags tags ++ DATA ++ payload.

(** A 2x1 BCFLAT image: per channel a literal byte and one codeword, for red
    the ten bits [1110000 000] (+8), for green and blue [100] (+0). *)
Definition flat_2x1 : list Z :=
  bcflat_file 2 1 [] [0xF0; 0xE0; 0x00; 0x10; 0x80; 0x20; 0x80].

(** Eight codewords [0011111] (a run of eight samples each) fill seven
    bytes; a row of a 913x1 image is a literal byte and 114 of them, which
    take 100 bytes with two bits to spare. *)
Definition runs_of_eight : list Z := [0x3E; 0x7C; 0xF9; 0xF3; 0xE7; 0xCF; 0x9F].
Definition row_of_runs : list Z :=
  concat (repeat runs_of_eight 14) ++ [0x3E; 0x7C].
Definition flat_913x1 : list Z :=
  bcflat_file 913 1 []
    ([5] ++ row_of_runs ++ [6] ++ row_of_runs ++ [7] ++ row_of_runs).

(** ** Further definitions for the properties of the decoders *)

(** The value of the last [TIME] tag of a section, if it has one. *)
Definition last_time (tags : list tag) : option Z :=
  fold_left (fun acc t => match t with TagTime t => Some t | _ => acc end)
            tags None.


(** [trailer_location(base, pixel_bytes)]: [base] is the address of the
    block, [pixel_bytes] a [size_t]; addresses are 64-bit values. *)
Definition trailer_location (base pixel_bytes : Z) : Z :=
  let pixels_end := u64 (base + pixel_bytes) in
  let trailer_loc := pixels_end in
  let extra := trailer_loc mod TRAILER_ALIGNMENT in
  let pad := (TRAILER_ALIGNMENT - extra) mod TRAILER_ALIGNMENT in
  u64 (trailer_loc + pad).

(** The world [parse_image] starts in when the program opens another file:
    the stream is the new file, the globals are as the last call left
    them. *)
Definition next_file (w : world) (contents : list Z) : world :=
  World contents (format_problem w) (logging_fmt w).

(** ** Output: [free_image_info], [write_ppm] and the batch mode of [main] *)







Section Batch.
Variable strftime_local : Z -> list Z.

End Batch.

(** ** BCPROG: where the rows of the file go *)

(** The byte at offset [i] of a buffer. *)
Definition byte_at (buf : list Z) (i : Z) : Z := nth (Z.to_nat i) buf 0.

(** The place in the file, counted in rows, of row [r] of an image with
    [height] rows: the rows that are multiples of 4 come first, then the
    odd multiples of 2, then the odd rows. *)
Definition file_row (height r : Z) : Z :=
  if r mod 4 =? 0 then r / 4
  else if r mod 4 =? 2 then (height + 3) / 4 + r / 4
  else (height + 3) / 4 + (height + 1) / 4 + r / 2.

(** ** BCFLAT: what can go wrong in a narrow image *)

(** A computation returns, or it stops at the assertion [num_pixels > 0] of
    [read_flat_data]. *)
Definition returns_or_stalls {A} (r : outcome A) : Prop :=
  match r with
  | Done _ _ => True
  | Crashed c => c = AssertionFailed "num_pixels > 0"
  end.

(** ** BCFLAT: one codeword alone *)

(** A computation that neither reads nor changes the world. *)
Definition pure {A} (m : M A) : Prop :=
  forall w, m w = match m world0 with
                  | Done r _ => Done r w
                  | Crashed c => Crashed c
                  end.

(** The two bytes that hold a codeword of the table at their top, the
    bits after it zero. *)
Definition codeword_bytes (e : cw_class) (x : Z) : list Z :=
  let v := cw_value e x * 2 ^ (16 - cw_len e) in [v / 256; v mod 256].

(** The steps of [decode_flat] on such a codeword that do not depend on the
    previous sample, compared with the table: the register is filled from
    the two bytes, the tree finds the codeword of the table, and once the
    codeword is shifted out the whole bytes left go back to the input. *)
Definition decodes_alone (e : cw_class) (x : Z) : bool :=
  match fill_register 2 (codeword_bytes e x ++ [0; 0]) 2 0 0 0 0 world0 with
  | Done (r1, size1, p1, pad1) _ =>
    (size1 =? 16) && (p1 =? 2) && (pad1 =? 0)
    && match codeword r1 world0 with
       | Done (codelen, act) _ =>
         (codelen =? cw_len e) && action_eqb act (cw_action e x)
         && (1 <=? action_count act) && (action_count act <=? 8)
       | Crashed _ => false
       end
    && match unget (Z.to_nat (16 - cw_len e)) (u32 (Z.shiftl r1 (cw_len e)))
                   (16 - cw_len e) 2 world0 with
       | Done (r2, size2, p2) _ =>
         (r2 =? 0) && (size2 =? (16 - cw_len e) mod 8)
         && (Z.min 2 p2 =? (if cw_len e <=? 8 then 1 else 2))
       | Crashed _ => false
       end
  | Crashed _ => false
  end.

(** The class [0110xx] of the table: three samples, each 1 to 4 above the
    one before. *)
Definition cw_0110xx : cw_class :=
  CwClass [0; 1; 1; 0] 2 (fun x => Repeated 3 (1 + x)).

(** * Properties *)

(** ** Machine integers and big-endian fields *)

Lemma testbit_above (x pos n : Z) :
  0 <= x < 2 ^ pos -> pos <= n -> Z.testbit x n = false.
Proof.
  intros Hx Hn.
  destruct (Z.eq_dec x 0) as [-> | Hx0]; [apply Z.bits_0|].
  apply Z.bits_above_log2; [lia|].
  assert (Z.log2 x < pos); [|lia].
  apply Z.log2_lt_pow2; lia.
Qed.

Lemma lor_shiftl_add (x b pos : Z) :
  0 <= pos -> 0 <= x < 2 ^ pos -> 0 <= b ->
  Z.lor x (Z.shiftl b pos) = x + b * 2 ^ pos.
Proof.
  intros Hpos Hx Hb.
  rewrite Z.shiftl_mul_pow2 by lia.
  assert (Hdisj : Z.land x (b * 2 ^ pos) = 0).
  { apply Z.bits_inj'; intros n Hn. rewrite Z.land_spec, Z.bits_0.
    destruct (Z.lt_ge_cases n pos) as [Hlt | Hge].
    - now rewrite Z.mul_pow2_bits_low, andb_false_r.
    - now rewrite (testbit_above x pos n). }
  now rewrite Z.add_nocarry_lxor, Z.lxor_lor.
Qed.

Lemma be_value_snoc (bytes : list Z) (b : Z) :
  be_value (bytes ++ [b]) = be_value bytes * 256 + b.
Proof. unfold be_value. now rewrite fold_left_app. Qed.

Lemma be_value_bound (bytes : list Z) :
  Forall is_byte bytes -> 0 <= be_value bytes < 256 ^ Z.of_nat (length bytes).
Proof.
  induction bytes as [|b bytes IH] using rev_ind; intros Hall.
  - cbn. lia.
  - apply Forall_app in Hall as [Hbs Hb]. apply Forall_inv in Hb.
    specialize (IH Hbs). rewrite be_value_snoc, length_app, Nat2Z.inj_add.
    cbn [length]. rewrite Z.pow_add_r by lia. unfold is_byte in Hb.
    change (256 ^ Z.of_nat 1) with 256. nia.
Qed.

(** The loop of [read_u64_bigendian] computes the big-endian value of the
    bytes it is given. *)
Lemma be_loop_value (n : nat) : forall (bytes : list Z) (pos x : Z),
  Forall is_byte bytes -> (n <= length bytes)%nat ->
  0 <= pos -> 0 <= x < 2 ^ pos -> pos + 8 * Z.of_nat n <= 64 ->
  be_loop n bytes pos x = x + 2 ^ pos * be_value (take n bytes).
Proof.
  induction n as [|i IH]; intros bytes pos x Hall Hlen Hpos Hx Hfit.
  - rewrite take_0. unfold be_value. cbn. ring.
  - cbn [be_loop].
    destruct (lookup_lt_is_Some_2 bytes i) as [b Hb]; [lia|].
    rewrite (take_S_r _ _ _ Hb), be_value_snoc.
    rewrite (nth_lookup_Some _ _ _ _ Hb).
    assert (Hbyte : is_byte b).
    { rewrite Forall_forall in Hall. apply Hall.
      eapply list_elem_of_lookup_2; eauto. }
    unfold is_byte in Hbyte.
    assert (Hpow : 0 < 2 ^ pos) by (apply Z.pow_pos_nonneg; lia).
    assert (Hsh : Z.shiftl b pos = b * 2 ^ pos)
      by (rewrite Z.shiftl_mul_pow2; lia).
    assert (Hsmall : 0 <= b * 2 ^ pos < 2 ^ 64).
    { split; [nia|].
      apply Z.lt_le_trans with (256 * 2 ^ pos); [nia|].
      change 256 with (2 ^ 8). rewrite <- Z.pow_add_r by lia.
      apply Z.pow_le_mono_r; lia. }
    unfold u64. rewrite Hsh, Z.mod_small by lia.
    rewrite <- Hsh, lor_shiftl_add by lia.
    rewrite IH; try lia; trivial.
    + rewrite Z.pow_add_r by lia. change (2 ^ 8) with 256. ring.
    + rewrite Z.pow_add_r by lia. change (2 ^ 8) with 256. nia.
Qed.

Lemma be_bytes_length (n : nat) (x : Z) : length (be_bytes n x) = n.
Proof.
  revert x; induction n as [|n IH]; intros x; cbn; [reflexivity|].
  rewrite length_app, IH. cbn. lia.
Qed.

Lemma be_bytes_byte (n : nat) (x : Z) : Forall is_byte (be_bytes n x).
Proof.
  revert x; induction n as [|n IH]; intros x; cbn; [constructor|].
  apply Forall_app; split; [apply IH|].
  constructor; [|constructor]. unfold is_byte. apply Z.mod_pos_bound. lia.
Qed.

Lemma be_value_be_bytes (n : nat) (x : Z) :
  0 <= x < 256 ^ Z.of_nat n -> be_value (be_bytes n x) = x.
Proof.
  revert x; induction n as [|n IH]; intros x Hx.
  - cbn in *. lia.
  - cbn [be_bytes]. rewrite be_value_snoc, IH.
    + pose proof (Z.div_mod x 256). lia.
    + rewrite Nat2Z.inj_succ, Z.pow_succ_r in Hx by lia.
      split; [apply Z.div_pos; lia|].
      apply Z.div_lt_upper_bound; lia.
Qed.

Lemma be64_length (x : Z) : length (be64 x) = 8%nat.
Proof. apply be_bytes_length. Qed.

(** ** Reading from the stream *)

Lemma fread_exact (size nmemb : Z) (bytes rest : list Z)
  (fp : option string) (lf : list Z) :
  0 < size -> Z.of_nat (length bytes) = size * nmemb ->
  fread size nmemb (World (bytes ++ rest) fp lf)
  = Done (bytes, nmemb) (World rest fp lf).
Proof.
  intros Hsize Hlen. unfold fread. cbn [fh format_problem logging_fmt].
  rewrite <- Hlen, Nat2Z.id, take_app_length, drop_app_length.
  rewrite Hlen, Z.mul_comm, Z.div_mul by lia. reflexivity.
Qed.

(** A well-formed 64-bit field is read back as the number it encodes. *)
Lemma read_u64_be64 (x : Z) (rest : list Z) (fp : option string) (lf : list Z) :
  0 <= x < 2 ^ 64 ->
  read_u64_bigendian (World (be64 x ++ rest) fp lf) = Done x (World rest fp lf).
Proof.
  intros Hx. unfold read_u64_bigendian, bind.
  rewrite fread_exact by (rewrite ?be64_length; lia).
  cbn [negb Z.eqb Pos.eqb ret].
  rewrite be_loop_value; try lia.
  - rewrite <- (be64_length x) at 1. rewrite firstn_all.
    unfold be64. rewrite be_value_be_bytes; [f_equal; lia|].
    change (256 ^ Z.of_nat 8) with (2 ^ 64). lia.
  - apply be_bytes_byte.
  - now rewrite be64_length.
Qed.

(** ** The tagged-data section *)

Lemma bytes_eqb_eq (a b : list Z) : bytes_eqb a b = true <-> a = b.
Proof.
  unfold bytes_eqb. revert b; induction a as [|x a IH]; intros [|y b]; cbn;
    try (split; intros; discriminate || reflexivity).
  specialize (IH b). rewrite andb_true_iff in *. rewrite andb_true_iff.
  rewrite Z.eqb_eq, Nat.eqb_eq in *. split.
  - intros [Hl [-> Hf]]. f_equal. apply IH. auto.
  - intros [= -> ->]. destruct IH as [_ IH]. specialize (IH eq_refl).
    tauto.
Qed.

Lemma bytes_eqb_neq (a b : list Z) : a <> b -> bytes_eqb a b = false.
Proof.
  intros Hne. destruct (bytes_eqb a b) eqn:E; [|reflexivity].
  apply bytes_eqb_eq in E. contradiction.
Qed.

Lemma bytes_eqb_refl (a : list Z) : bytes_eqb a a = true.
Proof. now apply bytes_eqb_eq. Qed.

(** The first steps of one turn of the loop on a tag that is not [DATA]:
    the identifier and the size are read. *)
Lemma tagged_data_loop_header (fuel : nat) (info : image_info)
  (ident : list Z) (size : Z) (rest : list Z)
  (fp : option string) (lf : list Z) :
  length ident = 4%nat -> ident <> DATA -> 0 <= size < 2 ^ 64 ->
  tagged_data_loop (S fuel) info (World (ident ++ be64 size ++ rest) fp lf)
  = (if size =? U64_MINUS_1 then ret (false, info)
     else if size >? 2 ^ 40 then
       set_format_problem "tag too large" ;;; ret (false, info)
     else if bytes_eqb ident TIME then
       if negb (size =? 8) then
         set_format_problem "wrong size for TIME" ;;; ret (false, info)
       else
         let* t := read_u64_bigendian in
         tagged_data_loop fuel (set_create_time info (to_long t))
     else if bytes_eqb ident FRMT then
       let* (fmt_buf, num_read) := fread 1 size in
       if negb (num_read =? size) then
         set_format_problem "short read of format" ;;; ret (false, info)
       else
         set_logging_fmt (fmt_buf ++ [0]) ;;;
         tagged_data_loop fuel info
     else
       set_format_problem "unrecognized tag" ;;; ret (false, info))
    (World rest fp lf).
Proof.
  intros Hlen Hne Hsize. cbn [tagged_data_loop]. unfold bind at 1.
  rewrite fread_exact by lia. cbn [negb Z.eqb Pos.eqb].
  rewrite (bytes_eqb_neq _ _ Hne). unfold bind at 1.
  rewrite read_u64_be64 by assumption. reflexivity.
Qed.




(** *** A whole tag section *)

Lemma encode_tags_length (tags : list tag) :
  (length tags <= length (encode_tags tags))%nat.
Proof.
  induction tags as [|t tags IH]; [cbn; lia|].
  unfold encode_tags in *. cbn [flat_map]. rewrite length_app.
  destruct t; cbn [encode_tag]; rewrite ?length_app; cbn [length TIME FRMT]; lia.
Qed.

Lemma tagged_data_loop_tags (tags : list tag) :
  forall (fuel : nat) (info : image_info) (rest : list Z)
         (fp : option string) (lf : list Z),
  Forall tag_ok tags -> (length tags < fuel)%nat ->
  tagged_data_loop fuel info
    (World (encode_tags tags ++ DATA ++ rest) fp lf)
  = Done (true, set_create_time info (tags_create_time tags (create_time info)))
         (World rest fp (tags_logging_fmt tags lf)).
Proof.
  induction tags as [|t tags IH]; intros fuel info rest fp lf Hok Hfuel.
  - destruct fuel as [|fuel]; [cbn in Hfuel; lia|].
    cbn [encode_tags flat_map app tags_create_time tags_logging_fmt fold_left].
    cbn [tagged_data_loop]. unfold bind at 1.
    rewrite (fread_exact 4 1 DATA) by (cbn; lia). cbn [negb Z.eqb Pos.eqb].
    rewrite bytes_eqb_refl. destruct info; reflexivity.
  - destruct fuel as [|fuel]; [cbn in Hfuel; lia|]. cbn [length] in Hfuel.
    apply Forall_cons in Hok as [Ht Hok].
    unfold encode_tags. cbn [flat_map]. fold (encode_tags tags).
    destruct t as [t | payload]; cbn [encode_tag tag_ok] in *.
    + rewrite <- !app_assoc.
      rewrite tagged_data_loop_header by (trivial; try discriminate; lia).
      change (8 =? U64_MINUS_1) with false. change (8 >? 2 ^ 40) with false.
      rewrite bytes_eqb_refl. change (negb (8 =? 8)) with false. cbv iota.
      unfold bind at 1. rewrite read_u64_be64 by assumption.
      rewrite IH by (trivial; lia). reflexivity.
    + rewrite <- !app_assoc.
      rewrite tagged_data_loop_header by (trivial; try discriminate; lia).
      destruct (Z.eqb_spec (Z.of_nat (length payload)) U64_MINUS_1) as [E|_];
        [unfold U64_MINUS_1 in E; lia|].
      destruct (Z.gtb_spec (Z.of_nat (length payload)) (2 ^ 40)) as [E|_];
        [lia|].
      change (bytes_eqb FRMT TIME) with false. rewrite bytes_eqb_refl.
      cbv iota. unfold bind at 1. rewrite fread_exact by lia.
      rewrite Z.eqb_refl. cbn [negb]. unfold bind at 1.
      cbn [set_logging_fmt fh format_problem logging_fmt].
      rewrite IH by (trivial; lia). reflexivity.
Qed.

(** A section of well-formed tags is read up to and including its [DATA]:
    the last [TIME] tag sets the creation time, the last [FRMT] tag the
    logging format. *)
Lemma process_tagged_data_tags (tags : list tag) (info : image_info)
  (rest : list Z) (fp : option string) (lf : list Z) :
  Forall tag_ok tags ->
  process_tagged_data info (World (encode_tags tags ++ DATA ++ rest) fp lf)
  = Done (true, set_create_time info (tags_create_time tags (create_time info)))
         (World rest fp (tags_logging_fmt tags lf)).
Proof.
  intros Hok. unfold process_tagged_data. cbn [fh].
  apply tagged_data_loop_tags; [assumption|].
  rewrite length_app. pose proof (encode_tags_length tags). lia.
Qed.

Lemma tags_logging_fmt_last (tags : list tag) :
  forall (lf : list Z) (acc : option (list Z)) (payload : list Z),
  fold_left (fun acc t => match t with TagFrmt p => Some p | _ => acc end)
            tags acc = Some payload ->
  (acc = None \/ exists p, acc = Some p /\ lf = p ++ [0]) ->
  tags_logging_fmt tags lf = payload ++ [0].
Proof.
  unfold tags_logging_fmt.
  induction tags as [|t tags IH]; intros lf acc payload Hlast Hacc.
  - cbn in *. destruct Hacc as [-> | (p & -> & ->)]; congruence.
  - cbn [fold_left] in *. destruct t as [t | p].
    + eapply IH; eauto.
    + eapply IH; eauto.
Qed.

(** ** C1: the [FRMT] payload and the logging routine *)

(** C1, as stated, fails.  A 1x1 BCRAW file whose tag section holds the
    [FRMT] payload ["%ld"] decodes, and the logging routine then calls
    [printf] with that payload as the format: its three bytes are read as
    the conversion [%ld]. *)
Lemma frmt_payload_not_inert :
  exists info w,
    parse_image size_limit_init
      (open_file (bcraw_file 1 1 [TagFrmt (bytes_of "%ld")] [10; 20; 30]))
    = Done (Some info) w /\
    print_log_msg (fun _ => []) info w
    = [ Printf (bytes_of "%ld" ++ [0])
               [ArgLong 1; ArgLong 1; ArgString (bytes_of "recently");
                ArgLong (-1)];
        Printf newline_fmt [] ] /\
    printf_directives (cstring (bytes_of "%ld" ++ [0])) = [bytes_of "%ld"] /\
    ~ payload_inert (bytes_of "%ld") (print_log_msg (fun _ => []) info w).
Proof.
  eexists. eexists. split; [vm_compute; reflexivity|].
  split; [vm_compute; reflexivity|].
  split; [vm_compute; reflexivity|].
  intros H. specialize (H _ (or_introl eq_refl) eq_refl).
  vm_compute in H. discriminate.
Qed.

(** C1 (amended): whenever the tag section holds a [FRMT] tag, the payload
    of the last one is read verbatim and stored with a terminating 0 as the
    logging format; the logging routine passes that buffer to [printf] as
    its format, so [printf] reads the conversions the payload spells. *)
Theorem frmt_payload_is_printf_format
  (strftime_local : Z -> list Z) (tags : list tag) (payload : list Z)
  (info : image_info) (rest : list Z) (fp : option string) (lf : list Z) :
  Forall tag_ok tags ->
  last_frmt tags = Some payload ->
  exists info' w',
    process_tagged_data info (World (encode_tags tags ++ DATA ++ rest) fp lf)
    = Done (true, info') w' /\
    fh w' = rest /\
    logging_fmt w' = payload ++ [0] /\
    forall shown : image_info,
      print_log_msg strftime_local shown w'
      = [ Printf (payload ++ [0])
                 [ArgLong (width shown); ArgLong (height shown);
                  ArgString (if negb (create_time shown =? -1)
                             then strftime_local (create_time shown)
                             else bytes_of "recently");
                  ArgLong (create_time shown)];
          Printf newline_fmt [] ].
Proof.
  intros Hok Hlast. eexists. eexists.
  split; [apply process_tagged_data_tags; assumption|].
  split; [reflexivity|].
  assert (Hfmt : tags_logging_fmt tags lf = payload ++ [0])
    by (eapply tags_logging_fmt_last; eauto).
  split; [exact Hfmt|].
  intros shown. unfold print_log_msg. cbn [logging_fmt]. rewrite Hfmt.
  reflexivity.
Qed.

(** A section with a [FRMT] tag holding ["%s%s"], followed by a [TIME] tag. *)
Lemma frmt_payload_is_printf_format_witness :
  exists info' w',
    process_tagged_data info0
      (World (encode_tags [TagFrmt (bytes_of "%s%s"); TagTime 5] ++ DATA ++ [1])
             None default_logging_fmt)
    = Done (true, info') w' /\
    fh w' = [1] /\
    logging_fmt w' = bytes_of "%s%s" ++ [0] /\
    forall shown : image_info,
      print_log_msg (fun _ => []) shown w'
      = [ Printf (bytes_of "%s%s" ++ [0])
                 [ArgLong (width shown); ArgLong (height shown);
                  ArgString (if negb (create_time shown =? -1)
                             then []
                             else bytes_of "recently");
                  ArgLong (create_time shown)];
          Printf newline_fmt [] ].
Proof.
  apply (frmt_payload_is_printf_format (fun _ => [])
           [TagFrmt (bytes_of "%s%s"); TagTime 5] (bytes_of "%s%s")
           info0 [1] None default_logging_fmt).
  - repeat constructor; cbn; lia.
  - reflexivity.
Defined.

(** ** BCRAW: the pixel data is copied in stream order *)

Lemma to_int_small (x : Z) : - 2 ^ 31 <= x < 2 ^ 31 -> to_int x = x.
Proof.
  intros Hx. unfold to_int, u32.
  destruct (Z.lt_ge_cases x 0) as [Hneg | Hpos].
  - replace (x mod 2 ^ 32) with (x + 2 ^ 32).
    + destruct (Z.ltb_spec (x + 2 ^ 32) (2 ^ 31)); lia.
    + apply Z.mod_unique with (-1); lia.
  - rewrite Z.mod_small by lia.
    destruct (Z.ltb_spec x (2 ^ 31)); lia.
Qed.

Section RawCopy.
Variables (data buf0 extra : list Z) (fp : option string) (lf : list Z).
Variable info : image_info.
Hypothesis Hbuf0 : length buf0 = length data.
Hypothesis Hwidth : width info < 2 ^ 31.
Hypothesis Hheight : height info < 2 ^ 31.

Lemma copied_length (n : nat) : length (copied data buf0 n) = length data.
Proof. unfold copied. rewrite length_app, length_take, length_drop. lia. Qed.

(** One [fread] of [c] bytes at the cursor moves the cursor by [c]. *)
Lemma fread_into_copied (n c : nat) (size nmemb : Z) :
  (n + c <= length data)%nat -> Z.of_nat c = size * nmemb -> 0 < size ->
  fread_into (copied data buf0 n) (Z.of_nat n) size nmemb
             (pending data extra fp lf n)
  = Done (copied data buf0 (n + c), nmemb) (pending data extra fp lf (n + c)).
Proof.
  intros Hfit Hc Hsize. unfold fread_into, pending, bind.
  rewrite <- (take_drop c (drop n data)) at 1. rewrite <- app_assoc.
  rewrite fread_exact; [|assumption|].
  2:{ rewrite length_take, length_drop. lia. }
  rewrite drop_drop. unfold store.
  rewrite length_take, length_drop, copied_length.
  replace (c `min` (length data - n))%nat with c by lia.
  destruct (Nat.eqb_spec c 0) as [-> | Hc0].
  - now rewrite Nat.add_0_r.
  - replace ((0 <=? Z.of_nat n)
             && (Z.of_nat n + Z.of_nat c <=? Z.of_nat (length data)))
      with true by (symmetry; apply andb_true_iff; split; apply Z.leb_le; lia).
    unfold ret. f_equal. f_equal. unfold copied.
    rewrite Nat2Z.id.
    rewrite take_app_length' by (rewrite length_take; lia).
    rewrite drop_app_add' by (rewrite length_take; lia).
    rewrite drop_drop, app_assoc, take_take_drop. reflexivity.
Qed.

Lemma raw_groups_copied (fuel : nat) : forall (col : Z) (n : nat),
  0 <= col ->
  (n + Z.to_nat (3 * (width info - col)) <= length data)%nat ->
  Z.max 0 (width info - col) < Z.of_nat fuel ->
  exists col',
    col <= col' /\ (col' <= width info \/ col' = col) /\
    raw_groups fuel info col (Z.of_nat n) (copied data buf0 n)
               (pending data extra fp lf n)
    = Done (Some (col', Z.of_nat (n + Z.to_nat (3 * (col' - col))),
                  copied data buf0 (n + Z.to_nat (3 * (col' - col)))))
           (pending data extra fp lf (n + Z.to_nat (3 * (col' - col)))).
Proof.
  induction fuel as [|fuel IH]; intros col n Hcol Hfit Hfuel; [lia|].
  cbn [raw_groups].
  destruct (Z.ltb_spec col (width info - 8)) as [Hlt | Hge].
  - unfold bind at 1.
    rewrite (fread_into_copied n 24) by lia.
    cbn [negb Z.eqb Pos.eqb]. rewrite to_int_small by lia.
    destruct (IH (col + 8) (n + 24)%nat) as (col' & Hle & Hw & Hrun);
      [lia | lia | lia |].
    exists col'. split; [lia|]. split; [lia|].
    replace (Z.of_nat n + 3 * 8) with (Z.of_nat (n + 24)) by lia.
    rewrite Hrun.
    replace (n + 24 + Z.to_nat (3 * (col' - (col + 8))))%nat
      with (n + Z.to_nat (3 * (col' - col)))%nat by lia.
    reflexivity.
  - exists col. split; [lia|]. split; [now right|].
    replace (3 * (col - col)) with 0 by lia.
    change (Z.to_nat 0) with 0%nat. rewrite Nat.add_0_r. reflexivity.
Qed.

Lemma raw_singles_copied (fuel : nat) : forall (col : Z) (n : nat),
  0 <= col ->
  (n + Z.to_nat (3 * (width info - col)) <= length data)%nat ->
  Z.max 0 (width info - col) < Z.of_nat fuel ->
  raw_singles fuel info col (Z.of_nat n) (copied data buf0 n)
              (pending data extra fp lf n)
  = Done (Some (Z.of_nat (n + Z.to_nat (3 * (width info - col))),
                copied data buf0 (n + Z.to_nat (3 * (width info - col)))))
         (pending data extra fp lf (n + Z.to_nat (3 * (width info - col)))).
Proof.
  induction fuel as [|fuel IH]; intros col n Hcol Hfit Hfuel; [lia|].
  cbn [raw_singles].
  destruct (Z.ltb_spec col (width info)) as [Hlt | Hge].
  - unfold bind at 1.
    rewrite (fread_into_copied n 3) by lia.
    cbn [negb Z.eqb Pos.eqb]. rewrite to_int_small by lia.
    replace (Z.of_nat n + 3) with (Z.of_nat (n + 3)) by lia.
    rewrite IH by lia.
    replace (n + 3 + Z.to_nat (3 * (width info - (col + 1))))%nat
      with (n + Z.to_nat (3 * (width info - col)))%nat by lia.
    reflexivity.
  - replace (Z.to_nat (3 * (width info - col))) with 0%nat by lia.
    rewrite Nat.add_0_r. reflexivity.
Qed.

Lemma raw_rows_copied (fuel : nat) : forall (row : Z) (n : nat),
  0 <= row ->
  (n + Z.to_nat (height info - row) * Z.to_nat (3 * width info)
   <= length data)%nat ->
  Z.max 0 (height info - row) < Z.of_nat fuel ->
  raw_rows fuel info row (Z.of_nat n) (copied data buf0 n)
           (pending data extra fp lf n)
  = Done (Some (copied data buf0
                  (n + Z.to_nat (height info - row)
                       * Z.to_nat (3 * width info))))
         (pending data extra fp lf
            (n + Z.to_nat (height info - row) * Z.to_nat (3 * width info))).
Proof.
  induction fuel as [|fuel IH]; intros row n Hrow Hfit Hfuel; [lia|].
  cbn [raw_rows].
  destruct (Z.ltb_spec row (height info)) as [Hlt | Hge].
  - replace (Z.to_nat (height info - row))
      with (S (Z.to_nat (height info - (row + 1)))) in * by lia.
    cbn [Nat.mul] in *.
    destruct (raw_groups_copied (S (Z.to_nat (width info))) 0 n)
      as (col' & Hle & Hw & Hrun); [lia | rewrite Z.sub_0_r; lia | lia |].
    unfold bind at 1. rewrite Hrun. unfold bind at 1.
    rewrite Z.sub_0_r in *.
    rewrite raw_singles_copied by lia.
    replace (n + Z.to_nat (3 * col') + Z.to_nat (3 * (width info - col')))%nat
      with (n + Z.to_nat (3 * width info))%nat by lia.
    rewrite to_int_small by lia.
    assert (Hrow' : 0 <= row + 1) by lia.
    assert (Hfuel' : Z.max 0 (height info - (row + 1)) < Z.of_nat fuel) by lia.
    remember (Z.to_nat (height info - (row + 1))) as R eqn:HR.
    remember (Z.to_nat (3 * width info)) as W3 eqn:HW3.
    remember (R * W3)%nat as RW eqn:HRW.
    rewrite IH; [| assumption | | assumption].
    + rewrite <- HR, <- HRW. now rewrite Nat.add_assoc.
    + rewrite <- HR, <- HRW. lia.
  - replace (Z.to_nat (height info - row)) with 0%nat by lia.
    cbn [Nat.mul]. rewrite Nat.add_0_r. reflexivity.
Qed.

End RawCopy.

Lemma read_raw_data_copies (info : image_info) (data extra : list Z)
  (fp : option string) (lf : list Z) :
  0 <= width info < 2 ^ 31 -> 0 <= height info < 2 ^ 31 ->
  length (pixels info) = length data ->
  Z.of_nat (length data) = 3 * width info * height info ->
  read_raw_data info (World (data ++ extra) fp lf)
  = Done (true, set_pixels info data) (World extra fp lf).
Proof.
  intros Hw Hh Hpix Hlen. unfold read_raw_data, bind.
  assert (Hn : (Z.to_nat (height info - 0) * Z.to_nat (3 * width info))%nat
               = length data).
  { rewrite Z.sub_0_r, <- Z2Nat.inj_mul by lia.
    replace (height info * (3 * width info)) with (Z.of_nat (length data))
      by lia.
    apply Nat2Z.id. }
  pose proof (raw_rows_copied data (pixels info) extra fp lf info Hpix
                (proj2 Hw) (proj2 Hh)
                (S (Z.to_nat (height info))) 0 0) as Hrun.
  cbn [Nat.add] in Hrun. unfold copied at 1, pending at 1 in Hrun.
  rewrite take_0, !drop_0 in Hrun. cbn [app] in Hrun.
  change (Z.of_nat 0) with 0 in Hrun.
  rewrite Hrun by lia. rewrite Hn. unfold copied, pending.
  rewrite take_ge, !drop_ge by lia. now rewrite app_nil_r.
Qed.

Lemma to_long_small (x : Z) : 0 <= x < 2 ^ 63 -> to_long x = x.
Proof.
  intros Hx. unfold to_long, u64. rewrite Z.mod_small by lia.
  destruct (Z.ltb_spec x (2 ^ 63)); lia.
Qed.

Lemma image_num_bytes_exact (w h : Z) :
  0 <= 3 * w * h < 2 ^ 31 -> image_num_bytes w h = 3 * w * h.
Proof.
  intros Hb. unfold image_num_bytes. rewrite to_long_small by lia.
  unfold to_int, u32. rewrite Z.mod_small by lia.
  destruct (Z.ltb_spec (3 * w * h) (2 ^ 31)); lia.
Qed.

Lemma alloc_image_ok (num_bytes : Z) (w : world) :
  0 <= num_bytes < 2 ^ 31 ->
  alloc_image num_bytes w = Done (repeat 0 (Z.to_nat num_bytes)) w.
Proof.
  intros Hb. unfold alloc_image, u64, TRAILER_ALIGNMENT, sizeof_image_info.
  rewrite Z.mod_small by lia.
  destruct (Z.geb_spec (num_bytes + 8 + 48) (2 ^ 63)); [lia|].
  destruct (Z.ltb_spec num_bytes 0); [lia | reflexivity].
Qed.

(** ** C2: BCRAW decoding *)

(** C2, as stated, fails.  A BCRAW stream with the right magic and flags,
    width [2^64 - 1], height 0, no tags and an empty payload has the
    [3 * w * h = 0] payload bytes the claim asks for, but is not decoded:
    the width is taken for the value of a failed read.  And with width
    715827883 and height 1 no payload, however long, is decoded: the
    product [3 * w * h = 2^31 + 1] does not fit the [int] that holds the
    size of the raster, and the allocation fails. *)
Lemma bcraw_all_ones_width_rejected :
  (Z.of_nat (length (@nil Z)) = 3 * (2 ^ 64 - 1) * 0 /\
   parse_image size_limit_init (open_file (bcraw_file (2 ^ 64 - 1) 0 [] []))
   = Done None (World (be64 0 ++ DATA) None default_logging_fmt))
  /\ (3 * 715827883 * 1 = 2 ^ 31 + 1 /\
      forall payload : list Z,
        parse_image size_limit_init
          (open_file (bcraw_file 715827883 1 [] payload))
        = Crashed OutOfMemory).
Proof.
  split; [split; vm_compute; reflexivity|].
  split; [reflexivity|]. intros payload. vm_compute. reflexivity.
Qed.

(** C2 (amended): for every BCRAW stream with the right magic and flags,
    dimensions [w] and [h] below [2^31] with [3 * w * h < 2^31], a section of
    well-formed tags ending in [DATA] and at least [3 * w * h] bytes after
    it, decoding succeeds; the raster is the first [3 * w * h] of these
    bytes in stream order, and the stream is left at the byte after them. *)
Theorem parse_bcraw_copies_payload (size_limit w h : Z) (tags : list tag)
  (payload extra : list Z) :
  0 <= w < 2 ^ 31 -> 0 <= h < 2 ^ 31 -> 3 * w * h < 2 ^ 31 ->
  Forall tag_ok tags ->
  Z.of_nat (length payload) = 3 * w * h ->
  parse_image size_limit (open_file (bcraw_file w h tags (payload ++ extra)))
  = Done (Some (ImageInfo w h 0 (tags_create_time tags (-1)) payload))
         (World extra None (tags_logging_fmt tags default_logging_fmt)).
Proof.
  intros Hw Hh Hwh Htags Hlen.
  assert (Hnn : 0 <= 3 * w * h) by nia.
  unfold parse_image, open_file, bcraw_file.
  unfold bind at 1. rewrite fread_exact by (cbn; lia).
  cbn [negb Z.eqb Pos.eqb]. unfold bind at 1. cbn [clear_format_problem fh logging_fmt].
  rewrite bytes_eqb_refl. unfold parse_bcraw, bind at 1.
  unfold bcraw_header. unfold bind at 1.
  rewrite fread_exact by (cbn; lia). cbn [negb Z.eqb Pos.eqb].
  change (reserved_flags_set 7 bcraw_flags) with false.
  change (negb (nth 7 bcraw_flags 0 =? 8)) with false. cbv iota.
  unfold bind at 1. rewrite read_u64_be64 by lia.
  rewrite to_long_small by lia.
  destruct (Z.eqb_spec w (-1)); [lia|].
  unfold bind at 1. rewrite read_u64_be64 by lia.
  rewrite to_long_small by lia.
  destruct (Z.eqb_spec h (-1)); [lia|].
  unfold ret at 1. unfold parse_body.
  rewrite image_num_bytes_exact by lia.
  unfold bind at 1. rewrite alloc_image_ok by lia.
  unfold bind at 1. rewrite process_tagged_data_tags by assumption.
  unfold set_create_time. cbn [negb create_time width height cleanup pixels].
  unfold bind at 1.
  rewrite read_raw_data_copies; cbn [width height pixels]; try lia.
  - reflexivity.
  - rewrite repeat_length. lia.
Qed.

(** The end-to-end example: a 2x2 image with no tags and twelve bytes. *)
Lemma parse_bcraw_copies_payload_witness :
  parse_image size_limit_init
    (open_file (bcraw_file 2 2 [] ([1; 2; 3; 4; 5; 6; 7; 8; 9; 10; 11; 12] ++ [])))
  = Done (Some (ImageInfo 2 2 0 (-1) [1; 2; 3; 4; 5; 6; 7; 8; 9; 10; 11; 12]))
         (World [] None default_logging_fmt).
Proof.
  apply (parse_bcraw_copies_payload size_limit_init 2 2 []
           [1; 2; 3; 4; 5; 6; 7; 8; 9; 10; 11; 12] []);
    try lia; [constructor | reflexivity].
Defined.

(** ** BCPROG: palette expansion in place *)

Lemma store_byte (object : string) (buf : list Z) (i : nat) (v : Z) (w : world) :
  (i < length buf)%nat ->
  store object buf (Z.of_nat i) [v] w = Done (<[i:=v]> buf) w.
Proof.
  intros Hi. unfold store. cbn [length Nat.eqb].
  replace ((0 <=? Z.of_nat i)
           && (Z.of_nat i + Z.of_nat 1 <=? Z.of_nat (length buf)))
    with true by (symmetry; apply andb_true_iff; split; apply Z.leb_le; lia).
  unfold ret. f_equal. rewrite Nat2Z.id, insert_take_drop by assumption.
  now rewrite Nat.add_1_r.
Qed.

Lemma load_byte (object : string) (buf : list Z) (i : nat) (w : world) :
  (i < length buf)%nat ->
  load object buf (Z.of_nat i) w = Done (nth i buf 0) w.
Proof.
  intros Hi. unfold load.
  replace ((0 <=? Z.of_nat i) && (Z.of_nat i <? Z.of_nat (length buf)))
    with true
    by (symmetry; apply andb_true_iff; split;
        [apply Z.leb_le | apply Z.ltb_lt]; lia).
  now rewrite Nat2Z.id.
Qed.

Lemma nth_insert_eq (buf : list Z) (i : nat) (v : Z) :
  (i < length buf)%nat -> nth i (<[i:=v]> buf) 0 = v.
Proof.
  intros Hi. apply nth_lookup_Some. now apply list_lookup_insert_eq.
Qed.

Lemma nth_insert_ne (buf : list Z) (i j : nat) (v : Z) :
  i <> j -> nth j (<[i:=v]> buf) 0 = nth j buf 0.
Proof.
  intros Hne. rewrite !nth_lookup. now rewrite list_lookup_insert_ne.
Qed.

(** The three bytes a palette index below 216 expands to: its base-6 digits,
    most significant first, each scaled by 51. *)
Lemma palette_digits (p : Z) :
  0 <= p < 216 ->
  u8 (51 * u8 (u8 (p / 6) / 6)) = 51 * (p / 36) /\
  u8 (51 * (u8 (p / 6) mod 6)) = 51 * ((p / 6) mod 6) /\
  u8 (51 * (p mod 6)) = 51 * (p mod 6).
Proof.
  intros Hp. unfold u8.
  assert (H6 : 0 <= p / 6 < 36)
    by (split; [apply Z.div_pos | apply Z.div_lt_upper_bound]; lia).
  assert (H36 : 0 <= p / 6 / 6 < 6)
    by (split; [apply Z.div_pos | apply Z.div_lt_upper_bound]; lia).
  rewrite (Z.mod_small (p / 6)) by lia.
  rewrite (Z.mod_small (p / 6 / 6)) by lia.
  rewrite Z.div_div in * by lia. change (6 * 6) with 36 in *.
  pose proof (Z.mod_pos_bound (p / 6) 6 ltac:(lia)).
  pose proof (Z.mod_pos_bound p 6 ltac:(lia)).
  repeat split; apply Z.mod_small; lia.
Qed.

(** One turn of the column loop on a valid palette byte. *)
Lemma expand_cols_step (n : nat) (base : nat) (buf : list Z) (w : world) :
  (base + 3 * n + 3 <= length buf)%nat ->
  nth (base + n) buf 0 < 216 ->
  expand_cols (S n) (Z.of_nat base) buf w
  = let p := nth (base + n) buf 0 in
    expand_cols n (Z.of_nat base)
      (<[(base + 3 * n + 2)%nat := u8 (51 * (p mod 6))]>
         (<[(base + 3 * n + 1)%nat := u8 (51 * (u8 (p / 6) mod 6))]>
            (<[(base + 3 * n)%nat := u8 (51 * u8 (u8 (p / 6) / 6))]> buf)))
      w.
Proof.
  intros Hfit Hp. cbn [expand_cols]. unfold bind at 1.
  replace (Z.of_nat base + Z.of_nat n) with (Z.of_nat (base + n)) by lia.
  rewrite load_byte by lia.
  destruct (Z.geb_spec (nth (base + n) buf 0) 216) as [Hge | _]; [lia|].
  replace (Z.of_nat base + 3 * Z.of_nat n) with (Z.of_nat (base + 3 * n))
    by lia.
  unfold bind at 1. rewrite store_byte by lia.
  replace (Z.of_nat (base + 3 * n) + 1) with (Z.of_nat (base + 3 * n + 1))
    by lia.
  unfold bind at 1. rewrite store_byte by (rewrite length_insert; lia).
  replace (Z.of_nat (base + 3 * n) + 2) with (Z.of_nat (base + 3 * n + 2))
    by lia.
  unfold bind at 1. rewrite store_byte by (rewrite !length_insert; lia).
  reflexivity.
Qed.

Lemma expand_cols_valid (base : nat) (w : world) (n : nat) :
  forall buf : list Z,
  (base + 3 * n <= length buf)%nat ->
  (forall i, (i < n)%nat -> 0 <= nth (base + i) buf 0 < 216) ->
  exists buf',
    expand_cols n (Z.of_nat base) buf w = Done (Some buf') w /\
    length buf' = length buf /\
    (forall i, (i < n)%nat ->
       let p := nth (base + i) buf 0 in
       nth (base + 3 * i) buf' 0 = 51 * (p / 36) /\
       nth (base + 3 * i + 1) buf' 0 = 51 * ((p / 6) mod 6) /\
       nth (base + 3 * i + 2) buf' 0 = 51 * (p mod 6)) /\
    (forall j, (j < base \/ base + 3 * n <= j)%nat ->
       nth j buf' 0 = nth j buf 0).
Proof.
  induction n as [|n IH]; intros buf Hfit Hvalid.
  - exists buf. split; [reflexivity|]. split; [reflexivity|].
    split; [intros i Hi; lia | trivial].
  - pose proof (Hvalid n ltac:(lia)) as Hp.
    rewrite expand_cols_step by lia. cbv zeta.
    set (p := nth (base + n) buf 0) in *.
    destruct (palette_digits p Hp) as (Hr & Hg & Hb).
    rewrite Hr, Hg, Hb.
    set (buf1 := <[(base + 3 * n + 2)%nat := _]> _).
    assert (Hlen1 : length buf1 = length buf)
      by (unfold buf1; now rewrite !length_insert).
    assert (Hsame : forall j, (j < base + 3 * n \/ base + 3 * n + 3 <= j)%nat ->
                              nth j buf1 0 = nth j buf 0).
    { intros j Hj. unfold buf1. rewrite !nth_insert_ne by lia. reflexivity. }
    destruct (IH buf1) as (buf' & Hrun & Hlen & Hexp & Hout).
    + lia.
    + intros i Hi. rewrite Hsame by lia. apply Hvalid. lia.
    + exists buf'. split; [exact Hrun|]. split; [lia|]. split.
      * intros i Hi. destruct (Nat.eq_dec i n) as [-> | Hne].
        -- cbv zeta. fold p. rewrite !Hout by lia. unfold buf1.
           rewrite nth_insert_ne, nth_insert_ne, nth_insert_eq by
               (rewrite ?length_insert; lia).
           rewrite nth_insert_ne, nth_insert_eq by
               (rewrite ?length_insert; lia).
           rewrite nth_insert_eq by (rewrite ?length_insert; lia).
           auto.
        -- specialize (Hexp i ltac:(lia)). cbv zeta in *.
           rewrite Hsame in Hexp by lia. exact Hexp.
      * intros j Hj. rewrite Hout by lia. apply Hsame. lia.
Qed.

Lemma expand_cols_invalid (base : nat) (w : world) (n : nat) :
  forall buf : list Z,
  (base + 3 * n <= length buf)%nat ->
  (exists i, (i < n)%nat /\ 216 <= nth (base + i) buf 0) ->
  expand_cols n (Z.of_nat base) buf w
  = Done None (World (fh w) (Some "invalid packed byte"%string)
                     (logging_fmt w)).
Proof.
  induction n as [|n IH]; intros buf Hfit (i & Hi & Hbad); [lia|].
  destruct (Z.lt_ge_cases (nth (base + n) buf 0) 216) as [Hok | Hge].
  - rewrite expand_cols_step by lia. cbv zeta.
    apply IH; [rewrite !length_insert; lia|].
    exists i. assert (i <> n) by (intros ->; lia).
    split; [lia|]. rewrite !nth_insert_ne by lia. exact Hbad.
  - cbn [expand_cols]. unfold bind at 1.
    replace (Z.of_nat base + Z.of_nat n) with (Z.of_nat (base + n)) by lia.
    rewrite load_byte by lia.
    destruct (Z.geb_spec (nth (base + n) buf 0) 216) as [_ | Hlt]; [|lia].
    reflexivity.
Qed.



(** ** BCFLAT: the code table *)

(** [codeword] neither reads nor changes the world. *)
Lemma codeword_world (reg : Z) (w : world) :
  codeword reg w
  = match codeword reg world0 with
    | Done r _ => Done r w
    | Crashed c => Crashed c
    end.
Proof.
  unfold codeword, bind, assert, ret, crashed.
  repeat match goal with
         | |- context [if ?c then _ else _] => destruct c
         end; reflexivity.
Qed.

Lemma land_top13 (reg c : Z) :
  Z.land c (Z.ones 19) = 0 -> Z.land (top13 reg) c = Z.land reg c.
Proof.
  intros Hc. unfold top13. rewrite <- Z.ldiff_ones_r by lia.
  apply Z.bits_inj'. intros n Hn.
  rewrite !Z.land_spec, Z.ldiff_spec.
  assert (Hbit : Z.testbit (Z.land c (Z.ones 19)) n = false)
    by (rewrite Hc; apply Z.bits_0).
  rewrite Z.land_spec in Hbit.
  destruct (Z.testbit reg n), (Z.testbit c n), (Z.testbit (Z.ones 19) n);
    cbn in *; congruence.
Qed.

Lemma shiftr_top13 (reg pos : Z) :
  19 <= pos -> Z.shiftr (top13 reg) pos = Z.shiftr reg pos.
Proof.
  intros Hpos. unfold top13. rewrite <- Z.ldiff_ones_r by lia.
  apply Z.bits_inj'. intros n Hn.
  rewrite !Z.shiftr_spec, Z.ldiff_spec by lia.
  rewrite Z.ones_spec_high by lia. apply andb_true_r.
Qed.

Lemma subtype_range (reg : Z) :
  0 <= Z.shiftr (Z.shiftr (Z.land reg 0x0e000000) 25) 1 <= 3.
Proof.
  rewrite Z.shiftr_land. change (Z.shiftr 0x0e000000 25) with (Z.ones 3).
  rewrite Z.land_ones by lia. rewrite Z.shiftr_div_pow2 by lia.
  pose proof (Z.mod_pos_bound (Z.shiftr reg 25) (2 ^ 3) ltac:(lia)).
  change (2 ^ 3) with 8 in *. change (2 ^ 1) with 2.
  split; [apply Z.div_pos; lia|].
  apply Z.lt_succ_r. apply Z.div_lt_upper_bound; lia.
Qed.

(** The tree looks at the top 13 bits of the register only. *)
Lemma codeword_top13 (reg : Z) (w : world) :
  codeword (top13 reg) w = codeword reg w.
Proof.
  unfold codeword. cbv zeta.
  rewrite !land_top13 by reflexivity.
  rewrite (shiftr_top13 reg 25) by lia.
  rewrite shiftr_top13 by (pose proof (subtype_range reg); lia).
  reflexivity.
Qed.

Lemma action_eqb_eq (a b : action) : action_eqb a b = true -> a = b.
Proof.
  destruct a, b; cbn; try discriminate;
    rewrite ?andb_true_iff, ?Z.eqb_eq; intuition congruence.
Qed.

(** *** Appending the samples *)

Lemma push_ok (out : list Z) (x : Z) (w : world) :
  Z.of_nat (length out) < 808 -> push out x w = Done (out ++ [x]) w.
Proof.
  intros Hroom. unfold push, EXPANSION, FLATBUF.
  destruct (Z.ltb_spec (Z.of_nat (length out)) (8 * (100 + 1)));
    [reflexivity | lia].
Qed.

Lemma push_zeros_ok (last : Z) (w : world) (n : nat) : forall out : list Z,
  Z.of_nat (length out) + Z.of_nat n <= 808 ->
  push_zeros n last out w = Done (out ++ repeat last n) w.
Proof.
  induction n as [|n IH]; intros out Hroom; cbn [push_zeros repeat].
  - now rewrite app_nil_r.
  - unfold bind. rewrite push_ok by lia.
    rewrite IH by (rewrite length_app; cbn [length]; lia).
    now rewrite <- app_assoc.
Qed.

Lemma last_cons (x d : Z) (l : list Z) :
  List.last (x :: l) d = List.last l x.
Proof.
  revert x d. induction l as [|y l IH]; intros x d; [reflexivity|].
  change (List.last (y :: l) d = List.last (y :: l) x).
  now rewrite !IH.
Qed.

Lemma push_steps_ok (diff : Z) (w : world) (n : nat) :
  forall (last : Z) (out : list Z),
  Z.of_nat (length out) + Z.of_nat n <= 808 ->
  push_steps n diff last out w
  = Done (out ++ map (fun k => (last + Z.of_nat k * diff) mod 256) (seq 1 n),
          List.last (map (fun k => (last + Z.of_nat k * diff) mod 256)
                         (seq 1 n)) last)
         w.
Proof.
  induction n as [|n IH]; intros last out Hroom; cbn [push_steps].
  - cbn. now rewrite app_nil_r.
  - unfold bind. rewrite push_ok by lia.
    rewrite IH by (rewrite length_app; cbn [length]; lia).
    assert (Hshift :
              map (fun k => (u8 (last + diff) + Z.of_nat k * diff) mod 256)
                  (seq 1 n)
              = map (fun k => (last + Z.of_nat k * diff) mod 256) (seq 2 n)).
    { rewrite <- (seq_shift n 1), map_map. apply map_ext. intros k.
      unfold u8. rewrite Z.add_mod_idemp_l by lia. f_equal. lia. }
    rewrite Hshift. cbn [seq map]. rewrite <- app_assoc. cbn [app].
    replace (last + Z.of_nat 1 * diff) with (last + diff) by lia.
    rewrite last_cons. reflexivity.
Qed.

Lemma zero_samples (last : Z) (n : nat) :
  0 <= last < 256 ->
  map (fun k => (last + Z.of_nat k * 0) mod 256) (seq 1 n) = repeat last n.
Proof.
  intros Hlast. generalize 1%nat. induction n as [|n IH]; intros s; cbn.
  - reflexivity.
  - rewrite IH. f_equal. rewrite Z.mul_0_r, Z.add_0_r. apply Z.mod_small. lia.
Qed.

Lemma last_repeat (x : Z) (n : nat) : List.last (repeat x n) x = x.
Proof.
  induction n as [|[|n] IH]; cbn in *; auto.
Qed.

(** [emit] appends the samples of the action and leaves the last of them
    in [last]. *)
Lemma emit_ok (a : action) (last : Z) (out : list Z) (w : world) :
  action_ok a -> 0 <= last < 256 ->
  Z.of_nat (length out) + action_count a <= 808 ->
  emit a last out w
  = Done (out ++ action_samples a last,
          List.last (action_samples a last) last,
          action_count a) w.
Proof.
  intros Hok Hlast Hroom. unfold action_samples.
  destruct a as [n | n d | d]; cbn [emit action_count action_diff action_ok] in *.
  - unfold bind, assert.
    destruct (Z.geb_spec n 2); [|lia]. destruct (Z.leb_spec n 8); [|lia].
    cbn [andb]. unfold ret at 1. rewrite push_zeros_ok by lia.
    rewrite zero_samples by assumption. now rewrite last_repeat.
  - unfold bind. rewrite push_steps_ok by lia. reflexivity.
  - unfold bind. rewrite push_ok by lia.
    change (Z.to_nat 1) with 1%nat. cbn [seq map List.last].
    unfold u8, ret. now replace (last + Z.of_nat 1 * d) with (last + d) by lia.
Qed.

(** *** The tree against the table *)


Lemma table_shape (e : cw_class) :
  In e code_table ->
  0 <= cw_ext e /\ 3 <= cw_len e <= 13 /\ 0 <= cw_prefix e.
Proof.
  intros He.
  assert (Hall : forallb (fun e => (0 <=? cw_ext e) && (3 <=? cw_len e)
                                   && (cw_len e <=? 13) && (0 <=? cw_prefix e))
                         code_table = true) by (vm_compute; reflexivity).
  rewrite forallb_forall in Hall. specialize (Hall e He).
  rewrite !andb_true_iff, !Z.leb_le in Hall. lia.
Qed.

Lemma table_action_ok (e : cw_class) (x : Z) :
  In e code_table -> 0 <= x < 2 ^ cw_ext e -> action_ok (cw_action e x).
Proof.
  intros He Hx. unfold code_table in He. cbn [In] in He.
  repeat (destruct He as [<- | He]; [cbn in *; lia|]). destruct He.
Qed.



(** ** C6: decoding one codeword *)



(** ** C3: the row passes of BCPROG on an image of height 2 *)

(** C3 (defect in the code): [parse_bcprog] accepts a height of 2, but the
    second pass starts at row 2 and reads its row before it tests the row
    against the height.  On a 1x2 image the byte meant for row 1 is stored at
    row index 2, that is at offset 6 of the six-byte raster.  With a height
    of 3 the same stream order 0, 2, 1 lands inside the raster. *)
Theorem prog_height_2_writes_row_2 :
  bcprog_header (open_file (bcprog_flags ++ be64 1 ++ be64 2))
  = Done (Some (1, 2)) (open_file []) /\
  prog_pass 3 (ImageInfo 1 2 0 (-1) [9; 0; 0; 0; 0; 0]) 4 2 [9; 0; 0; 0; 0; 0]
            (open_file [8])
  = Crashed (OutOfBounds "pixels") /\
  parse_image size_limit_init (open_file (bcprog_file 1 2 [] [9; 8]))
  = Crashed (OutOfBounds "pixels") /\
  parse_image size_limit_init (open_file (bcprog_file 1 3 [] [1; 2; 3]))
  = Done (Some (ImageInfo 1 3 0 (-1) [0; 0; 51; 0; 0; 153; 0; 0; 102]))
         (open_file []).
Proof. repeat split; vm_compute; reflexivity. Qed.

(** ** C4: the size of the BCRAW raster *)

(** C4 (defect in the code): [parse_bcraw] checks neither dimension.  With
    width 1431655766 and height 1 the header is accepted, the product
    [3 * width * height] is [2^32 + 2], and the [int] it is stored in, and
    so the raster that is allocated, has size 2.  The other two parsers
    reject these dimensions. *)
Theorem bcraw_num_bytes_overflows :
  bcraw_header (open_file (bcraw_flags ++ be64 1431655766 ++ be64 1))
  = Done (Some (1431655766, 1)) (open_file []) /\
  3 * 1431655766 * 1 = 2 ^ 32 + 2 /\
  image_num_bytes 1431655766 1 = 2 /\
  alloc_image (image_num_bytes 1431655766 1) world0 = Done [0; 0] world0 /\
  bcprog_header (open_file (bcprog_flags ++ be64 1431655766 ++ be64 2))
  = Done None (World [] (Some "size too large"%string) default_logging_fmt) /\
  bcflat_header size_limit_init
    (open_file (bcflat_flags ++ be64 1431655766 ++ be64 1))
  = Done None (World [] (Some "size too large compared to stack"%string)
                     default_logging_fmt).
Proof. repeat split; vm_compute; reflexivity. Qed.

(** ** C7: one call of [decode_flat] on a full buffer of long runs *)

(** C7 (defect in the code): the codeword [0011111] yields eight samples
    from seven bits, more than the factor [EXPANSION] the output buffer of
    [decode_flat] is sized for.  The 100 bytes of [row_of_runs] hold 114
    such codewords, 912 samples.  Decoded in one call, as [read_flat_data]
    does with its 100-byte refills, the 809th sample is written past the 808
    bytes of [uncomp_buf]; decoded in two chunks of 50 bytes the same bytes
    give 912 samples.  The image file [flat_913x1] makes the program do the
    former. *)
Theorem decode_flat_chunking_differs :
  length row_of_runs = 100%nat /\
  decode_chunks [row_of_runs] [] 912 (FlatState 0 0 5) world0
  = Crashed (OutOfBounds "uncomp_buf") /\
  decode_chunks [take 50 row_of_runs; drop 50 row_of_runs] [] 912
                (FlatState 0 0 5) world0
  = Done (repeat 5 912, FlatState 0 2 5) world0 /\
  parse_image size_limit_init (open_file flat_913x1)
  = Crashed (OutOfBounds "uncomp_buf").
Proof. repeat split; vm_compute; reflexivity. Qed.

(** ** C8: a truncated BCFLAT file *)

(** C8 (defect in the code): the 43 bytes of [flat_2x1] decode to a 2x1
    image.  Cut after 38 bytes, the red row ends with the first byte of its
    ten-bit codeword.  [decode_flat] cannot match it without padding bits,
    puts the byte back and returns no pixel, and the [assert(num_pixels > 0)]
    of [read_flat_data] fails: the program aborts instead of reporting a
    format problem.  Every other truncation of the file is rejected. *)
Theorem truncated_flat_aborts :
  length flat_2x1 = 43%nat /\
  parse_image size_limit_init (open_file flat_2x1)
  = Done (Some (ImageInfo 2 1 0 (-1) [240; 16; 32; 248; 16; 32]))
         (open_file []) /\
  decode_flat [0xE0] 1 (FlatState 0 0 0xF0) world0
  = Done (0, [], FlatState 0 0 0xF0) world0 /\
  parse_image size_limit_init (open_file (take 38 flat_2x1))
  = Crashed (AssertionFailed "num_pixels > 0") /\
  forallb (fun k =>
             match parse_image size_limit_init (open_file (take k flat_2x1)) with
             | Done None _ => negb (k =? 38)%nat
             | Done (Some _) _ => false
             | Crashed _ => (k =? 38)%nat
             end) (seq 0 43) = true.
Proof. repeat split; vm_compute; reflexivity. Qed.

(** ** C9: the size limit of BCFLAT *)

(** C9 (defect in the code): the limit starts at 26754, the integer square
    root of [2^31 / 3], but [main] replaces it whenever the stack limit is
    finite, and with the usual 8 MiB the replacement is 53509.  A 26755 x
    26755 image then passes the header check although [3 * 26755 * 26755]
    exceeds [2^31]: the [int] holding the product is negative and the
    allocation of the raster fails. *)
Theorem stack_limit_raises_size_limit :
  size_limit_init = Z.sqrt (2 ^ 31 / 3) /\
  main_size_limit 0 8388608 = 53509 /\
  size_limit_init < main_size_limit 0 8388608 /\
  bcflat_header (main_size_limit 0 8388608)
    (open_file (bcflat_flags ++ be64 26755 ++ be64 26755))
  = Done (Some (26755, 26755)) (open_file []) /\
  2 ^ 31 <= 3 * 26755 * 26755 /\
  image_num_bytes 26755 26755 = -2147477221 /\
  alloc_image (image_num_bytes 26755 26755) world0 = Crashed OutOfMemory.
Proof.
  split; [vm_compute; reflexivity|].
  split; [vm_compute; reflexivity|].
  split; [vm_compute; reflexivity|].
  split; [vm_compute; reflexivity|].
  split; [vm_compute; discriminate|].
  split; vm_compute; reflexivity.
Qed.

(** ** BCFLAT: what one call of [decode_flat] can do

    The register, the read position and the count of padding bits stay in
    step, so that the two bytes of padding are the only bytes read beyond
    the input, the assertions of [decode_flat] hold and its loops end.  The
    one thing that can go wrong is the write past [uncomp_buf]. *)

Lemma codeword_shapes :
  forallb codeword_shape_at (map Z.of_nat (seq 0 (Z.to_nat 8192))) = true.
Proof. vm_compute. reflexivity. Qed.

(** On every 32-bit register the tree finds a codeword: its assertions hold,
    the codeword has 3 to 13 bits and stands for 1 to 8 samples. *)
Lemma codeword_total (reg : Z) (w : world) :
  0 <= reg < 2 ^ 32 ->
  exists codelen act,
    codeword reg w = Done (codelen, act) w /\
    3 <= codelen <= 13 /\ action_ok act /\ 1 <= action_count act <= 8.
Proof.
  intros Hreg. set (h := Z.shiftr reg 19).
  assert (Hh : 0 <= h < 8192).
  { unfold h. rewrite Z.shiftr_div_pow2 by lia.
    split; [apply Z.div_pos; lia | apply Z.div_lt_upper_bound; lia]. }
  rewrite <- codeword_top13. unfold top13. fold h. rewrite codeword_world.
  pose proof codeword_shapes as Hall. rewrite forallb_forall in Hall.
  assert (Hin : In h (map Z.of_nat (seq 0 (Z.to_nat 8192)))).
  { apply in_map_iff. exists (Z.to_nat h). split; [lia|]. apply in_seq. lia. }
  specialize (Hall h Hin). unfold codeword_shape_at in Hall.
  destruct (codeword (Z.shiftl h 19) world0) as [[codelen act] w' | c];
    [|discriminate].
  rewrite !andb_true_iff, !Z.leb_le in Hall.
  destruct Hall as ((((H3 & H13) & H1) & H8) & Hz).
  exists codelen, act. split; [reflexivity|]. split; [lia|]. split; [|lia].
  destruct act as [n | n d | d]; cbn in *; lia.
Qed.

Lemma push_cases (out : list Z) (x : Z) (w : world) :
  (Z.of_nat (length out) < 808 /\ push out x w = Done (out ++ [x]) w)
  \/ (808 <= Z.of_nat (length out)
      /\ push out x w = Crashed (OutOfBounds "uncomp_buf")).
Proof.
  unfold push, EXPANSION, FLATBUF.
  destruct (Z.ltb_spec (Z.of_nat (length out)) (8 * (100 + 1)));
    [left | right]; split; trivial; lia.
Qed.

Lemma push_zeros_cases (last : Z) (w : world) (n : nat) : forall out : list Z,
  (exists out', push_zeros n last out w = Done out' w /\
                length out' = (length out + n)%nat)
  \/ (808 < Z.of_nat (length out) + Z.of_nat n
      /\ push_zeros n last out w = Crashed (OutOfBounds "uncomp_buf")).
Proof.
  induction n as [|n IH]; intros out; cbn [push_zeros].
  - left. exists out. split; [reflexivity | lia].
  - unfold bind.
    destruct (push_cases out last w) as [[Hroom ->] | [Hfull ->]].
    + destruct (IH (out ++ [last])) as [(out' & -> & Hlen) | [Hfull ->]].
      * left. exists out'. split; [reflexivity|].
        rewrite Hlen, length_app. cbn [length]. lia.
      * right. split; [|reflexivity].
        rewrite length_app in Hfull. cbn [length] in Hfull. lia.
    + right. split; [lia | reflexivity].
Qed.

Lemma push_steps_cases (diff : Z) (w : world) (n : nat) :
  forall (last : Z) (out : list Z),
  (exists out' last', push_steps n diff last out w = Done (out', last') w /\
                      length out' = (length out + n)%nat)
  \/ (808 < Z.of_nat (length out) + Z.of_nat n
      /\ push_steps n diff last out w = Crashed (OutOfBounds "uncomp_buf")).
Proof.
  induction n as [|n IH]; intros last out; cbn [push_steps].
  - left. exists out, last. split; [reflexivity | lia].
  - unfold bind.
    destruct (push_cases out (u8 (last + diff)) w) as [[Hroom ->] | [Hfull ->]].
    + destruct (IH (u8 (last + diff)) (out ++ [u8 (last + diff)]))
        as [(out' & last' & -> & Hlen) | [Hfull ->]].
      * left. exists out', last'. split; [reflexivity|].
        rewrite Hlen, length_app. cbn [length]. lia.
      * right. split; [|reflexivity].
        rewrite length_app in Hfull. cbn [length] in Hfull. lia.
    + right. split; [lia | reflexivity].
Qed.

(** [emit] appends as many samples as the action counts, or writes past
    [uncomp_buf]. *)
Lemma emit_cases (a : action) (last : Z) (out : list Z) (w : world) :
  action_ok a -> 1 <= action_count a <= 8 ->
  (exists out' last',
      emit a last out w = Done (out', last', action_count a) w /\
      Z.of_nat (length out') = Z.of_nat (length out) + action_count a)
  \/ (808 < Z.of_nat (length out) + action_count a
      /\ emit a last out w = Crashed (OutOfBounds "uncomp_buf")).
Proof.
  intros Hok Hcount.
  destruct a as [n | n d | d]; cbn [emit action_count action_ok] in *.
  - unfold bind, assert.
    destruct (Z.geb_spec n 2); [|lia]. destruct (Z.leb_spec n 8); [|lia].
    cbn [andb]. unfold ret. cbv beta iota.
    destruct (push_zeros_cases last w (Z.to_nat n) out)
      as [(out' & -> & Hlen) | [Hfull ->]].
    + left. exists out', last. split; [reflexivity | lia].
    + right. split; [lia | reflexivity].
  - unfold bind.
    destruct (push_steps_cases d w (Z.to_nat n) last out)
      as [(out' & last' & -> & Hlen) | [Hfull ->]].
    + left. exists out', last'. split; [reflexivity | lia].
    + right. split; [lia | reflexivity].
  - unfold bind.
    destruct (push_cases out (u8 (last + d)) w) as [[Hroom ->] | [Hfull ->]].
    + left. exists (out ++ [u8 (last + d)]), (u8 (last + d)).
      split; [reflexivity|]. rewrite length_app. cbn [length]. lia.
    + right. split; [lia | reflexivity].
Qed.

Lemma u32_range (x : Z) : 0 <= u32 x < 2 ^ 32.
Proof. unfold u32. apply Z.mod_pos_bound. lia. Qed.

Lemma lor_range (a b : Z) :
  0 <= a < 2 ^ 32 -> 0 <= b < 2 ^ 32 -> 0 <= Z.lor a b < 2 ^ 32.
Proof.
  intros Ha Hb. assert (H0 : 0 <= Z.lor a b) by (apply Z.lor_nonneg; lia).
  split; [exact H0|].
  destruct (Z.eq_dec (Z.lor a b) 0) as [-> | Hne]; [lia|].
  apply Z.log2_lt_pow2; [lia|]. rewrite Z.log2_lor by lia.
  destruct (Z.eq_dec a 0) as [-> | Ha0]; destruct (Z.eq_dec b 0) as [-> | Hb0].
  - cbn. lia.
  - assert (Z.log2 b < 32) by (apply Z.log2_lt_pow2; lia). cbn [Z.log2]. lia.
  - assert (Z.log2 a < 32) by (apply Z.log2_lt_pow2; lia). cbn [Z.log2]. lia.
  - assert (Z.log2 a < 32) by (apply Z.log2_lt_pow2; lia).
    assert (Z.log2 b < 32) by (apply Z.log2_lt_pow2; lia). lia.
Qed.

Lemma land_range (a b : Z) :
  0 <= a < 2 ^ 32 -> 0 <= b -> 0 <= Z.land a b < 2 ^ 32.
Proof.
  intros Ha Hb. assert (H0 : 0 <= Z.land a b) by (apply Z.land_nonneg; lia).
  split; [exact H0|].
  destruct (Z.eq_dec (Z.land a b) 0) as [-> | Hne]; [lia|].
  apply Z.log2_lt_pow2; [lia|].
  pose proof (Z.log2_land a b ltac:(lia) Hb) as Hl.
  destruct (Z.eq_dec a 0) as [-> | Ha0]; [rewrite Z.land_0_l in Hne; lia|].
  assert (Z.log2 a < 32) by (apply Z.log2_lt_pow2; lia). lia.
Qed.

Lemma fill_register_done (fuel : nat) (comp_buf : list Z)
  (comp_size reg reg_size p padding_bits : Z) (w : world) :
  13 <= reg_size ->
  fill_register fuel comp_buf comp_size reg reg_size p padding_bits w
  = Done (reg, reg_size, p, padding_bits) w.
Proof.
  intros H. destruct fuel; cbn [fill_register];
    destruct (Z.ltb_spec reg_size 13); try lia; reflexivity.
Qed.

Lemma fill_register_step (fuel : nat) (comp : list Z)
  (reg reg_size p padding_bits : Z) (w : world) :
  reg_size < 13 -> 0 <= p < Z.of_nat (length comp) + 2 ->
  fill_register (S fuel) (comp ++ [0; 0]) (Z.of_nat (length comp))
                reg reg_size p padding_bits w
  = fill_register fuel (comp ++ [0; 0]) (Z.of_nat (length comp))
      (Z.lor reg (u32 (Z.shiftl (nth (Z.to_nat p) (comp ++ [0; 0]) 0)
                                (32 - 8 - reg_size))))
      (reg_size + 8) (p + 1)
      (if p >=? Z.of_nat (length comp) then padding_bits + 8
       else padding_bits) w.
Proof.
  intros Hsize Hp. cbn [fill_register].
  destruct (Z.ltb_spec reg_size 13); [|lia].
  unfold bind, load. rewrite length_app. cbn [length].
  destruct (Z.leb_spec 0 p); [|lia].
  destruct (Z.ltb_spec p (Z.of_nat (length comp + 2))); [|lia].
  reflexivity.
Qed.

Lemma register_in_step_fill (comp_size reg reg_size p padding_bits b : Z) :
  register_in_step comp_size reg reg_size p padding_bits ->
  reg_size < 13 -> p < comp_size + 2 ->
  register_in_step comp_size (Z.lor reg (u32 b)) (reg_size + 8) (p + 1)
    (if p >=? comp_size then padding_bits + 8 else padding_bits).
Proof.
  intros (Hreg & Hpad & Hread & Hmax & Hp & Hpadding) Hsize Hend.
  split; [apply lor_range; [exact Hreg | apply u32_range]|].
  destruct (Z.geb_spec p comp_size); repeat split; lia.
Qed.

(** The inner loop never reads beyond the two bytes of padding, and leaves
    at least 13 bits in the register. *)
Lemma fill_register_in_step (comp : list Z)
  (reg reg_size p padding_bits : Z) (w : world) :
  register_in_step (Z.of_nat (length comp)) reg reg_size p padding_bits ->
  p < Z.of_nat (length comp) + 2 ->
  exists reg' reg_size' p' padding_bits',
    fill_register 2 (comp ++ [0; 0]) (Z.of_nat (length comp))
                  reg reg_size p padding_bits w
    = Done (reg', reg_size', p', padding_bits') w /\
    register_in_step (Z.of_nat (length comp)) reg' reg_size' p' padding_bits' /\
    13 <= reg_size' /\ reg_size' - 8 * p' = reg_size - 8 * p.
Proof.
  intros Hin Hend.
  destruct (Z.lt_ge_cases reg_size 13) as [Hsize | Hsize].
  - pose proof Hin as (Hreg & Hpad & Hread & Hmax & Hp & Hpadding).
    rewrite fill_register_step by lia.
    eapply register_in_step_fill in Hin; [|exact Hsize | exact Hend].
    destruct (Z.lt_ge_cases (reg_size + 8) 13) as [Hsize' | Hsize'].
    + assert (Hend' : p + 1 < Z.of_nat (length comp) + 2) by lia.
      rewrite fill_register_step by lia.
      eapply register_in_step_fill in Hin; [|exact Hsize' | exact Hend'].
      rewrite fill_register_done by lia.
      do 4 eexists. split; [reflexivity|]. split; [exact Hin|]. lia.
    + rewrite fill_register_done by lia.
      do 4 eexists. split; [reflexivity|]. split; [exact Hin|]. lia.
  - rewrite fill_register_done by lia.
    do 4 eexists. split; [reflexivity|]. split; [exact Hin|]. lia.
Qed.

(** The main loop ends with the register still in step, or writes past
    [uncomp_buf]; the latter needs more than 800 samples wanted. *)
Lemma decode_loop_safe (comp : list Z) (max_pixels : Z) (w : world)
  (fuel : nat) :
  forall (reg reg_size last p : Z) (out : list Z) (padding_bits : Z),
  register_in_step (Z.of_nat (length comp)) reg reg_size p padding_bits ->
  Z.of_nat (length out) <= max_pixels + 7 ->
  reg_size + 8 * (Z.of_nat (length comp) + 2 - p) < Z.of_nat fuel ->
  (exists reg' reg_size' last' p' out',
      decode_loop fuel (comp ++ [0; 0]) (Z.of_nat (length comp)) max_pixels
                  reg reg_size last p out (Z.of_nat (length out))
                  padding_bits w
      = Done (reg', reg_size', last', p', out', Z.of_nat (length out')) w /\
      0 <= reg' < 2 ^ 32 /\ 0 <= reg_size' <= 8 * p' + 7 /\ reg_size' <= 20 /\
      p' <= Z.of_nat (length comp) + 2 /\
      Z.of_nat (length out') <= max_pixels + 7)
  \/ (800 < max_pixels /\
      decode_loop fuel (comp ++ [0; 0]) (Z.of_nat (length comp)) max_pixels
                  reg reg_size last p out (Z.of_nat (length out))
                  padding_bits w
      = Crashed (OutOfBounds "uncomp_buf")).
Proof.
  induction fuel as [|fuel IH]; intros reg reg_size last p out padding_bits
    Hin Hout Hfuel;
    pose proof Hin as (Hreg & Hpad & Hread & Hmax & Hp & Hpadding).
  - lia.
  - remember (decode_loop (S fuel) (comp ++ [0; 0]) (Z.of_nat (length comp))
                max_pixels reg reg_size last p out (Z.of_nat (length out))
                padding_bits w) as r eqn:Hr.
    cbn [decode_loop] in Hr.
    destruct ((Z.of_nat (length out) <? max_pixels)
              && (p <? Z.of_nat (length comp) + 2)) eqn:Hgo.
    + apply andb_true_iff in Hgo. destruct Hgo as [Hnum Hend].
      apply Z.ltb_lt in Hnum. apply Z.ltb_lt in Hend.
      unfold bind at 1 in Hr. unfold assert in Hr.
      destruct (Z.geb_spec (Z.of_nat (length out)) 0); [|lia].
      unfold ret at 1 in Hr. cbv beta iota in Hr. unfold bind at 1 in Hr.
      destruct (fill_register_in_step comp reg reg_size p padding_bits w
                  Hin Hend)
        as (reg1 & size1 & p1 & pad1 & Hfill & Hin1 & Hsize1 & Hsame).
      rewrite Hfill in Hr. clear Hfill.
      pose proof Hin1 as (Hreg1 & Hpad1 & Hread1 & Hmax1 & Hp1 & Hpadding1).
      cbv beta iota in Hr. unfold bind at 1 in Hr.
      destruct (codeword_total reg1 w Hreg1)
        as (codelen & act & Hcode & Hlen & Hok & Hcount).
      rewrite Hcode in Hr. clear Hcode. cbv beta iota in Hr.
      assert (Hu : u32 (size1 - pad1) = size1 - pad1).
      { unfold u32. apply Z.mod_small. lia. }
      rewrite Hu in Hr.
      destruct (Z.gtb_spec codelen (size1 - pad1)) as [Hbreak | Hmatch].
      * left. exists reg1, size1, last, p1, out.
        split; [exact Hr|]. repeat split; lia.
      * unfold bind at 1 in Hr.
        destruct (emit_cases act last out w Hok Hcount)
          as [(out' & last' & Hemit & Hlen') | [Hfull Hemit]];
          rewrite Hemit in Hr; clear Hemit.
        -- cbv beta iota in Hr. rewrite <- Hlen' in Hr. rewrite Hr.
           apply IH.
           ++ split; [apply u32_range|]. repeat split; lia.
           ++ lia.
           ++ lia.
        -- right. split; [lia | exact Hr].
    + left. exists reg, reg_size, last, p, out.
      split; [exact Hr|]. repeat split; lia.
Qed.

(** The whole bytes left in the register go back to the input. *)
Lemma unget_whole_bytes (w : world) (fuel : nat) : forall reg reg_size p : Z,
  0 <= reg < 2 ^ 32 -> 0 <= reg_size < 8 * Z.of_nat fuel + 8 ->
  exists reg' reg_size' p',
    unget fuel reg reg_size p w = Done (reg', reg_size', p') w /\
    0 <= reg' < 2 ^ 32 /\
    reg_size' = reg_size mod 8 /\ p' = p - reg_size / 8.
Proof.
  induction fuel as [|fuel IH]; intros reg reg_size p Hreg Hsize.
  - cbn [unget]. destruct (Z.geb_spec reg_size 8); [lia|].
    exists reg, reg_size, p. split; [reflexivity|]. split; [exact Hreg|].
    rewrite Z.mod_small, Z.div_small by lia. lia.
  - cbn [unget]. destruct (Z.geb_spec reg_size 8).
    + destruct (IH (Z.land reg (u32 (Z.lnot (Z.shiftl 255 (32 - reg_size)))))
                   (reg_size - 8) (p - 1))
        as (reg' & reg_size' & p' & -> & Hreg' & -> & ->).
      * apply land_range; [exact Hreg | apply u32_range].
      * lia.
      * exists reg', ((reg_size - 8) mod 8), (p - 1 - (reg_size - 8) / 8).
        split; [reflexivity|]. split; [exact Hreg'|].
        split; Z.div_mod_to_equations; lia.
    + exists reg, reg_size, p. split; [reflexivity|]. split; [exact Hreg|].
      rewrite Z.mod_small, Z.div_small by lia. lia.
Qed.

(** One call of [decode_flat] on at most [FLATBUF] bytes either returns,
    having consumed no more than it was given and decoded at most
    [max_pixels + 7] samples, with a register of fewer than 8 bits left in
    the state, or it writes past [uncomp_buf]; the latter only when more
    than 800 samples are wanted.  No assertion fails, no byte beyond the
    padding is read and the loops end. *)
Lemma decode_flat_safe (comp : list Z) (max_pixels : Z)
  (state : flat_decode_state) (w : world) :
  Z.of_nat (length comp) <= FLATBUF -> 0 <= max_pixels ->
  0 <= reg state < 2 ^ 32 -> 0 <= reg_size state < 8 ->
  (exists used out state',
      decode_flat comp max_pixels state w = Done (used, out, state') w /\
      0 <= used <= Z.of_nat (length comp) /\
      Z.of_nat (length out) <= max_pixels + 7 /\
      0 <= reg state' < 2 ^ 32 /\ 0 <= reg_size state' < 8)
  \/ (800 < max_pixels /\
      decode_flat comp max_pixels state w
      = Crashed (OutOfBounds "uncomp_buf")).
Proof.
  intros Hcomp Hmax Hreg Hsize.
  remember (decode_flat comp max_pixels state w) as r eqn:Hr.
  unfold decode_flat in Hr. unfold bind at 1 in Hr. unfold assert in Hr.
  destruct (Z.leb_spec (Z.of_nat (length comp)) FLATBUF); [|lia].
  unfold ret at 1 in Hr. cbv beta iota in Hr. unfold bind at 1 in Hr.
  assert (Hu : u32 (reg_size state) = reg_size state).
  { unfold u32. apply Z.mod_small. lia. }
  rewrite Hu in Hr.
  destruct (decode_loop_safe comp max_pixels w
              (S (Z.to_nat (reg_size state + 8 * (Z.of_nat (length comp) + 2))))
              (reg state) (reg_size state) (last state) 0 [] 0)
    as [(reg1 & size1 & last1 & p1 & out1 & Hloop & Hreg1 & Hsize1 & Hmax1
         & Hp1 & Hout1) | [Hfull Hloop]].
  - repeat split; lia.
  - cbn [length]. lia.
  - lia.
  - change (Z.of_nat (length [])) with 0 in Hloop. rewrite Hloop in Hr.
    clear Hloop.
    cbv beta iota in Hr. unfold bind at 1 in Hr.
    destruct (unget_whole_bytes w (Z.to_nat size1) reg1 size1 p1 Hreg1)
      as (reg2 & size2 & p2 & Hunget & Hreg2 & Hsize2 & Hp2); [lia|].
    rewrite Hunget in Hr. clear Hunget. cbv beta iota in Hr.
    rewrite Z.eqb_refl in Hr. unfold EXPANSION in Hr.
    destruct (Z.leb_spec (Z.of_nat (length out1)) (max_pixels + 8)); [|lia].
    unfold bind, ret in Hr.
    left. do 3 eexists. split; [exact Hr|]. cbn [reg reg_size].
    assert (0 <= size1 mod 8 < 8) by (apply Z.mod_pos_bound; lia).
    assert (0 <= size1 / 8) by (apply Z.div_pos; lia).
    assert (size1 / 8 <= p1).
    { apply Z.lt_succ_r. apply Z.div_lt_upper_bound; lia. }
    repeat split; lia.
  - change (Z.of_nat (length [])) with 0 in Hloop. rewrite Hloop in Hr.
    right. split; [exact Hfull | exact Hr].
Qed.

(** * Further properties of the decoders *)

(** ** [read_u64_bigendian] *)

(** X1.  Eight bytes are read as the number they denote, most significant
    byte first; exactly these eight bytes are consumed and no global is
    touched.  The number is below [2^64]. *)
Theorem read_u64_bigendian_value (bytes rest : list Z)
  (fp : option string) (lf : list Z) :
  length bytes = 8%nat -> Forall is_byte bytes ->
  read_u64_bigendian (World (bytes ++ rest) fp lf)
  = Done (be_value bytes) (World rest fp lf)
  /\ 0 <= be_value bytes < 2 ^ 64.
Proof.
  intros Hlen Hbytes. split.
  - unfold read_u64_bigendian, bind.
    rewrite fread_exact by (rewrite ?Hlen; lia).
    cbn [negb Z.eqb Pos.eqb ret].
    rewrite be_loop_value by (trivial; lia).
    rewrite <- Hlen, firstn_all. f_equal. lia.
  - pose proof (be_value_bound bytes Hbytes) as H. rewrite Hlen in H.
    change (256 ^ Z.of_nat 8) with (2 ^ 64) in H. exact H.
Qed.

Lemma read_u64_bigendian_value_witness :
  read_u64_bigendian (World ([0; 0; 0; 0; 0; 0; 1; 2] ++ [9]) None [])
  = Done (be_value [0; 0; 0; 0; 0; 0; 1; 2]) (World [9] None [])
  /\ 0 <= be_value [0; 0; 0; 0; 0; 0; 1; 2] < 2 ^ 64.
Proof.
  apply read_u64_bigendian_value; [reflexivity|].
  repeat constructor; unfold is_byte; lia.
Defined.

Lemma read_u64_short (s : list Z) (fp : option string) (lf : list Z) :
  (length s < 8)%nat ->
  read_u64_bigendian (World s fp lf)
  = Done U64_MINUS_1 (World [] (Some "short read of u64"%string) lf).
Proof.
  intros Hlen. unfold read_u64_bigendian, bind, fread.
  cbn [fh format_problem logging_fmt].
  change (Z.to_nat (8 * 1)) with 8%nat.
  rewrite take_ge, drop_ge by lia.
  rewrite Z.div_small by lia. reflexivity.
Qed.

Lemma read_u64_long (s : list Z) (fp : option string) (lf : list Z) :
  (8 <= length s)%nat ->
  read_u64_bigendian (World s fp lf)
  = Done (be_loop 8 (take 8 s) 0 0) (World (drop 8 s) fp lf).
Proof.
  intros Hlen. rewrite <- (take_drop 8 s) at 1.
  unfold read_u64_bigendian, bind.
  rewrite fread_exact by (rewrite ?length_take; lia). reflexivity.
Qed.

(** Whatever is left of the stream, the function returns and the stream
    advances by eight bytes (or to its end). *)
Lemma read_u64_any (s : list Z) (fp : option string) (lf : list Z) :
  exists v fp',
    read_u64_bigendian (World s fp lf) = Done v (World (drop 8 s) fp' lf).
Proof.
  destruct (Nat.lt_ge_cases (length s) 8) as [Hlen | Hlen].
  - rewrite read_u64_short by exact Hlen. rewrite drop_ge by lia. eauto.
  - rewrite read_u64_long by exact Hlen. eauto.
Qed.

(** X2.  With fewer than eight bytes left the function returns
    [(uint64_t)-1] and records "short read of u64"; the bytes that were left
    are consumed. *)
Theorem read_u64_bigendian_short (s : list Z)
  (fp : option string) (lf : list Z) :
  (length s < 8)%nat ->
  read_u64_bigendian (World s fp lf)
  = Done (2 ^ 64 - 1) (World [] (Some "short read of u64"%string) lf).
Proof. apply read_u64_short. Qed.

Lemma read_u64_bigendian_short_witness :
  read_u64_bigendian (World [1; 2; 3] None [])
  = Done (2 ^ 64 - 1) (World [] (Some "short read of u64"%string) []).
Proof. apply read_u64_bigendian_short. cbn. lia. Defined.

(** ** [process_tagged_data] on any stream *)

Local Ltac tags_done :=
  split; [reflexivity|]; repeat split; trivial;
  cbn [fh app]; rewrite ?app_nil_r; trivial.

Lemma tagged_data_loop_returns (fuel : nat) :
  forall (info : image_info) (s : list Z) (fp : option string) (lf : list Z),
  (length s < 12 * fuel)%nat ->
  exists ok info' w' pre,
    tagged_data_loop fuel info (World s fp lf) = Done (ok, info') w' /\
    width info' = width info /\ height info' = height info /\
    cleanup info' = cleanup info /\ pixels info' = pixels info /\
    s = pre ++ (if ok then DATA else []) ++ fh w'.
Proof.
  induction fuel as [|fuel IH]; intros info s fp lf Hlen; [lia|].
  cbn [tagged_data_loop]. unfold bind at 1, fread at 1.
  cbn [fh format_problem logging_fmt]. change (Z.to_nat (4 * 1)) with 4%nat.
  destruct (Nat.lt_ge_cases (length s) 4) as [Hs | Hs].
  { rewrite take_ge, drop_ge by lia. rewrite Z.div_small by lia.
    exists false, info, (World [] (Some "short read of tag"%string) lf), s.
    tags_done. }
  rewrite length_take, Nat.min_l by lia. cbn [negb Z.eqb Z.div Z.of_nat].
  change (Z.of_nat 4 / 4 =? 1) with true. cbn [negb].
  destruct (bytes_eqb (take 4 s) DATA) eqn:Hdata.
  { apply bytes_eqb_eq in Hdata.
    exists true, info, (World (drop 4 s) fp lf), [].
    split; [reflexivity|]. repeat split; trivial.
    cbn [fh app]. rewrite <- Hdata, take_drop. reflexivity. }
  unfold bind at 1.
  destruct (Nat.lt_ge_cases (length (drop 4 s)) 8) as [Hsz | Hsz].
  { rewrite read_u64_short by exact Hsz. rewrite Z.eqb_refl.
    exists false, info, (World [] (Some "short read of u64"%string) lf), s.
    tags_done. }
  rewrite read_u64_long by exact Hsz.
  set (size := be_loop 8 (take 8 (drop 4 s)) 0 0).
  set (s2 := drop 8 (drop 4 s)).
  assert (Hs2 : s = take 12 s ++ s2).
  { unfold s2. rewrite drop_drop. change (4 + 8)%nat with 12%nat.
    now rewrite take_drop. }
  assert (Hlen2 : (length s2 + 12 <= length s)%nat).
  { unfold s2. rewrite !length_drop. rewrite length_drop in Hsz. lia. }
  destruct (size =? U64_MINUS_1).
  { exists false, info, (World s2 fp lf), (take 12 s). tags_done. }
  destruct (size >? 2 ^ 40).
  { exists false, info, (World s2 (Some "tag too large"%string) lf), (take 12 s).
    tags_done. }
  destruct (bytes_eqb (take 4 s) TIME).
  { destruct (negb (size =? 8)).
    { exists false, info,
        (World s2 (Some "wrong size for TIME"%string) lf), (take 12 s).
      tags_done. }
    unfold bind at 1.
    destruct (read_u64_any s2 fp lf) as (t & fp' & ->).
    destruct (IH (set_create_time info (to_long t)) (drop 8 s2) fp' lf)
      as (ok & info' & w' & pre & -> & Hw & Hh & Hc & Hp & Hpre).
    { rewrite length_drop. lia. }
    exists ok, info', w', (take 12 s ++ take 8 s2 ++ pre).
    split; [reflexivity|]. repeat split; trivial.
    rewrite <- !app_assoc, <- Hpre, take_drop. exact Hs2. }
  destruct (bytes_eqb (take 4 s) FRMT).
  { unfold bind at 1, fread at 1. cbn [fh format_problem logging_fmt].
    set (n := Z.to_nat (1 * size)).
    destruct (negb (Z.of_nat (length (take n s2)) / 1 =? size)).
    { exists false, info,
        (World (drop n s2) (Some "short read of format"%string) lf),
        (take 12 s ++ take n s2).
      split; [reflexivity|]. repeat split; trivial.
      cbn [fh app]. rewrite <- app_assoc, take_drop. exact Hs2. }
    unfold bind at 1. cbn [set_logging_fmt fh format_problem logging_fmt].
    destruct (IH info (drop n s2) fp (take n s2 ++ [0]))
      as (ok & info' & w' & pre & -> & Hw & Hh & Hc & Hp & Hpre).
    { rewrite length_drop. lia. }
    exists ok, info', w', (take 12 s ++ take n s2 ++ pre).
    split; [reflexivity|]. repeat split; trivial.
    rewrite <- !app_assoc, <- Hpre, take_drop. exact Hs2. }
  exists false, info, (World s2 (Some "unrecognized tag"%string) lf), (take 12 s).
  tags_done.
Qed.

(** X3.  On every stream the function returns: it neither aborts nor loops
    (the buffer for a [FRMT] payload is taken to be allocated).  Of [*info]
    only the creation time can change.  It reads forward only, and when it
    returns 1 what it read ends with the identifier [DATA]. *)
Theorem process_tagged_data_returns (info : image_info) (w : world) :
  exists ok info' w' pre,
    process_tagged_data info w = Done (ok, info') w' /\
    width info' = width info /\ height info' = height info /\
    cleanup info' = cleanup info /\ pixels info' = pixels info /\
    fh w = pre ++ (if ok then DATA else []) ++ fh w'.
Proof.
  destruct w as [s fp lf]. unfold process_tagged_data. cbn [fh].
  apply tagged_data_loop_returns. lia.
Qed.


(** ** [process_tagged_data] on a section of tags *)

Lemma tags_create_time_last (tags : list tag) (t0 : Z) :
  tags_create_time tags t0
  = match last_time tags with Some t => to_long t | None => t0 end.
Proof.
  unfold tags_create_time, last_time.
  induction tags as [|x tags IH] using rev_ind; [reflexivity|].
  rewrite !fold_left_app. cbn [fold_left]. destruct x; [reflexivity | exact IH].
Qed.

Lemma tags_logging_fmt_last_frmt (tags : list tag) (lf : list Z) :
  tags_logging_fmt tags lf
  = match last_frmt tags with Some p => p ++ [0] | None => lf end.
Proof.
  unfold tags_logging_fmt, last_frmt.
  induction tags as [|x tags IH] using rev_ind; [reflexivity|].
  rewrite !fold_left_app. cbn [fold_left]. destruct x; [exact IH | reflexivity].
Qed.

(** X4.  A section of well-formed tags is read up to and including its
    [DATA] and the function returns 1.  The creation time is that of the
    last [TIME] tag, converted to [time_t], and stays as it was without one;
    the logging format is the payload of the last [FRMT] tag with a 0 byte
    added, and stays as it was without one.  [format_problem] is not
    touched and the rest of the stream is left unread. *)
Theorem process_tagged_data_section (tags : list tag) (info : image_info)
  (rest : list Z) (fp : option string) (lf : list Z) :
  Forall tag_ok tags ->
  process_tagged_data info (World (encode_tags tags ++ DATA ++ rest) fp lf)
  = Done (true,
          ImageInfo (width info) (height info) (cleanup info)
            match last_time tags with
            | Some t => to_long t
            | None => create_time info
            end
            (pixels info))
         (World rest fp
            match last_frmt tags with
            | Some payload => payload ++ [0]
            | None => lf
            end).
Proof.
  intros Hok. rewrite process_tagged_data_tags by exact Hok.
  rewrite tags_create_time_last, tags_logging_fmt_last_frmt. reflexivity.
Qed.

Lemma process_tagged_data_section_witness :
  process_tagged_data info0
    (World (encode_tags [TagTime 7; TagFrmt [65]; TagTime (2 ^ 64 - 2)]
            ++ DATA ++ [1; 2]) None [])
  = Done (true, ImageInfo 1 1 0 (-2) []) (World [1; 2] None [65; 0]).
Proof.
  apply (process_tagged_data_section
           [TagTime 7; TagFrmt [65]; TagTime (2 ^ 64 - 2)] info0 [1; 2] None []).
  repeat constructor; cbn; lia.
Defined.

(** *** A section of tags cut short *)



Lemma encode_tag_length (t : tag) : (12 <= length (encode_tag t))%nat.
Proof.
  destruct t; cbn [encode_tag]; rewrite !length_app, !be64_length;
    cbn [length TIME FRMT]; lia.
Qed.




(** ** [trailer_location] *)

(** X6.  For a block of [pixel_bytes + TRAILER_ALIGNMENT +
    sizeof(struct image_info)] bytes at [base] that lies within the address
    space, the trailer is aligned to 8 bytes, starts 0 to 7 bytes after the
    pixels and ends within the block. *)
Theorem trailer_location_fits (base pixel_bytes : Z) :
  0 <= base -> 0 <= pixel_bytes ->
  base + (pixel_bytes + TRAILER_ALIGNMENT + sizeof_image_info) <= 2 ^ 64 ->
  trailer_location base pixel_bytes mod TRAILER_ALIGNMENT = 0 /\
  base + pixel_bytes <= trailer_location base pixel_bytes
                     <= base + pixel_bytes + 7 /\
  trailer_location base pixel_bytes + sizeof_image_info
  <= base + (pixel_bytes + TRAILER_ALIGNMENT + sizeof_image_info).
Proof.
  unfold trailer_location, TRAILER_ALIGNMENT, sizeof_image_info, u64.
  intros Hbase Hpix Hend.
  rewrite (Z.mod_small (base + pixel_bytes)) by lia.
  assert (H7 : 0 <= (8 - (base + pixel_bytes) mod 8) mod 8 < 8)
    by (apply Z.mod_pos_bound; lia).
  rewrite (Z.mod_small (_ + _) (2 ^ 64)) by lia.
  split; [|lia]. clear H7. Z.div_mod_to_equations. lia.
Qed.

Lemma trailer_location_fits_witness :
  trailer_location 4096 13 mod TRAILER_ALIGNMENT = 0 /\
  4096 + 13 <= trailer_location 4096 13 <= 4096 + 13 + 7 /\
  trailer_location 4096 13 + sizeof_image_info
  <= 4096 + (13 + TRAILER_ALIGNMENT + sizeof_image_info).
Proof. apply trailer_location_fits; vm_compute; discriminate. Defined.

(** ** The dimension checks of [parse_bcprog] and [parse_bcflat] *)

Local Ltac reject_branch H :=
  match type of H with
  | (if ?b then _ else _) = _ => destruct b eqn:?; [discriminate|]
  | (if ?b then _ else _) _ = _ =>
    destruct b eqn:?; [discriminate|]; cbv beta in H
  end.

(** X7.  Whatever the stream holds, dimensions that pass the checks of
    [parse_bcprog] lie within 1..800 by 2..600: the size of the raster is
    computed without overflow and is allocated. *)
Theorem bcprog_header_bounds (w w' : world) (wd ht : Z) :
  bcprog_header w = Done (Some (wd, ht)) w' ->
  1 <= wd <= 800 /\ 2 <= ht <= 600 /\
  image_num_bytes wd ht = 3 * wd * ht /\
  alloc_image (image_num_bytes wd ht) w'
  = Done (repeat 0 (Z.to_nat (3 * wd * ht))) w'.
Proof.
  destruct w as [s fp lf]. intros H.
  unfold bcprog_header, bind, ret, set_format_problem, fread in H.
  cbn [fh format_problem logging_fmt] in H. cbv beta iota in H.
  do 4 reject_branch H.
  destruct (read_u64_any (drop (Z.to_nat (8 * 1)) s) fp lf) as (v1 & fp1 & Hv1).
  cbn [fh format_problem logging_fmt] in H.
  rewrite Hv1 in H. cbv beta iota zeta in H. reject_branch H.
  destruct (read_u64_any (drop 8 (drop (Z.to_nat (8 * 1)) s)) fp1 lf)
    as (v2 & fp2 & Hv2).
  rewrite Hv2 in H. cbv beta iota zeta in H. do 3 reject_branch H.
  injection H as <- <- <-.
  repeat match goal with
         | E : (_ || _) = false |- _ => apply orb_false_elim in E; destruct E
         | E : (_ <? _) = false |- _ => apply Z.ltb_ge in E
         | E : (_ >? _) = false |- _ => rewrite Z.gtb_ltb in E
         end.
  assert (Hb : 0 <= 3 * to_long v1 * to_long v2 <= 1440000) by nia.
  rewrite image_num_bytes_exact by lia.
  rewrite alloc_image_ok by lia. repeat split; lia.
Qed.

Lemma bcprog_header_bounds_witness :
  1 <= 3 <= 800 /\ 2 <= 2 <= 600 /\
  image_num_bytes 3 2 = 3 * 3 * 2 /\
  alloc_image (image_num_bytes 3 2) (open_file [7])
  = Done (repeat 0 (Z.to_nat (3 * 3 * 2))) (open_file [7]).
Proof.
  apply (bcprog_header_bounds
           (open_file (bcprog_flags ++ be64 3 ++ be64 2 ++ [7]))).
  vm_compute. reflexivity.
Defined.

(** X8.  With a size limit no larger than the 26754 the program starts
    with, dimensions that pass the checks of [parse_bcflat] lie within
    1..[size_limit]: [3 * width * height] is below [2^31], the size of the
    raster is computed without overflow and is allocated. *)
Theorem bcflat_header_bounds (size_limit : Z) (w w' : world) (wd ht : Z) :
  size_limit <= size_limit_init ->
  bcflat_header size_limit w = Done (Some (wd, ht)) w' ->
  1 <= wd <= size_limit /\ 1 <= ht <= size_limit /\
  3 * wd * ht < 2 ^ 31 /\
  image_num_bytes wd ht = 3 * wd * ht /\
  alloc_image (image_num_bytes wd ht) w'
  = Done (repeat 0 (Z.to_nat (3 * wd * ht))) w'.
Proof.
  destruct w as [s fp lf]. unfold size_limit_init. intros Hlimit H.
  unfold bcflat_header, bind, ret, set_format_problem, fread in H.
  cbn [fh format_problem logging_fmt] in H. cbv beta iota in H.
  do 4 reject_branch H.
  destruct (read_u64_any (drop (Z.to_nat (8 * 1)) s) fp lf) as (v1 & fp1 & Hv1).
  cbn [fh format_problem logging_fmt] in H.
  rewrite Hv1 in H. cbv beta iota zeta in H. reject_branch H.
  destruct (read_u64_any (drop 8 (drop (Z.to_nat (8 * 1)) s)) fp1 lf)
    as (v2 & fp2 & Hv2).
  rewrite Hv2 in H. cbv beta iota zeta in H. do 3 reject_branch H.
  injection H as <- <- <-.
  repeat match goal with
         | E : (_ || _) = false |- _ => apply orb_false_elim in E; destruct E
         | E : (_ <? _) = false |- _ => apply Z.ltb_ge in E
         | E : (_ >? _) = false |- _ => rewrite Z.gtb_ltb in E
         end.
  assert (Hb : 0 <= 3 * to_long v1 * to_long v2 <= 3 * 26754 * 26754) by nia.
  rewrite image_num_bytes_exact by lia.
  rewrite alloc_image_ok by lia. repeat split; lia.
Qed.

Lemma bcflat_header_bounds_witness :
  1 <= 3 <= size_limit_init /\ 1 <= 1 <= size_limit_init /\
  3 * 3 * 1 < 2 ^ 31 /\
  image_num_bytes 3 1 = 3 * 3 * 1 /\
  alloc_image (image_num_bytes 3 1) (open_file [7])
  = Done (repeat 0 (Z.to_nat (3 * 3 * 1))) (open_file [7]).
Proof.
  apply (bcflat_header_bounds size_limit_init
           (open_file (bcflat_flags ++ be64 3 ++ be64 1 ++ [7]))).
  - vm_compute. discriminate.
  - vm_compute. reflexivity.
Defined.

(** ** The size limit [main] sets *)

(** X9.  When [getrlimit] fails or reports no limit, [size_limit] keeps the
    value 26754.  When it reports a stack limit (here below [2^43] bytes,
    where the square root is exact), the new [size_limit] is at most 26754
    exactly when the stack limit is at most 2097158 bytes: any larger stack
    limit raises it. *)
Theorem main_size_limit_threshold (res rlim_cur : Z) :
  0 <= rlim_cur < 2 ^ 43 ->
  (res <> 0 -> main_size_limit res rlim_cur = size_limit_init) /\
  main_size_limit res RLIM_INFINITY = size_limit_init /\
  (main_size_limit 0 rlim_cur <= size_limit_init <-> rlim_cur <= 2097158).
Proof.
  intros Hr. unfold main_size_limit, size_limit_init, RLIM_INFINITY.
  split; [|split].
  - intros Hres. destruct (Z.eqb_spec res 0); [contradiction | reflexivity].
  - rewrite Z.eqb_refl, andb_false_r. reflexivity.
  - change (0 =? 0) with true. cbn [andb].
    destruct (Z.eqb_spec rlim_cur (2 ^ 64 - 1)); [lia|]. cbn [negb].
    unfold u64. rewrite Z.mod_small by lia.
    assert (Hq : 0 <= rlim_cur * 1024 / 3) by (apply Z.div_pos; lia).
    rewrite <- Z.lt_succ_r.
    change (Z.succ 26754) with 26755.
    rewrite <- (Z.sqrt_lt_square _ 26755) by lia.
    change (26755 * 26755) with 715830025.
    split; intros H.
    + assert (rlim_cur * 1024 < 3 * 715830025); [|lia].
      apply Z.nle_gt. intros Hge.
      apply (Z.div_le_lower_bound _ 3) in Hge; lia.
    + apply Z.div_lt_upper_bound; lia.
Qed.

Lemma main_size_limit_threshold_witness :
  (1 <> 0 -> main_size_limit 1 8388608 = size_limit_init) /\
  main_size_limit 1 RLIM_INFINITY = size_limit_init /\
  (main_size_limit 0 8388608 <= size_limit_init <-> 8388608 <= 2097158).
Proof. apply (main_size_limit_threshold 1 8388608). lia. Defined.

(** ** [decode_flat] *)

(** X10.  The tree of branches of [decode_flat] finds a codeword on every
    32-bit register: none of its assertions fails.  The codeword has 3 to 13
    bits and stands for 1 to 8 samples, and it is found from the 13 most
    significant bits alone. *)
Theorem codeword_tree_total (reg : Z) (w : world) :
  0 <= reg < 2 ^ 32 ->
  exists codelen act,
    codeword reg w = Done (codelen, act) w /\
    3 <= codelen <= 13 /\ 1 <= action_count act <= 8 /\
    codeword (top13 reg) w = Done (codelen, act) w.
Proof.
  intros Hreg.
  destruct (codeword_total reg w Hreg) as (codelen & act & Hc & Hlen & _ & Hn).
  exists codelen, act. rewrite codeword_top13. auto.
Qed.

Lemma codeword_tree_total_witness :
  exists codelen act,
    codeword 0xE7FFFFFF world0 = Done (codelen, act) world0 /\
    3 <= codelen <= 13 /\ 1 <= action_count act <= 8 /\
    codeword (top13 0xE7FFFFFF) world0 = Done (codelen, act) world0.
Proof. apply codeword_tree_total. lia. Defined.

(** X11.  One call of [decode_flat] on at most [FLATBUF] bytes that is asked
    for at most 800 samples returns: no assertion fails, nothing is written
    past [uncomp_buf] and nothing is read past the padded input.  It
    consumes no more bytes than it was given, yields at most
    [max_pixels + 7] samples and leaves fewer than 8 bits in the register. *)
Theorem decode_flat_in_bounds (comp : list Z) (max_pixels : Z)
  (state : flat_decode_state) (w : world) :
  Z.of_nat (length comp) <= FLATBUF -> 0 <= max_pixels <= 800 ->
  0 <= reg state < 2 ^ 32 -> 0 <= reg_size state < 8 ->
  exists used out state',
    decode_flat comp max_pixels state w = Done (used, out, state') w /\
    0 <= used <= Z.of_nat (length comp) /\
    Z.of_nat (length out) <= max_pixels + 7 /\
    0 <= reg state' < 2 ^ 32 /\ 0 <= reg_size state' < 8.
Proof.
  intros Hcomp Hmax Hreg Hsize.
  destruct (decode_flat_safe comp max_pixels state w Hcomp ltac:(lia) Hreg Hsize)
    as [H | [Hfull _]]; [exact H | lia].
Qed.

Lemma decode_flat_in_bounds_witness :
  exists used out state',
    decode_flat [0x3E; 0x7C; 0xF9] 5 (FlatState 0 0 9) world0
    = Done (used, out, state') world0 /\
    0 <= used <= Z.of_nat (length [0x3E; 0x7C; 0xF9]) /\
    Z.of_nat (length out) <= 5 + 7 /\
    0 <= reg state' < 2 ^ 32 /\ 0 <= reg_size state' < 8.
Proof.
  apply decode_flat_in_bounds; cbn; try lia. unfold FLATBUF. lia.
Defined.

(** ** [parse_image] *)

(** X12.  A file of fewer than eight bytes is rejected, and so is a file
    whose first eight bytes are none of the three magic numbers; in the
    latter case [format_problem] is cleared and nothing after the magic
    number is read. *)
Theorem parse_image_unrecognized (size_limit : Z) (s : list Z)
  (fp : option string) (lf : list Z) :
  ((length s < 8)%nat ->
   parse_image size_limit (World s fp lf) = Done None (World [] fp lf))
  /\ ((8 <= length s)%nat ->
      take 8 s <> bcraw_magic -> take 8 s <> bcprog_magic ->
      take 8 s <> bcflat_magic ->
      parse_image size_limit (World s fp lf)
      = Done None (World (drop 8 s) None lf)).
Proof.
  split.
  - intros Hs. unfold parse_image, bind, fread.
    cbn [fh format_problem logging_fmt]. change (Z.to_nat (8 * 1)) with 8%nat.
    rewrite take_ge, drop_ge by lia. rewrite Z.div_small by lia. reflexivity.
  - intros Hs Hraw Hprog Hflat. rewrite <- (take_drop 8 s) at 1.
    unfold parse_image. unfold bind at 1.
    rewrite fread_exact by (rewrite ?length_take; lia).
    cbn [negb Z.eqb Pos.eqb]. unfold bind at 1, clear_format_problem.
    cbn [fh format_problem logging_fmt].
    rewrite !bytes_eqb_neq by assumption. reflexivity.
Qed.

(** ** [read_raw_data] on any stream *)

Section RawRun.
Variables (s : list Z) (fp : option string) (lf : list Z).
Variable info : image_info.
Variable L : nat.
Hypothesis Hwidth : width info < 2 ^ 31.
Hypothesis Hheight : height info < 2 ^ 31.





End RawRun.




(** ** BCRAW files, whole and cut short *)

Lemma bcraw_header_ok (w h : Z) (rest : list Z)
  (fp : option string) (lf : list Z) :
  0 <= w < 2 ^ 63 -> 0 <= h < 2 ^ 63 ->
  bcraw_header (World (bcraw_flags ++ be64 w ++ be64 h ++ rest) fp lf)
  = Done (Some (w, h)) (World rest fp lf).
Proof.
  intros Hw Hh. unfold bcraw_header. unfold bind at 1.
  rewrite fread_exact by (cbn; lia). cbn [negb Z.eqb Pos.eqb].
  change (reserved_flags_set 7 bcraw_flags) with false.
  change (negb (nth 7 bcraw_flags 0 =? 8)) with false. cbv iota.
  unfold bind at 1. rewrite read_u64_be64 by lia.
  rewrite to_long_small by lia.
  destruct (Z.eqb_spec w (-1)); [lia|].
  unfold bind at 1. rewrite read_u64_be64 by lia.
  rewrite to_long_small by lia.
  destruct (Z.eqb_spec h (-1)); [lia|]. reflexivity.
Qed.





(** ** What [parse_image] returns *)







(** ** Decoding a BCRAW file in any state of the globals *)

Lemma parse_image_bcraw_any (size_limit w h : Z) (tags : list tag)
  (payload extra : list Z) (fp : option string) (lf : list Z) :
  0 <= w < 2 ^ 31 -> 0 <= h < 2 ^ 31 -> 3 * w * h < 2 ^ 31 ->
  Forall tag_ok tags ->
  Z.of_nat (length payload) = 3 * w * h ->
  parse_image size_limit
    (World (bcraw_file w h tags (payload ++ extra)) fp lf)
  = Done (Some (ImageInfo w h 0 (tags_create_time tags (-1)) payload))
         (World extra None (tags_logging_fmt tags lf)).
Proof.
  intros Hw Hh Hwh Htags Hlen.
  assert (Hnn : 0 <= 3 * w * h) by nia.
  unfold parse_image, bcraw_file.
  unfold bind at 1. rewrite fread_exact by (cbn; lia).
  cbn [negb Z.eqb Pos.eqb]. unfold bind at 1.
  cbn [clear_format_problem fh logging_fmt].
  rewrite bytes_eqb_refl. unfold parse_bcraw, bind at 1.
  rewrite bcraw_header_ok by lia.
  unfold parse_body.
  rewrite image_num_bytes_exact by lia.
  unfold bind at 1. rewrite alloc_image_ok by lia.
  unfold bind at 1. rewrite process_tagged_data_tags by assumption.
  unfold set_create_time. cbn [negb create_time width height cleanup pixels].
  unfold bind at 1.
  rewrite read_raw_data_copies; cbn [width height pixels]; try lia.
  - reflexivity.
  - rewrite repeat_length. lia.
Qed.

(** X16.  [logging_fmt] outlives the file that set it.  A well-formed BCRAW
    file without a [FRMT] tag, decoded after any other files, leaves the
    format as it found it, and the log message for its image is printed
    with that format: the payload of an earlier file's [FRMT] tag, if there
    was one. *)
Theorem logging_fmt_carries_over (strftime_local : Z -> list Z)
  (size_limit w h : Z) (tags : list tag) (payload : list Z) (prev : world) :
  0 <= w < 2 ^ 31 -> 0 <= h < 2 ^ 31 -> 3 * w * h < 2 ^ 31 ->
  Forall tag_ok tags -> last_frmt tags = None ->
  Z.of_nat (length payload) = 3 * w * h ->
  exists info w',
    parse_image size_limit (next_file prev (bcraw_file w h tags payload))
    = Done (Some info) w' /\
    logging_fmt w' = logging_fmt prev /\
    print_log_msg strftime_local info w'
    = [ Printf (logging_fmt prev)
               [ArgLong w; ArgLong h;
                ArgString (if negb (create_time info =? -1)
                           then strftime_local (create_time info)
                           else bytes_of "recently");
                ArgLong (create_time info)];
        Printf newline_fmt [] ].
Proof.
  intros Hw Hh Hwh Htags Hfrmt Hlen. unfold next_file.
  rewrite <- (app_nil_r payload).
  rewrite parse_image_bcraw_any by assumption.
  rewrite tags_logging_fmt_last_frmt, Hfrmt.
  do 2 eexists. split; [reflexivity|]. split; reflexivity.
Qed.

Lemma logging_fmt_carries_over_witness :
  exists info w',
    parse_image size_limit_init
      (next_file (World [] None (bytes_of "%n" ++ [0]))
                 (bcraw_file 1 1 [TagTime 5] [10; 20; 30]))
    = Done (Some info) w' /\
    logging_fmt w' = logging_fmt (World [] None (bytes_of "%n" ++ [0])) /\
    print_log_msg (fun _ => []) info w'
    = [ Printf (logging_fmt (World [] None (bytes_of "%n" ++ [0])))
               [ArgLong 1; ArgLong 1;
                ArgString (if negb (create_time info =? -1)
                           then []
                           else bytes_of "recently");
                ArgLong (create_time info)];
        Printf newline_fmt [] ].
Proof.
  apply (logging_fmt_carries_over (fun _ => []) size_limit_init 1 1
           [TagTime 5] [10; 20; 30] (World [] None (bytes_of "%n" ++ [0])));
    [lia | lia | lia | repeat constructor; cbn; lia | reflexivity
     | reflexivity].
Defined.

(** ** Batch conversion *)



(** ** BCPROG: the rows of an image of three or more rows *)

Lemma byte_at_nat (buf : list Z) (i : nat) :
  byte_at buf (Z.of_nat i) = nth i buf 0.
Proof. unfold byte_at. now rewrite Nat2Z.id. Qed.

(** What [store] leaves in the buffer. *)
Lemma store_spec (object : string) (buf : list Z) (off : Z) (data : list Z)
  (w : world) :
  0 <= off -> off + Z.of_nat (length data) <= Z.of_nat (length buf) ->
  exists buf',
    store object buf off data w = Done buf' w /\
    length buf' = length buf /\
    (forall i, 0 <= i < Z.of_nat (length data) ->
               byte_at buf' (off + i) = byte_at data i) /\
    (forall pos, 0 <= pos ->
                 pos < off \/ off + Z.of_nat (length data) <= pos ->
                 byte_at buf' pos = byte_at buf pos).
Proof.
  intros Hoff Hfit. unfold store.
  destruct (Nat.eqb_spec (length data) 0) as [H0 | H0].
  - exists buf. split; [reflexivity|]. split; [reflexivity|].
    split; [intros i Hi; lia | reflexivity].
  - replace ((0 <=? off)
             && (off + Z.of_nat (length data) <=? Z.of_nat (length buf)))
      with true by (symmetry; apply andb_true_iff; split; apply Z.leb_le; lia).
    eexists. split; [reflexivity|]. split; [|split].
    + rewrite !length_app, length_take, length_drop. lia.
    + intros i Hi. unfold byte_at.
      rewrite app_nth2 by (rewrite length_take; lia).
      rewrite length_take, app_nth1 by lia. f_equal. lia.
    + intros pos Hpos [Hlt | Hge]; unfold byte_at.
      * rewrite app_nth1 by (rewrite length_take; lia).
        rewrite nth_firstn.
        destruct (Nat.ltb_spec (Z.to_nat pos) (Z.to_nat off)); [reflexivity|lia].
      * rewrite app_nth2 by (rewrite length_take; lia).
        rewrite app_nth2 by (rewrite length_take; lia).
        rewrite nth_skipn, length_take. f_equal. lia.
Qed.

Lemma byte_at_drop (l : list Z) (n : nat) (i : Z) :
  0 <= i -> byte_at (drop n l) i = byte_at l (Z.of_nat n + i).
Proof.
  intros Hi. unfold byte_at. rewrite nth_skipn. f_equal. lia.
Qed.

Lemma byte_at_take (l : list Z) (n : nat) (i : Z) :
  0 <= i < Z.of_nat n -> byte_at (take n l) i = byte_at l i.
Proof.
  intros Hi. unfold byte_at. rewrite nth_firstn.
  destruct (Nat.ltb_spec (Z.to_nat i) n); [reflexivity | lia].
Qed.

(** Rows are [3 * width] bytes apart and a pass writes [width] bytes of a
    row: what it writes to different rows does not overlap. *)
Lemma row_above (wd r r' : Z) :
  0 < wd -> r < r' -> r * 3 * wd + wd <= r' * 3 * wd.
Proof. intros Hw Hr. nia. Qed.

Section ProgPass.
Variables (info : image_info) (fp : option string) (lf : list Z).
Hypothesis Hwidth : 0 < width info.

(** One pass of step 1 that starts at [row] and makes [m] turns stores the
    [m] rows it reads at rows [row], [row + step], ... and leaves the rest
    of the buffer alone. *)
Lemma prog_pass_places (step : Z) (rest : list Z) (m : nat) :
  forall (fuel : nat) (row : Z) (buf chunk : list Z),
  (1 <= m)%nat -> (m <= fuel)%nat -> 0 <= row -> 0 < step ->
  row + (Z.of_nat m - 1) * step < height info ->
  height info <= row + Z.of_nat m * step ->
  Z.of_nat (length chunk) = Z.of_nat m * width info ->
  Z.of_nat (length buf) = 3 * width info * height info ->
  exists buf',
    prog_pass fuel info step row buf (World (chunk ++ rest) fp lf)
    = Done (Some buf') (World rest fp lf) /\
    length buf' = length buf /\
    (forall j c, 0 <= j < Z.of_nat m -> 0 <= c < width info ->
       byte_at buf' ((row + j * step) * 3 * width info + c)
       = byte_at chunk (j * width info + c)) /\
    (forall pos, 0 <= pos ->
       (forall j, 0 <= j < Z.of_nat m ->
          pos < (row + j * step) * 3 * width info
          \/ (row + j * step) * 3 * width info + width info <= pos) ->
       byte_at buf' pos = byte_at buf pos).
Proof.
  induction m as [|m IH]; intros fuel row buf chunk Hm Hfuel Hrow Hstep
    Hlast Hend Hchunk Hbuf; [lia|].
  destruct fuel as [|fuel]; [lia|]. cbn [prog_pass].
  set (W := Z.to_nat (width info)).
  assert (HW : Z.of_nat W = width info) by (unfold W; lia).
  assert (Hmstep : 0 <= Z.of_nat m * step) by nia.
  assert (Hrowh : row < height info) by lia.
  pose proof (row_above (width info) row (height info) Hwidth Hrowh) as Hfit.
  assert (Hsplit : chunk ++ rest = take W chunk ++ drop W chunk ++ rest)
    by (now rewrite app_assoc, take_drop).
  rewrite Hsplit. clear Hsplit.
  assert (Htake : length (take W chunk) = W) by (rewrite length_take; nia).
  unfold fread_into. unfold bind at 1. unfold bind at 1.
  rewrite fread_exact by lia. unfold bind at 1.
  destruct (store_spec "pixels" buf (row * 3 * width info) (take W chunk)
              (World (drop W chunk ++ rest) fp lf))
    as (buf1 & -> & Hlen1 & Hin1 & Hout1); [nia | nia |].
  unfold ret at 1. cbn [negb Z.eqb Pos.eqb].
  destruct (Z.ltb_spec (row + step) (height info)) as [Hmore | Hdone].
  - assert (Hm1 : (1 <= m)%nat) by (destruct m; [lia | lia]).
    destruct (IH fuel (row + step) buf1 (drop W chunk))
      as (buf2 & -> & Hlen2 & Hin2 & Hout2); try lia.
    { rewrite length_drop. lia. }
    exists buf2. split; [reflexivity|]. split; [congruence|]. split.
    + intros j c Hj Hc. destruct (Z.eq_dec j 0) as [-> | Hj0].
      * rewrite Z.mul_0_l, Z.add_0_r, Z.add_0_l.
        rewrite Hout2.
        -- rewrite Hin1 by lia. apply byte_at_take. lia.
        -- nia.
        -- intros j' Hj'. left.
           pose proof (row_above (width info) row (row + step + j' * step)
                         Hwidth ltac:(nia)). lia.
      * replace ((row + j * step) * 3 * width info + c)
          with ((row + step + (j - 1) * step) * 3 * width info + c) by ring.
        rewrite Hin2 by lia. rewrite byte_at_drop by nia. f_equal. lia.
    + intros pos Hpos Hfree. rewrite Hout2; [| exact Hpos |].
      * apply Hout1; [exact Hpos|]. rewrite Htake, HW.
        specialize (Hfree 0 ltac:(lia)).
        rewrite Z.mul_0_l, Z.add_0_r in Hfree. exact Hfree.
      * intros j Hj. specialize (Hfree (j + 1) ltac:(lia)).
        replace ((row + (j + 1) * step)) with (row + step + j * step)
          in Hfree by ring. exact Hfree.
  - assert (m = 0%nat) by nia. subst m.
    rewrite (drop_ge chunk W) by lia.
    exists buf1. split; [reflexivity|]. split; [exact Hlen1|]. split.
    + intros j c Hj Hc. assert (j = 0) by lia. subst j.
      rewrite Z.mul_0_l, Z.add_0_r, Z.add_0_l.
      rewrite Hin1 by lia. apply byte_at_take. lia.
    + intros pos Hpos Hfree. apply Hout1; [exact Hpos|]. rewrite Htake, HW.
      specialize (Hfree 0 ltac:(lia)).
      rewrite Z.mul_0_l, Z.add_0_r in Hfree. exact Hfree.
Qed.

End ProgPass.

(** *** Step 2 on a whole image *)

Lemma expand_cols_row (w0 : world) (buf : list Z) (row_p wd : Z) :
  0 <= row_p -> 0 <= wd -> row_p + 3 * wd <= Z.of_nat (length buf) ->
  (forall c, 0 <= c < wd -> 0 <= byte_at buf (row_p + c) < 216) ->
  exists buf',
    expand_cols (Z.to_nat wd) row_p buf w0 = Done (Some buf') w0 /\
    length buf' = length buf /\
    (forall c, 0 <= c < wd ->
       byte_at buf' (row_p + 3 * c) = 51 * (byte_at buf (row_p + c) / 36) /\
       byte_at buf' (row_p + 3 * c + 1)
       = 51 * ((byte_at buf (row_p + c) / 6) mod 6) /\
       byte_at buf' (row_p + 3 * c + 2) = 51 * (byte_at buf (row_p + c) mod 6))
    /\ (forall pos, 0 <= pos -> pos < row_p \/ row_p + 3 * wd <= pos ->
          byte_at buf' pos = byte_at buf pos).
Proof.
  intros Hp Hwd Hfit Hbytes.
  destruct (expand_cols_valid (Z.to_nat row_p) w0 (Z.to_nat wd) buf)
    as (buf' & Hrun & Hlen & Hin & Hout).
  - lia.
  - intros i Hi. rewrite <- byte_at_nat.
    replace (Z.of_nat (Z.to_nat row_p + i)) with (row_p + Z.of_nat i) by lia.
    apply Hbytes. lia.
  - exists buf'. rewrite Z2Nat.id in Hrun by lia.
    split; [exact Hrun|]. split; [exact Hlen|]. split.
    + intros c Hc. specialize (Hin (Z.to_nat c) ltac:(lia)). cbv zeta in Hin.
      rewrite <- !byte_at_nat in Hin.
      replace (Z.of_nat (Z.to_nat row_p + 3 * Z.to_nat c))
        with (row_p + 3 * c) in Hin by lia.
      replace (Z.of_nat (Z.to_nat row_p + 3 * Z.to_nat c + 1))
        with (row_p + 3 * c + 1) in Hin by lia.
      replace (Z.of_nat (Z.to_nat row_p + 3 * Z.to_nat c + 2))
        with (row_p + 3 * c + 2) in Hin by lia.
      replace (Z.of_nat (Z.to_nat row_p + Z.to_nat c))
        with (row_p + c) in Hin by lia.
      exact Hin.
    + intros pos Hpos Hfree. unfold byte_at. apply Hout. lia.
Qed.

Lemma expand_rows_valid (info : image_info) (w0 : world) (n : nat) :
  forall (row : Z) (buf : list Z),
  0 <= row -> 0 < width info ->
  (row + Z.of_nat n) * 3 * width info <= Z.of_nat (length buf) ->
  (forall r c, row <= r < row + Z.of_nat n -> 0 <= c < width info ->
     0 <= byte_at buf (r * 3 * width info + c) < 216) ->
  exists buf',
    expand_rows n info row buf w0 = Done (Some buf') w0 /\
    length buf' = length buf /\
    (forall r c, row <= r < row + Z.of_nat n -> 0 <= c < width info ->
       byte_at buf' (r * 3 * width info + 3 * c)
       = 51 * (byte_at buf (r * 3 * width info + c) / 36) /\
       byte_at buf' (r * 3 * width info + 3 * c + 1)
       = 51 * ((byte_at buf (r * 3 * width info + c) / 6) mod 6) /\
       byte_at buf' (r * 3 * width info + 3 * c + 2)
       = 51 * (byte_at buf (r * 3 * width info + c) mod 6))
    /\ (forall pos, 0 <= pos ->
          pos < row * 3 * width info
          \/ (row + Z.of_nat n) * 3 * width info <= pos ->
          byte_at buf' pos = byte_at buf pos).
Proof.
  induction n as [|n IH]; intros row buf Hrow Hwd Hfit Hbytes.
  - exists buf. split; [reflexivity|]. split; [reflexivity|].
    split; [intros; lia | reflexivity].
  - cbn [expand_rows]. unfold bind at 1.
    assert (Hnext : (row + 1) * 3 * width info
                    = row * 3 * width info + 3 * width info) by ring.
    assert (Hn : 0 <= Z.of_nat n * (3 * width info)) by nia.
    destruct (expand_cols_row w0 buf (row * 3 * width info) (width info))
      as (buf1 & -> & Hlen1 & Hin1 & Hout1); [nia | lia | nia | |].
    { intros c Hc. apply Hbytes; lia. }
    destruct (IH (row + 1) buf1) as (buf2 & -> & Hlen2 & Hin2 & Hout2);
      [lia | lia | rewrite Hlen1; nia | |].
    { intros r c Hr Hc. rewrite Hout1; [apply Hbytes; lia | nia |].
      right. pose proof (row_above (width info) row r Hwd ltac:(lia)). nia. }
    exists buf2. split; [reflexivity|]. split; [congruence|]. split.
    + intros r c Hr Hc. destruct (Z.eq_dec r row) as [-> | Hne].
      * rewrite !Hout2 by nia. apply Hin1. exact Hc.
      * rewrite <- (Hout1 (r * 3 * width info + c)); [apply Hin2; lia | nia |].
        right. nia.
    + intros pos Hpos Hfree. rewrite Hout2 by nia. apply Hout1; [exact Hpos|].
      nia.
Qed.

Lemma other_row (wd r r' c : Z) :
  0 < wd -> 0 <= c < wd -> r <> r' ->
  r * 3 * wd + c < r' * 3 * wd \/ r' * 3 * wd + wd <= r * 3 * wd + c.
Proof.
  intros Hw Hc Hne. destruct (Z.lt_ge_cases r r') as [Hlt | Hge].
  - left. pose proof (row_above wd r r' Hw Hlt). lia.
  - right. pose proof (row_above wd r' r Hw ltac:(lia)). lia.
Qed.

Lemma pass_counts (h : Z) :
  3 <= h ->
  (1 <= (h + 3) / 4 /\ 0 + ((h + 3) / 4 - 1) * 4 < h <= 0 + (h + 3) / 4 * 4) /\
  (1 <= (h + 1) / 4 /\ 2 + ((h + 1) / 4 - 1) * 4 < h <= 2 + (h + 1) / 4 * 4) /\
  (1 <= h / 2 /\ 1 + (h / 2 - 1) * 2 < h <= 1 + h / 2 * 2) /\
  (h + 3) / 4 + (h + 1) / 4 + h / 2 = h.
Proof. intros Hh. Z.div_mod_to_equations. lia. Qed.

(** Step 1 on an image of three or more rows: the three passes together
    put row [file_row height r] of the stream into the first [width] bytes
    of row [r]. *)
Lemma prog_passes_place (info : image_info) (data extra : list Z)
  (fp : option string) (lf : list Z) (fuel : nat) :
  0 < width info -> 3 <= height info ->
  (Z.to_nat (height info) <= fuel)%nat ->
  Z.of_nat (length (pixels info)) = 3 * width info * height info ->
  Z.of_nat (length data) = width info * height info ->
  exists buf1 buf2 buf3,
    prog_pass fuel info 4 0 (pixels info) (World (data ++ extra) fp lf)
    = Done (Some buf1)
           (World (drop (Z.to_nat ((height info + 3) / 4 * width info)) data
                   ++ extra) fp lf) /\
    prog_pass fuel info 4 2 buf1
      (World (drop (Z.to_nat ((height info + 3) / 4 * width info)) data
              ++ extra) fp lf)
    = Done (Some buf2)
           (World (drop (Z.to_nat (((height info + 3) / 4
                                    + (height info + 1) / 4) * width info))
                        data ++ extra) fp lf) /\
    prog_pass fuel info 2 1 buf2
      (World (drop (Z.to_nat (((height info + 3) / 4
                               + (height info + 1) / 4) * width info))
                   data ++ extra) fp lf)
    = Done (Some buf3) (World extra fp lf) /\
    length buf3 = length (pixels info) /\
    forall r c, 0 <= r < height info -> 0 <= c < width info ->
      byte_at buf3 (r * 3 * width info + c)
      = byte_at data (file_row (height info) r * width info + c).
Proof.
  intros Hwd Hh Hfuel Hpix Hdata.
  destruct (pass_counts (height info) Hh)
    as ((HM1 & Hl1 & He1) & (HM2 & Hl2 & He2) & (HM3 & Hl3 & He3) & Hsum).
  set (M1 := (height info + 3) / 4) in *.
  set (M2 := (height info + 1) / 4) in *.
  set (M3 := height info / 2) in *.
  set (wd := width info) in *.
  set (n1 := Z.to_nat (M1 * wd)). set (n2 := Z.to_nat ((M1 + M2) * wd)).
  assert (Hn1 : Z.of_nat n1 = M1 * wd) by (unfold n1; nia).
  assert (Hn2 : Z.of_nat n2 = (M1 + M2) * wd) by (unfold n2; nia).
  assert (Hn12 : (n1 <= n2)%nat) by nia.
  assert (Hn2d : (n2 <= length data)%nat) by nia.
  (* the stream, cut at the ends of the passes *)
  assert (Hs1 : data ++ extra = take n1 data ++ drop n1 data ++ extra)
    by (now rewrite app_assoc, take_drop).
  assert (Hs2 : drop n1 data ++ extra
                = take (n2 - n1) (drop n1 data) ++ drop n2 data ++ extra).
  { rewrite app_assoc. f_equal.
    rewrite <- (take_drop (n2 - n1) (drop n1 data)) at 1. f_equal.
    rewrite drop_drop. f_equal. lia. }
  rewrite Hs1.
  destruct (prog_pass_places info fp lf Hwd 4 (drop n1 data ++ extra)
              (Z.to_nat M1) fuel 0 (pixels info) (take n1 data))
    as (buf1 & Hrun1 & Hlen1 & Hin1 & Hout1); try lia.
  { rewrite length_take. nia. }
  rewrite Hs2 in Hrun1 |- *.
  destruct (prog_pass_places info fp lf Hwd 4 (drop n2 data ++ extra)
              (Z.to_nat M2) fuel 2 buf1 (take (n2 - n1) (drop n1 data)))
    as (buf2 & Hrun2 & Hlen2 & Hin2 & Hout2); try lia.
  { rewrite length_take, length_drop. nia. }
  destruct (prog_pass_places info fp lf Hwd 2 extra
              (Z.to_nat M3) fuel 1 buf2 (drop n2 data))
    as (buf3 & Hrun3 & Hlen3 & Hin3 & Hout3); try lia.
  { rewrite length_drop. nia. }
  exists buf1, buf2, buf3.
  split; [exact Hrun1|]. split; [exact Hrun2|]. split; [exact Hrun3|].
  split; [congruence|].
  intros r c Hr Hc. unfold file_row. fold M1 M2 M3.
  assert (Hpos : 0 <= r * 3 * wd + c) by nia.
  destruct (Z.eqb_spec (r mod 4) 0) as [Hr0 | Hr0].
  - (* a row of the first pass *)
    assert (Hj : r = 0 + r / 4 * 4 /\ 0 <= r / 4 < M1)
      by (Z.div_mod_to_equations; lia).
    destruct Hj as [Hrj Hj].
    rewrite Hout3; [| exact Hpos |].
    2:{ intros j Hj3. apply other_row; trivial. Z.div_mod_to_equations. lia. }
    rewrite Hout2; [| exact Hpos |].
    2:{ intros j Hj2. apply other_row; trivial. Z.div_mod_to_equations. lia. }
    rewrite Hrj at 1. rewrite Hin1 by lia.
    apply byte_at_take. nia.
  - destruct (Z.eqb_spec (r mod 4) 2) as [Hr2 | Hr2].
    + (* a row of the second pass *)
      assert (Hj : r = 2 + r / 4 * 4 /\ 0 <= r / 4 < M2)
        by (Z.div_mod_to_equations; lia).
      destruct Hj as [Hrj Hj].
      rewrite Hout3; [| exact Hpos |].
      2:{ intros j Hj3. apply other_row; trivial.
          Z.div_mod_to_equations. lia. }
      rewrite Hrj at 1. rewrite Hin2 by lia.
      rewrite byte_at_take by nia. rewrite byte_at_drop by nia.
      f_equal. nia.
    + (* an odd row *)
      assert (Hj : r = 1 + r / 2 * 2 /\ 0 <= r / 2 < M3)
        by (Z.div_mod_to_equations; lia).
      destruct Hj as [Hrj Hj].
      rewrite Hrj at 1. rewrite Hin3 by lia.
      rewrite byte_at_drop by nia. f_equal. nia.
Qed.

Lemma read_prog_data_places (info : image_info) (data extra : list Z)
  (fp : option string) (lf : list Z) :
  0 < width info -> 3 <= height info ->
  Z.of_nat (length (pixels info)) = 3 * width info * height info ->
  Z.of_nat (length data) = width info * height info ->
  (forall i, 0 <= i < width info * height info -> 0 <= byte_at data i < 216) ->
  exists pix,
    read_prog_data info (World (data ++ extra) fp lf)
    = Done (true, set_pixels info pix) (World extra fp lf) /\
    length pix = length (pixels info) /\
    forall r c, 0 <= r < height info -> 0 <= c < width info ->
      byte_at pix (r * 3 * width info + 3 * c)
      = 51 * (byte_at data (file_row (height info) r * width info + c) / 36) /\
      byte_at pix (r * 3 * width info + 3 * c + 1)
      = 51 * ((byte_at data (file_row (height info) r * width info + c) / 6)
              mod 6) /\
      byte_at pix (r * 3 * width info + 3 * c + 2)
      = 51 * (byte_at data (file_row (height info) r * width info + c) mod 6).
Proof.
  intros Hwd Hh Hpix Hdata Hbytes. unfold read_prog_data.
  destruct (prog_passes_place info data extra fp lf
              (S (Z.to_nat (height info))) Hwd Hh ltac:(lia) Hpix Hdata)
    as (buf1 & buf2 & buf3 & Hrun1 & Hrun2 & Hrun3 & Hlen3 & Hplaced).
  unfold bind at 1. rewrite Hrun1. unfold bind at 1. rewrite Hrun2.
  unfold bind at 1. rewrite Hrun3. unfold bind at 1.
  assert (Hrow : forall r, 0 <= r < height info ->
                           0 <= file_row (height info) r < height info).
  { intros r Hr. unfold file_row.
    destruct (Z.eqb_spec (r mod 4) 0); [|destruct (Z.eqb_spec (r mod 4) 2)];
      Z.div_mod_to_equations; lia. }
  destruct (expand_rows_valid info (World extra fp lf)
              (Z.to_nat (height info)) 0 buf3)
    as (pix & -> & Hlen & Hin & _); [lia | exact Hwd | rewrite Hlen3; nia | |].
  { intros r c Hr Hc. rewrite Hplaced by lia. apply Hbytes.
    specialize (Hrow r ltac:(lia)). nia. }
  exists pix. split; [reflexivity|]. split; [congruence|].
  intros r c Hr Hc. rewrite <- Hplaced by lia. apply Hin; lia.
Qed.

Lemma bcprog_header_ok (w h : Z) (rest : list Z)
  (fp : option string) (lf : list Z) :
  1 <= w <= 800 -> 2 <= h <= 600 ->
  bcprog_header (World (bcprog_flags ++ be64 w ++ be64 h ++ rest) fp lf)
  = Done (Some (w, h)) (World rest fp lf).
Proof.
  intros Hw Hh. unfold bcprog_header. unfold bind at 1.
  rewrite fread_exact by (cbn; lia). cbn [negb Z.eqb Pos.eqb].
  change (reserved_flags_set 6 bcprog_flags) with false.
  change (negb (nth 6 bcprog_flags 0 =? 1)) with false.
  change (negb (nth 7 bcprog_flags 0 =? 216)) with false. cbv iota.
  unfold bind at 1. rewrite read_u64_be64 by lia.
  rewrite to_long_small by lia.
  destruct (Z.eqb_spec w (-1)); [lia|].
  unfold bind at 1. rewrite read_u64_be64 by lia.
  rewrite to_long_small by lia.
  destruct (Z.eqb_spec h (-1)); [lia|].
  destruct (Z.ltb_spec h 2); [lia|]. destruct (Z.ltb_spec w 1); [lia|].
  destruct (Z.gtb_spec h 600); [lia|]. destruct (Z.gtb_spec w 800); [lia|].
  reflexivity.
Qed.

(** X18.  A well-formed BCPROG file of 3 to 600 rows of 1 to 800 palette
    bytes below 216 is decoded: pixel [c] of row [r] of the image is the
    expansion (51 times the red, green and blue digits in base 6) of byte
    [c] of row [file_row height r] of the payload, where the rows that are
    multiples of 4 come first in the file, then the odd multiples of 2,
    then the odd rows.  The bytes after the image are left in the stream. *)
Theorem parse_bcprog_deinterlaces (size_limit w h : Z) (tags : list tag)
  (payload extra : list Z) :
  1 <= w <= 800 -> 3 <= h <= 600 ->
  Forall tag_ok tags ->
  Z.of_nat (length payload) = w * h ->
  (forall i, 0 <= i < w * h -> 0 <= byte_at payload i < 216) ->
  exists pix,
    parse_image size_limit (open_file (bcprog_file w h tags (payload ++ extra)))
    = Done (Some (ImageInfo w h 0 (tags_create_time tags (-1)) pix))
           (World extra None (tags_logging_fmt tags default_logging_fmt)) /\
    Z.of_nat (length pix) = 3 * w * h /\
    forall r c, 0 <= r < h -> 0 <= c < w ->
      byte_at pix (r * 3 * w + 3 * c)
      = 51 * (byte_at payload (file_row h r * w + c) / 36) /\
      byte_at pix (r * 3 * w + 3 * c + 1)
      = 51 * ((byte_at payload (file_row h r * w + c) / 6) mod 6) /\
      byte_at pix (r * 3 * w + 3 * c + 2)
      = 51 * (byte_at payload (file_row h r * w + c) mod 6).
Proof.
  intros Hw Hh Htags Hlen Hbytes.
  assert (Hb : 0 <= 3 * w * h <= 1440000) by nia.
  unfold parse_image, open_file, bcprog_file.
  unfold bind at 1. rewrite fread_exact by (cbn; lia).
  cbn [negb Z.eqb Pos.eqb]. unfold bind at 1.
  cbn [clear_format_problem fh logging_fmt].
  change (bytes_eqb bcprog_magic bcraw_magic) with false.
  rewrite bytes_eqb_refl. unfold parse_bcprog, bind at 1.
  rewrite bcprog_header_ok by lia.
  unfold parse_body. rewrite image_num_bytes_exact by lia.
  unfold bind at 1. rewrite alloc_image_ok by lia.
  unfold bind at 1. rewrite process_tagged_data_tags by assumption.
  unfold set_create_time. cbn [negb create_time width height cleanup pixels].
  unfold bind at 1.
  destruct (read_prog_data_places
              (ImageInfo w h 0 (tags_create_time tags (-1))
                         (repeat 0 (Z.to_nat (3 * w * h))))
              payload extra None (tags_logging_fmt tags default_logging_fmt))
    as (pix & -> & Hpix & Hin); cbn [width height pixels] in *;
    try lia; try assumption.
  { rewrite repeat_length. lia. }
  exists pix. split; [reflexivity|]. split; [|exact Hin].
  rewrite Hpix, repeat_length. lia.
Qed.

Lemma parse_bcprog_deinterlaces_witness :
  exists pix,
    parse_image size_limit_init
      (open_file (bcprog_file 1 3 [] ([215; 7; 36] ++ [])))
    = Done (Some (ImageInfo 1 3 0 (tags_create_time [] (-1)) pix))
           (World [] None (tags_logging_fmt [] default_logging_fmt)) /\
    Z.of_nat (length pix) = 3 * 1 * 3 /\
    forall r c, 0 <= r < 3 -> 0 <= c < 1 ->
      byte_at pix (r * 3 * 1 + 3 * c)
      = 51 * (byte_at [215; 7; 36] (file_row 3 r * 1 + c) / 36) /\
      byte_at pix (r * 3 * 1 + 3 * c + 1)
      = 51 * ((byte_at [215; 7; 36] (file_row 3 r * 1 + c) / 6) mod 6) /\
      byte_at pix (r * 3 * 1 + 3 * c + 2)
      = 51 * (byte_at [215; 7; 36] (file_row 3 r * 1 + c) mod 6).
Proof.
  apply (parse_bcprog_deinterlaces size_limit_init 1 3 [] [215; 7; 36] []);
    [lia | lia | constructor | reflexivity |].
  intros i Hi.
  assert (Hi' : i = 0 \/ i = 1 \/ i = 2) by lia.
  destruct Hi' as [-> | [-> | ->]]; vm_compute;
    (split; [discriminate | reflexivity]).
Defined.

(** ** BCFLAT: [read_flat_data] on an image at most 801 pixels wide *)

Lemma write_samples_ok (info : image_info) (row channel : Z) (w0 : world)
  (pixel_buf : list Z) :
  forall (x : Z) (pix : list Z),
  0 <= x -> x + Z.of_nat (length pixel_buf) <= width info ->
  0 <= row -> 0 <= channel <= 2 ->
  row + 3 * width info <= Z.of_nat (length pix) ->
  exists pix',
    write_samples pixel_buf info row channel x pix w0
    = Done (pix', x + Z.of_nat (length pixel_buf)) w0 /\
    length pix' = length pix.
Proof.
  induction pixel_buf as [|b rest IH]; intros x pix Hx Hfit Hrow Hch Hroom.
  - exists pix. cbn [write_samples length]. rewrite Z.add_0_r. auto.
  - cbn [write_samples length] in *. unfold bind at 1, assert.
    destruct (Z.ltb_spec x (width info)); [|lia].
    unfold ret at 1. cbv beta iota. unfold bind at 1.
    destruct (store_spec "pixels" pix (row + (3 * x + channel)) [b] w0)
      as (pix1 & -> & Hlen1 & _); [lia | cbn [length]; lia |].
    destruct (IH (x + 1) pix1) as (pix2 & -> & Hlen2); try lia.
    exists pix2. split; [f_equal; f_equal; lia | congruence].
Qed.

Section FlatRow.
Variable info : image_info.
Variables (row channel : Z).
Hypothesis Hwidth : 1 <= width info <= 801.
Hypothesis Hrow : 0 <= row.
Hypothesis Hchannel : 0 <= channel <= 2.

(** The loop over one row refills a buffer of at most [FLATBUF] bytes, asks
    [decode_flat] for at most 800 samples and stores what it gets inside
    the row. *)
Lemma flat_row_loop_safe (fuel : nat) :
  forall (x : Z) (buf : list Z) (state : flat_decode_state) (pix : list Z)
         (w : world),
  1 <= x -> width info - x <= Z.of_nat fuel ->
  (length buf <= 100)%nat ->
  0 <= reg state < 2 ^ 32 -> 0 <= reg_size state < 8 ->
  row + 3 * width info <= Z.of_nat (length pix) ->
  match flat_row_loop fuel info row channel x buf state pix w with
  | Done None _ => True
  | Done (Some (buf', pix')) _ =>
    (length buf' <= 100)%nat /\ length pix' = length pix
  | Crashed c => c = AssertionFailed "num_pixels > 0"
  end.
Proof.
  induction fuel as [|fuel IH]; intros x buf state pix w Hx Hfuel Hbuf
    Hreg Hsize Hroom.
  - cbn [flat_row_loop]. destruct (Z.ltb_spec x (width info)); [lia|].
    unfold ret. auto.
  - cbn [flat_row_loop]. destruct (Z.ltb_spec x (width info)) as [Hlt | Hge];
      [|unfold ret; auto].
    unfold bind at 1.
    assert (Hrefill : exists buf1 w1,
      (if Z.of_nat (length buf) <? FLATBUF
       then let* (got, _) := fread 1 (FLATBUF - Z.of_nat (length buf)) in
            ret (buf ++ got)
       else ret buf) w = Done buf1 w1 /\ (length buf1 <= 100)%nat).
    { unfold FLATBUF. destruct (Z.ltb_spec (Z.of_nat (length buf)) 100).
      - unfold bind, fread, ret. do 2 eexists. split; [reflexivity|].
        rewrite length_app, length_take. lia.
      - do 2 eexists. split; [reflexivity | exact Hbuf]. }
    destruct Hrefill as (buf1 & w1 & -> & Hbuf1).
    destruct (Z.eqb_spec (Z.of_nat (length buf1)) 0);
      [unfold bind, set_format_problem, ret; exact I|].
    unfold bind at 1.
    destruct (decode_flat_safe buf1 (width info - x) state w1)
      as [(used & out & state' & -> & Hused & Hout & Hreg' & Hsize')
         | [Hfull _]]; [unfold FLATBUF; lia | lia | lia | lia | | lia].
    unfold bind at 1, assert at 1.
    destruct (Z.gtb_spec (Z.of_nat (length out)) 0) as [Hpos | Hzero];
      [|reflexivity].
    unfold ret at 1. cbv beta iota. unfold bind at 1, assert at 1, EXPANSION.
    destruct (Z.leb_spec (Z.of_nat (length out)) (width info - x + 8));
      [|lia].
    unfold ret at 1. cbv beta iota.
    destruct (Z.gtb_spec (Z.of_nat (length out)) (width info - x));
      [unfold bind, set_format_problem, ret; exact I|].
    unfold bind at 1.
    destruct (write_samples_ok info row channel w1 out x pix)
      as (pix1 & -> & Hlen1); try lia.
    specialize (IH (x + Z.of_nat (length out)) (drop (Z.to_nat used) buf1)
                   state' pix1 w1).
    rewrite Hlen1 in IH. apply IH; try lia.
    rewrite length_drop. lia.
Qed.

End FlatRow.

Lemma flat_rows_safe (info : image_info) (channel : Z) (n : nat) :
  forall (y : Z) (buf pix : list Z) (w : world),
  1 <= width info <= 801 -> 0 <= channel <= 2 ->
  0 <= y -> y + Z.of_nat n <= height info ->
  (length buf <= 100)%nat ->
  Z.of_nat (length pix) = 3 * width info * height info ->
  match flat_rows n info channel y buf pix w with
  | Done None _ => True
  | Done (Some (buf', pix')) _ =>
    (length buf' <= 100)%nat /\ length pix' = length pix
  | Crashed c => c = AssertionFailed "num_pixels > 0"
  end.
Proof.
  induction n as [|n IH]; intros y buf pix w Hwd Hch Hy Hn Hbuf Hpix.
  - cbn [flat_rows]. unfold ret. auto.
  - cbn [flat_rows]. unfold bind at 1.
    assert (Hrow : 0 <= 3 * y * width info
                   /\ 3 * y * width info + 3 * width info
                      <= Z.of_nat (length pix)) by nia.
    assert (Hfirst : exists r w1,
      match buf with
      | first :: buf0 => ret (Some (first, buf0))
      | [] =>
        let* (got, num_read) := fread 1 1 in
        if negb (num_read =? 1)
        then set_format_problem "failed to read first byte";;; ret None
        else ret (Some (nth 0 got 0, []))
      end w = Done r w1 /\
      match r with
      | Some (_, buf0) => (length buf0 <= 100)%nat
      | None => True
      end).
    { destruct buf as [|first buf0].
      - unfold bind at 1, fread.
        destruct (negb (_ =? 1)); unfold bind, set_format_problem, ret;
          do 2 eexists; (split; [reflexivity|]); cbn; try lia; exact I.
      - unfold ret. do 2 eexists. split; [reflexivity|].
        cbn [length] in Hbuf. cbv beta iota. lia. }
    destruct Hfirst as ([[first buf0]|] & w1 & -> & Hbuf0);
      [|unfold ret; exact I].
    unfold bind at 1.
    destruct (store_spec "pixels" pix (3 * y * width info + (0 + channel))
                [first] w1) as (pix1 & -> & Hlen1 & _);
      [lia | cbn [length]; lia |].
    unfold bind at 1.
    pose proof (flat_row_loop_safe info (3 * y * width info) channel Hwd
                  ltac:(lia) Hch (Z.to_nat (width info)) 1 buf0
                  (FlatState 0 0 first) pix1 w1 ltac:(lia) ltac:(lia) Hbuf0
                  ltac:(cbn; lia) ltac:(cbn; lia) ltac:(lia)) as Hloop.
    destruct (flat_row_loop _ _ _ _ _ _ _ _ _) as [[[buf2 pix2]|] w2|c];
      [| unfold ret; exact I | exact Hloop].
    destruct Hloop as [Hbuf2 Hlen2].
    specialize (IH (y + 1) buf2 pix2 w2 Hwd Hch ltac:(lia) ltac:(lia) Hbuf2
                   ltac:(lia)).
    rewrite Hlen2, Hlen1 in IH. exact IH.
Qed.

Lemma flat_channels_safe (info : image_info) (n : nat) :
  forall (channel : Z) (buf pix : list Z) (w : world),
  1 <= width info <= 801 -> 0 <= height info ->
  0 <= channel -> channel + Z.of_nat n <= 3 ->
  (length buf <= 100)%nat ->
  Z.of_nat (length pix) = 3 * width info * height info ->
  returns_or_stalls (flat_channels n info channel buf pix w).
Proof.
  induction n as [|n IH]; intros channel buf pix w Hwd Hh Hch Hn Hbuf Hpix.
  - exact I.
  - cbn [flat_channels]. unfold bind at 1.
    pose proof (flat_rows_safe info channel (Z.to_nat (height info)) 0 buf pix
                  w Hwd ltac:(lia) ltac:(lia) ltac:(lia) Hbuf Hpix) as Hrows.
    destruct (flat_rows _ _ _ _ _ _ _) as [[[buf1 pix1]|] w1|c];
      [| exact I | exact Hrows].
    destruct Hrows as [Hbuf1 Hlen1].
    apply IH; try lia.
Qed.

(** X19.  On an image at most 801 pixels wide (with a pixel buffer of
    [3 * width * height] bytes) [read_flat_data] stays within its buffers,
    whatever the stream holds: it returns, or it stops at its assertion
    [num_pixels > 0]; it writes neither outside the pixel data nor past
    [uncomp_buf], and no other assertion fails. *)
Theorem read_flat_data_narrow_image (info : image_info) (w : world) :
  1 <= width info <= 801 -> 1 <= height info ->
  Z.of_nat (length (pixels info)) = 3 * width info * height info ->
  returns_or_stalls (read_flat_data info w).
Proof.
  intros Hwd Hh Hpix. unfold read_flat_data, bind.
  pose proof (flat_channels_safe info 3 0 [] (pixels info) w Hwd ltac:(lia)
                ltac:(lia) ltac:(lia) ltac:(cbn; lia) Hpix) as H.
  destruct (flat_channels _ _ _ _ _ _) as [[pix|] w1|c];
    [exact I | exact I | exact H].
Qed.

Lemma read_flat_data_narrow_image_witness :
  returns_or_stalls
    (read_flat_data (ImageInfo 2 1 0 (-1) [0; 0; 0; 0; 0; 0])
                    (open_file [0xF0; 0xE0])).
Proof. apply read_flat_data_narrow_image; cbn; lia. Defined.

(** ** BCPROG files cut short *)


Section ProgRun.
Variables (s : list Z) (fp : option string) (lf : list Z).
Variable info : image_info.
Hypothesis Hwidth : 0 < width info.


End ProgRun.






(** ** BCPROG: a byte that is no palette index *)

Lemma expand_rows_invalid (info : image_info) (w0 : world) (n : nat) :
  forall (row : Z) (buf : list Z),
  0 <= row -> 0 < width info ->
  (row + Z.of_nat n) * 3 * width info <= Z.of_nat (length buf) ->
  (forall r c, row <= r < row + Z.of_nat n -> 0 <= c < width info ->
     0 <= byte_at buf (r * 3 * width info + c)) ->
  (exists r c, row <= r < row + Z.of_nat n /\ 0 <= c < width info /\
               216 <= byte_at buf (r * 3 * width info + c)) ->
  expand_rows n info row buf w0
  = Done None (World (fh w0) (Some "invalid packed byte"%string)
                     (logging_fmt w0)).
Proof.
  induction n as [|n IH]; intros row buf Hrow Hwd Hfit Hnn (r & c & Hr & Hc & Hbad);
    [lia|].
  cbn [expand_rows]. unfold bind at 1.
  assert (Hnext : (row + 1) * 3 * width info
                  = row * 3 * width info + 3 * width info) by ring.
  assert (Hn : 0 <= Z.of_nat n * (3 * width info)) by nia.
  pose (W := Z.to_nat (width info)).
  pose (base := Z.to_nat (row * 3 * width info)).
  assert (Hbase : Z.of_nat base = row * 3 * width info) by (unfold base; nia).
  destruct (existsb (fun i => 216 <=? nth (base + i) buf 0) (seq 0 W)) eqn:Hrowbad.
  - apply existsb_exists in Hrowbad. destruct Hrowbad as (i & Hi & Hbi).
    apply in_seq in Hi. apply Z.leb_le in Hbi.
    rewrite <- Hbase.
    rewrite (expand_cols_invalid base w0 (Z.to_nat (width info)) buf);
      [reflexivity | nia |].
    exists i. split; [unfold W in Hi; lia | exact Hbi].
  - assert (Hrowok : forall c', 0 <= c' < width info ->
              byte_at buf (row * 3 * width info + c') < 216).
    { intros c' Hc'. apply Z.nle_gt. intros Hge.
      assert (Hex : existsb (fun i => 216 <=? nth (base + i) buf 0) (seq 0 W)
                    = true); [|congruence].
      apply existsb_exists. exists (Z.to_nat c'). split.
      - apply in_seq. unfold W. lia.
      - apply Z.leb_le. rewrite <- byte_at_nat.
        replace (Z.of_nat (base + Z.to_nat c'))
          with (row * 3 * width info + c') by lia.
        exact Hge. }
    destruct (expand_cols_row w0 buf (row * 3 * width info) (width info))
      as (buf1 & -> & Hlen1 & _ & Hout1); [nia | lia | nia | |].
    { intros c' Hc'. split; [apply Hnn; lia | apply Hrowok; exact Hc']. }
    assert (Hlater : forall r' c', row + 1 <= r' < row + 1 + Z.of_nat n ->
              0 <= c' < width info ->
              byte_at buf1 (r' * 3 * width info + c')
              = byte_at buf (r' * 3 * width info + c')).
    { intros r' c' Hr' Hc'. apply Hout1; [nia|]. right.
      pose proof (row_above (width info) row r' Hwd ltac:(lia)). nia. }
    apply IH; try lia.
    + intros r' c' Hr' Hc'. rewrite Hlater by lia. apply Hnn; lia.
    + assert (r <> row).
      { intros ->. specialize (Hrowok c Hc). lia. }
      exists r, c. split; [lia|]. split; [exact Hc|].
      rewrite Hlater by lia. exact Hbad.
Qed.

Lemma file_row_onto (h q : Z) :
  3 <= h -> 0 <= q < h -> exists r, 0 <= r < h /\ file_row h r = q.
Proof.
  intros Hh Hq.
  destruct (pass_counts h Hh)
    as ((HM1 & Hl1 & He1) & (HM2 & Hl2 & He2) & (HM3 & Hl3 & He3) & Hsum).
  unfold file_row.
  destruct (Z.lt_ge_cases q ((h + 3) / 4)) as [H1 | H1].
  - exists (4 * q). split; [lia|].
    replace (4 * q) with (q * 4) by ring.
    rewrite Z.mod_mul, Z.div_mul by lia. reflexivity.
  - destruct (Z.lt_ge_cases q ((h + 3) / 4 + (h + 1) / 4)) as [H2 | H2].
    + exists (2 + (q - (h + 3) / 4) * 4). split; [lia|].
      rewrite Z.mod_add, Z.div_add by lia.
      change (2 mod 4) with 2. change (2 / 4) with 0.
      change (2 =? 0) with false. change (2 =? 2) with true. cbv iota. lia.
    + exists (1 + (q - (h + 3) / 4 - (h + 1) / 4) * 2). split; [lia|].
      set (j := q - (h + 3) / 4 - (h + 1) / 4).
      assert (Hm : (1 + j * 2) mod 4 = 1 \/ (1 + j * 2) mod 4 = 3)
        by (Z.div_mod_to_equations; lia).
      assert (Hd : (1 + j * 2) / 2 = j) by (Z.div_mod_to_equations; lia).
      destruct (Z.eqb_spec ((1 + j * 2) mod 4) 0); [lia|].
      destruct (Z.eqb_spec ((1 + j * 2) mod 4) 2); [lia|].
      rewrite Hd. unfold j. lia.
Qed.

Lemma read_prog_data_invalid (info : image_info) (data extra : list Z)
  (fp : option string) (lf : list Z) (i : Z) :
  0 < width info -> 3 <= height info ->
  Z.of_nat (length (pixels info)) = 3 * width info * height info ->
  Z.of_nat (length data) = width info * height info ->
  (forall k, 0 <= k < width info * height info -> 0 <= byte_at data k) ->
  0 <= i < width info * height info -> 216 <= byte_at data i ->
  read_prog_data info (World (data ++ extra) fp lf)
  = Done (false, info)
         (World extra (Some "invalid packed byte"%string) lf).
Proof.
  intros Hwd Hh Hpix Hdata Hbytes Hi Hbad. unfold read_prog_data.
  destruct (prog_passes_place info data extra fp lf
              (S (Z.to_nat (height info))) Hwd Hh ltac:(lia) Hpix Hdata)
    as (buf1 & buf2 & buf3 & Hrun1 & Hrun2 & Hrun3 & Hlen3 & Hplaced).
  unfold bind at 1. rewrite Hrun1. unfold bind at 1. rewrite Hrun2.
  unfold bind at 1. rewrite Hrun3. unfold bind at 1.
  assert (Hrowr : forall r, 0 <= r < height info ->
                            0 <= file_row (height info) r < height info).
  { intros r Hr. unfold file_row.
    destruct (Z.eqb_spec (r mod 4) 0); [|destruct (Z.eqb_spec (r mod 4) 2)];
      Z.div_mod_to_equations; lia. }
  rewrite (expand_rows_invalid info _ (Z.to_nat (height info)) 0 buf3);
    try lia.
  - reflexivity.
  - intros r c Hr Hc. rewrite Hplaced by lia. apply Hbytes.
    specialize (Hrowr r ltac:(lia)). nia.
  - assert (Hq : 0 <= i / width info < height info).
    { split; [apply Z.div_pos; lia | apply Z.div_lt_upper_bound; nia]. }
    destruct (file_row_onto (height info) (i / width info) ltac:(lia) Hq)
      as (r & Hr & Hfr).
    exists r, (i mod width info). split; [lia|].
    pose proof (Z.mod_pos_bound i (width info) ltac:(lia)) as Hc.
    split; [exact Hc|].
    rewrite Hplaced by lia. rewrite Hfr.
    replace (i / width info * width info + i mod width info) with i;
      [exact Hbad|].
    rewrite (Z.div_mod i (width info)) at 1 by lia. ring.
Qed.

(** X21.  A BCPROG file that is well formed except that some byte of its
    payload is 216 or more is rejected: [parse_image] returns a null
    pointer and [format_problem] is "invalid packed byte". *)
Theorem bcprog_invalid_byte_rejected (size_limit w h : Z) (tags : list tag)
  (payload extra : list Z) (i : Z) :
  1 <= w <= 800 -> 3 <= h <= 600 ->
  Forall tag_ok tags ->
  Z.of_nat (length payload) = w * h ->
  (forall k, 0 <= k < w * h -> 0 <= byte_at payload k) ->
  0 <= i < w * h -> 216 <= byte_at payload i ->
  parse_image size_limit (open_file (bcprog_file w h tags (payload ++ extra)))
  = Done None
         (World extra (Some "invalid packed byte"%string)
                (tags_logging_fmt tags default_logging_fmt)).
Proof.
  intros Hw Hh Htags Hlen Hbytes Hi Hbad.
  assert (Hb : 0 <= 3 * w * h <= 1440000) by nia.
  unfold parse_image, open_file, bcprog_file.
  unfold bind at 1. rewrite fread_exact by (cbn; lia).
  cbn [negb Z.eqb Pos.eqb]. unfold bind at 1.
  cbn [clear_format_problem fh logging_fmt].
  change (bytes_eqb bcprog_magic bcraw_magic) with false.
  rewrite bytes_eqb_refl. unfold parse_bcprog, bind at 1.
  rewrite bcprog_header_ok by lia.
  unfold parse_body. rewrite image_num_bytes_exact by lia.
  unfold bind at 1. rewrite alloc_image_ok by lia.
  unfold bind at 1. rewrite process_tagged_data_tags by assumption.
  unfold set_create_time. cbn [negb create_time width height cleanup pixels].
  unfold bind at 1.
  rewrite (read_prog_data_invalid _ payload extra _ _ i);
    cbn [width height pixels]; try lia; try assumption.
  - reflexivity.
  - rewrite repeat_length. lia.
Qed.

Lemma bcprog_invalid_byte_rejected_witness :
  parse_image size_limit_init
    (open_file (bcprog_file 1 3 [] ([1; 216; 3] ++ [9])))
  = Done None
         (World [9] (Some "invalid packed byte"%string)
                (tags_logging_fmt [] default_logging_fmt)).
Proof.
  apply (bcprog_invalid_byte_rejected size_limit_init 1 3 [] [1; 216; 3] [9] 1);
    [lia | lia | constructor | reflexivity | | lia | vm_compute; discriminate].
  intros k Hk.
  assert (Hk' : k = 0 \/ k = 1 \/ k = 2) by lia.
  destruct Hk' as [-> | [-> | ->]]; vm_compute; discriminate.
Defined.

(** ** BCFLAT: images one pixel wide *)

Section FlatColumn.
Variables (info : image_info) (fp : option string) (lf : list Z).
Hypothesis Hwidth : width info = 1.

(** In an image one pixel wide every row of a channel is its first sample,
    stored as it is: the rows of one channel take one byte each from the
    stream and the buffer of compressed bytes stays empty. *)
Lemma flat_rows_column (channel : Z) (n : nat) :
  forall (y : Z) (pix data rest : list Z),
  0 <= channel <= 2 -> 0 <= y -> y + Z.of_nat n <= height info ->
  length data = n ->
  Z.of_nat (length pix) = 3 * height info ->
  exists pix',
    flat_rows n info channel y [] pix (World (data ++ rest) fp lf)
    = Done (Some ([], pix')) (World rest fp lf) /\
    length pix' = length pix /\
    (forall j, 0 <= j < Z.of_nat n ->
       byte_at pix' (3 * (y + j) + channel) = byte_at data j) /\
    (forall pos, 0 <= pos ->
       (forall j, 0 <= j < Z.of_nat n -> pos <> 3 * (y + j) + channel) ->
       byte_at pix' pos = byte_at pix pos).
Proof.
  induction n as [|n IH]; intros y pix data rest Hch Hy Hn Hdata Hpix.
  - destruct data; [|discriminate]. exists pix. cbn [flat_rows app].
    split; [reflexivity|]. split; [reflexivity|].
    split; [intros; lia | reflexivity].
  - destruct data as [|b data]; [discriminate|]. injection Hdata as Hdata.
    cbn [flat_rows]. unfold bind at 1. unfold bind at 1.
    change ((b :: data) ++ rest) with ([b] ++ data ++ rest).
    rewrite fread_exact by (cbn; lia).
    cbn [negb Z.eqb Pos.eqb nth]. unfold ret at 1. unfold bind at 1.
    rewrite Hwidth.
    destruct (store_spec "pixels" pix (3 * y * 1 + (0 + channel)) [b]
                (World (data ++ rest) fp lf))
      as (pix1 & -> & Hlen1 & Hin1 & Hout1); [lia | cbn [length]; lia |].
    unfold bind at 1. change (Z.to_nat 1) with 1%nat.
    cbn [flat_row_loop]. rewrite Hwidth. change (1 <? 1) with false.
    cbv iota. unfold ret at 1.
    destruct (IH (y + 1) pix1 data rest) as (pix2 & -> & Hlen2 & Hin2 & Hout2);
      try lia.
    exists pix2. split; [reflexivity|]. split; [congruence|]. split.
    + intros j Hj. destruct (Z.eq_dec j 0) as [-> | Hj0].
      * rewrite Hout2; [| lia | intros j' Hj'; lia].
        specialize (Hin1 0 ltac:(cbn [length]; lia)).
        replace (3 * (y + 0) + channel) with (3 * y * 1 + (0 + channel) + 0)
          by ring.
        rewrite Hin1. reflexivity.
      * replace (3 * (y + j) + channel) with (3 * (y + 1 + (j - 1)) + channel)
          by ring.
        rewrite Hin2 by lia. unfold byte_at.
        replace (Z.to_nat j) with (S (Z.to_nat (j - 1))) by lia. reflexivity.
    + intros pos Hpos Hfree. rewrite Hout2; [| exact Hpos |].
      * apply Hout1; [exact Hpos|]. cbn [length].
        specialize (Hfree 0 ltac:(lia)). lia.
      * intros j Hj. specialize (Hfree (j + 1) ltac:(lia)). lia.
Qed.

End FlatColumn.

Lemma read_flat_data_column (info : image_info) (data extra : list Z)
  (fp : option string) (lf : list Z) :
  width info = 1 -> 1 <= height info ->
  Z.of_nat (length (pixels info)) = 3 * height info ->
  Z.of_nat (length data) = 3 * height info ->
  exists pix,
    read_flat_data info (World (data ++ extra) fp lf)
    = Done (true, set_pixels info pix) (World extra fp lf) /\
    length pix = length (pixels info) /\
    forall y channel, 0 <= y < height info -> 0 <= channel <= 2 ->
      byte_at pix (3 * y + channel)
      = byte_at data (channel * height info + y).
Proof.
  intros Hwd Hh Hpix Hdata.
  set (H := Z.to_nat (height info)).
  assert (HH : Z.of_nat H = height info) by (unfold H; lia).
  assert (Hsplit : data ++ extra
                   = take H data ++ take H (drop H data)
                     ++ drop (H + H) data ++ extra).
  { rewrite <- (take_drop H data) at 1. rewrite <- app_assoc. f_equal.
    rewrite <- (take_drop H (drop H data)) at 1. rewrite <- app_assoc.
    now rewrite drop_drop. }
  rewrite Hsplit. unfold read_flat_data. unfold bind at 1.
  cbn [flat_channels]. fold H. unfold bind at 1.
  destruct (flat_rows_column info fp lf Hwd 0 H 0 (pixels info) (take H data)
              (take H (drop H data) ++ drop (H + H) data ++ extra))
    as (pix0 & -> & Hlen0 & Hin0 & Hout0); try lia;
    try (rewrite ?length_take, ?length_drop; lia).
  unfold bind at 1.
  destruct (flat_rows_column info fp lf Hwd (0 + 1) H 0 pix0
              (take H (drop H data)) (drop (H + H) data ++ extra))
    as (pix1 & -> & Hlen1 & Hin1 & Hout1); try lia;
    try (rewrite ?length_take, ?length_drop; lia).
  unfold bind at 1.
  destruct (flat_rows_column info fp lf Hwd (0 + 1 + 1) H 0 pix1
              (drop (H + H) data) extra)
    as (pix2 & -> & Hlen2 & Hin2 & Hout2); try lia;
    try (rewrite ?length_take, ?length_drop; lia).
  unfold ret. exists pix2. split; [reflexivity|]. split; [congruence|].
  intros y channel Hy Hch.
  assert (Hc : channel = 0 \/ channel = 1 \/ channel = 2) by lia.
  destruct Hc as [-> | [-> | ->]].
  - rewrite Hout2; [| lia | intros j Hj; lia].
    rewrite Hout1; [| lia | intros j Hj; lia].
    replace (3 * y + 0) with (3 * (0 + y) + 0) by ring.
    rewrite Hin0 by lia. rewrite byte_at_take by lia. f_equal; lia.
  - rewrite Hout2; [| lia | intros j Hj; lia].
    replace (3 * y + 1) with (3 * (0 + y) + (0 + 1)) by ring.
    rewrite Hin1 by lia. rewrite byte_at_take by lia.
    rewrite byte_at_drop by lia. f_equal; lia.
  - replace (3 * y + 2) with (3 * (0 + y) + (0 + 1 + 1)) by ring.
    rewrite Hin2 by lia. rewrite byte_at_drop by lia. f_equal; lia.
Qed.

Lemma bcflat_header_ok (size_limit w h : Z) (rest : list Z)
  (fp : option string) (lf : list Z) :
  1 <= w <= size_limit -> 1 <= h <= size_limit -> size_limit < 2 ^ 63 ->
  bcflat_header size_limit
    (World (bcflat_flags ++ be64 w ++ be64 h ++ rest) fp lf)
  = Done (Some (w, h)) (World rest fp lf).
Proof.
  intros Hw Hh Hlimit. unfold bcflat_header. unfold bind at 1.
  rewrite fread_exact by (cbn; lia). cbn [negb Z.eqb Pos.eqb].
  change (reserved_flags_set 6 bcflat_flags) with false.
  change (negb (nth 6 bcflat_flags 0 =? 13)) with false.
  change (negb (nth 7 bcflat_flags 0 =? 3)) with false. cbv iota.
  unfold bind at 1. rewrite read_u64_be64 by lia.
  rewrite to_long_small by lia.
  destruct (Z.eqb_spec w (-1)); [lia|].
  unfold bind at 1. rewrite read_u64_be64 by lia.
  rewrite to_long_small by lia.
  destruct (Z.eqb_spec h (-1)); [lia|].
  destruct (Z.ltb_spec h 1); [lia|]. destruct (Z.ltb_spec w 1); [lia|].
  destruct (Z.gtb_spec h size_limit); [lia|].
  destruct (Z.gtb_spec w size_limit); [lia|].
  reflexivity.
Qed.

(** X22.  A well-formed BCFLAT file of an image one pixel wide holds, after
    its tags, the red samples of all rows, then the green ones, then the
    blue ones, one byte each, and is decoded to the interleaved pixel data:
    sample [channel] of row [y] is byte [channel * height + y] of the
    payload.  The bytes after the image are left in the stream. *)
Theorem parse_bcflat_column (size_limit h : Z) (tags : list tag)
  (payload extra : list Z) :
  1 <= h <= size_limit -> size_limit <= size_limit_init ->
  Forall tag_ok tags ->
  Z.of_nat (length payload) = 3 * h ->
  exists pix,
    parse_image size_limit (open_file (bcflat_file 1 h tags (payload ++ extra)))
    = Done (Some (ImageInfo 1 h 0 (tags_create_time tags (-1)) pix))
           (World extra None (tags_logging_fmt tags default_logging_fmt)) /\
    Z.of_nat (length pix) = 3 * h /\
    forall y channel, 0 <= y < h -> 0 <= channel <= 2 ->
      byte_at pix (3 * y + channel) = byte_at payload (channel * h + y).
Proof.
  intros Hh Hlimit Htags Hlen. unfold size_limit_init in Hlimit.
  unfold parse_image, open_file, bcflat_file.
  unfold bind at 1. rewrite fread_exact by (cbn; lia).
  cbn [negb Z.eqb Pos.eqb]. unfold bind at 1.
  cbn [clear_format_problem fh logging_fmt].
  change (bytes_eqb bcflat_magic bcraw_magic) with false.
  change (bytes_eqb bcflat_magic bcprog_magic) with false.
  rewrite bytes_eqb_refl. unfold parse_bcflat, bind at 1.
  rewrite bcflat_header_ok by lia.
  unfold parse_body. rewrite image_num_bytes_exact by lia.
  unfold bind at 1. rewrite alloc_image_ok by lia.
  unfold bind at 1. rewrite process_tagged_data_tags by assumption.
  unfold set_create_time. cbn [negb create_time width height cleanup pixels].
  unfold bind at 1.
  destruct (read_flat_data_column
              (ImageInfo 1 h 0 (tags_create_time tags (-1))
                         (repeat 0 (Z.to_nat (3 * 1 * h))))
              payload extra None (tags_logging_fmt tags default_logging_fmt))
    as (pix & -> & Hpix & Hin); cbn [width height pixels] in *; try lia.
  { rewrite repeat_length. lia. }
  exists pix. split; [reflexivity|]. split; [|exact Hin].
  rewrite Hpix, repeat_length. lia.
Qed.

Lemma parse_bcflat_column_witness :
  exists pix,
    parse_image size_limit_init
      (open_file (bcflat_file 1 2 [] ([1; 2; 3; 4; 5; 6] ++ [])))
    = Done (Some (ImageInfo 1 2 0 (tags_create_time [] (-1)) pix))
           (World [] None (tags_logging_fmt [] default_logging_fmt)) /\
    Z.of_nat (length pix) = 3 * 2 /\
    forall y channel, 0 <= y < 2 -> 0 <= channel <= 2 ->
      byte_at pix (3 * y + channel)
      = byte_at [1; 2; 3; 4; 5; 6] (channel * 2 + y).
Proof.
  apply (parse_bcflat_column size_limit_init 2 [] [1; 2; 3; 4; 5; 6] []);
    [unfold size_limit_init; lia | lia | constructor | reflexivity].
Defined.

(** ** The time in the log message *)

(** X23.  The log message of a well-formed BCRAW file gives the time of its
    last [TIME] tag, formatted by [strftime]; it says "recently" when the
    file has no [TIME] tag, and also when the value of the last [TIME] tag
    reads as -1 (the 64-bit value [2^64 - 1]), the value that stands for a
    missing time. *)
Theorem log_message_time (strftime_local : Z -> list Z)
  (size_limit w h : Z) (tags : list tag) (payload : list Z) :
  0 <= w < 2 ^ 31 -> 0 <= h < 2 ^ 31 -> 3 * w * h < 2 ^ 31 ->
  Forall tag_ok tags ->
  Z.of_nat (length payload) = 3 * w * h ->
  exists info w',
    parse_image size_limit (open_file (bcraw_file w h tags payload))
    = Done (Some info) w' /\
    print_log_msg strftime_local info w'
    = [ Printf (logging_fmt w')
               [ArgLong w; ArgLong h;
                ArgString
                  match last_time tags with
                  | Some t =>
                    if to_long t =? -1 then bytes_of "recently"
                    else strftime_local (to_long t)
                  | None => bytes_of "recently"
                  end;
                ArgLong (create_time info)];
        Printf newline_fmt [] ].
Proof.
  intros Hw Hh Hwh Htags Hlen. unfold open_file.
  rewrite <- (app_nil_r payload).
  rewrite parse_image_bcraw_any by assumption.
  do 2 eexists. split; [reflexivity|].
  unfold print_log_msg. cbn [create_time width height logging_fmt].
  rewrite tags_create_time_last.
  destruct (last_time tags) as [t|]; [|reflexivity].
  destruct (to_long t =? -1); reflexivity.
Qed.

Lemma log_message_time_witness :
  exists info w',
    parse_image size_limit_init
      (open_file (bcraw_file 1 1 [TagTime (2 ^ 64 - 1)] [10; 20; 30]))
    = Done (Some info) w' /\
    print_log_msg (fun _ => [63]) info w'
    = [ Printf (logging_fmt w')
               [ArgLong 1; ArgLong 1;
                ArgString
                  match last_time [TagTime (2 ^ 64 - 1)] with
                  | Some t =>
                    if to_long t =? -1 then bytes_of "recently"
                    else [63]
                  | None => bytes_of "recently"
                  end;
                ArgLong (create_time info)];
        Printf newline_fmt [] ].
Proof.
  apply (log_message_time (fun _ => [63]) size_limit_init 1 1
           [TagTime (2 ^ 64 - 1)] [10; 20; 30]);
    [lia | lia | lia | repeat constructor; cbn; lia | reflexivity].
Defined.

(** ** BCFLAT: one codeword alone in the input *)

Lemma pure_ret {A} (a : A) : pure (ret a).
Proof. intros w. reflexivity. Qed.

Lemma pure_crashed {A} (c : crash) : pure (@crashed A c).
Proof. intros w. reflexivity. Qed.

Lemma pure_bind {A B} (m : M A) (k : A -> M B) :
  pure m -> (forall a, pure (k a)) -> pure (bind m k).
Proof.
  intros Hm Hk w. unfold bind. rewrite (Hm w).
  destruct (m world0) as [a w0|c] eqn:E; [|reflexivity].
  pose proof (Hm world0) as H0. rewrite E in H0. injection H0 as ->.
  apply Hk.
Qed.

Lemma pure_assert (b : bool) (expr : string) : pure (assert b expr).
Proof. unfold assert. destruct b; [apply pure_ret | apply pure_crashed]. Qed.

Lemma pure_if {A} (b : bool) (m1 m2 : M A) :
  pure m1 -> pure m2 -> pure (if b then m1 else m2).
Proof. destruct b; auto. Qed.

Lemma pure_push (out : list Z) (x : Z) : pure (push out x).
Proof. unfold push. apply pure_if; [apply pure_ret | apply pure_crashed]. Qed.

Lemma pure_push_zeros (n : nat) (prev : Z) :
  forall out, pure (push_zeros n prev out).
Proof.
  induction n as [|n IH]; intros out; cbn [push_zeros];
    [apply pure_ret | apply pure_bind; [apply pure_push | exact IH]].
Qed.

Lemma pure_push_steps (n : nat) (diff : Z) :
  forall prev out, pure (push_steps n diff prev out).
Proof.
  induction n as [|n IH]; intros prev out; cbn [push_steps];
    [apply pure_ret | apply pure_bind; [apply pure_push | intros; apply IH]].
Qed.

Lemma pure_emit (a : action) (prev : Z) (out : list Z) :
  pure (emit a prev out).
Proof.
  destruct a; cbn [emit].
  - apply pure_bind; [apply pure_assert|]. intros _.
    apply pure_bind; [apply pure_push_zeros | intros; apply pure_ret].
  - apply pure_bind; [apply pure_push_steps | intros [? ?]; apply pure_ret].
  - apply pure_bind; [apply pure_push | intros; apply pure_ret].
Qed.

Lemma pure_codeword (r : Z) : pure (codeword r).
Proof. intros w. apply codeword_world. Qed.

Lemma pure_load (object : string) (buf : list Z) (off : Z) :
  pure (load object buf off).
Proof. unfold load. apply pure_if; [apply pure_ret | apply pure_crashed]. Qed.

Lemma pure_fill_register (comp_buf : list Z) (comp_size : Z) (fuel : nat) :
  forall r size p padding_bits,
    pure (fill_register fuel comp_buf comp_size r size p padding_bits).
Proof.
  induction fuel as [|fuel IH]; intros r size p padding_bits;
    cbn [fill_register]; (apply pure_if; [|apply pure_ret]).
  - apply pure_crashed.
  - apply pure_bind; [apply pure_load | intros; apply IH].
Qed.

Lemma pure_decode_loop (comp_buf : list Z) (comp_size max_pixels : Z)
  (fuel : nat) :
  forall r size prev p out num padding_bits,
    pure (decode_loop fuel comp_buf comp_size max_pixels r size prev p out
                      num padding_bits).
Proof.
  induction fuel as [|fuel IH]; intros r size prev p out num padding_bits;
    cbn [decode_loop]; (apply pure_if; [|apply pure_ret]).
  - apply pure_crashed.
  - apply pure_bind; [apply pure_assert|]. intros _.
    apply pure_bind; [apply pure_fill_register|]. intros [[[r1 s1] p1] pad1].
    apply pure_bind; [apply pure_codeword|]. intros [codelen act].
    apply pure_if; [apply pure_ret|].
    apply pure_bind; [apply pure_emit|]. intros [[out1 prev1] n1]. apply IH.
Qed.

Lemma pure_unget (fuel : nat) : forall r size p, pure (unget fuel r size p).
Proof.
  induction fuel as [|fuel IH]; intros r size p; cbn [unget];
    (apply pure_if; [|apply pure_ret]); [apply pure_crashed | apply IH].
Qed.

(** [decode_flat] touches neither the stream nor the globals. *)
Lemma pure_decode_flat (comp : list Z) (max_pixels : Z)
  (state : flat_decode_state) : pure (decode_flat comp max_pixels state).
Proof.
  unfold decode_flat.
  apply pure_bind; [apply pure_assert|]. intros _.
  apply pure_bind; [apply pure_decode_loop|].
  intros [[[[[r size] prev] p] out] num].
  apply pure_bind; [apply pure_unget|]. intros [[r1 s1] p1].
  apply pure_bind; [apply pure_assert|]. intros _.
  apply pure_bind; [apply pure_assert|]. intros _. apply pure_ret.
Qed.

Lemma all_codewords_decode_alone :
  forallb (fun e =>
    forallb (fun x => decodes_alone e (Z.of_nat x))
            (seq 0 (Z.to_nat (2 ^ cw_ext e))))
    code_table = true.
Proof. vm_compute. reflexivity. Qed.

Lemma action_samples_length (a : action) (prev : Z) :
  0 <= action_count a ->
  Z.of_nat (length (action_samples a prev)) = action_count a.
Proof.
  intros Hn. unfold action_samples. rewrite length_map, length_seq. lia.
Qed.

(** X24.  Each codeword of the table, alone at the top of two input bytes
    with zero bits after it, is decoded by one call of [decode_flat] that
    starts with an empty register and is asked for the samples it stands
    for: the call yields exactly these samples, leaves the last of them in
    the state, consumes the first byte only when the codeword ends within
    it (it puts the second byte back), and keeps the unused bits of the
    last byte it consumed in the register. *)
Theorem decode_flat_one_codeword (e : cw_class) (x prev : Z) (w : world) :
  In e code_table -> 0 <= x < 2 ^ cw_ext e -> 0 <= prev < 256 ->
  decode_flat (codeword_bytes e x) (action_count (cw_action e x))
              (FlatState 0 0 prev) w
  = Done (if cw_len e <=? 8 then 1 else 2,
          action_samples (cw_action e x) prev,
          FlatState 0 ((16 - cw_len e) mod 8)
                    (List.last (action_samples (cw_action e x) prev) prev))
         w.
Proof.
  intros He Hx Hprev.
  assert (Hinx : In (Z.to_nat x) (seq 0 (Z.to_nat (2 ^ cw_ext e))))
    by (apply in_seq; lia).
  pose proof all_codewords_decode_alone as Hall.
  rewrite forallb_forall in Hall. specialize (Hall e He).
  rewrite forallb_forall in Hall. specialize (Hall _ Hinx).
  rewrite Z2Nat.id in Hall by lia. unfold decodes_alone in Hall.
  pose proof (table_action_ok e x He Hx) as Hok.
  pose proof (table_shape e He) as (Hext & Hlen & _).
  set (a := cw_action e x) in *.
  (* the steps that do not depend on the previous sample *)
  destruct (fill_register 2 (codeword_bytes e x ++ [0; 0]) 2 0 0 0 0 world0)
    as [[[[r1 size1] p1] pad1] w1|] eqn:Hfill; [|discriminate].
  destruct (codeword r1 world0) as [[codelen act] w2|] eqn:Hcode;
    [|rewrite andb_false_r in Hall; discriminate].
  destruct (unget _ _ _ _ world0) as [[[r2 size2] p2] w3|] eqn:Hunget;
    [|rewrite andb_false_r in Hall; discriminate].
  rewrite !andb_true_iff, !Z.eqb_eq, !Z.leb_le in Hall.
  destruct Hall as ((((-> & ->) & ->) & (((-> & Hact) & Hc1) & Hc8))
                    & ((-> & ->) & Hused)).
  apply action_eqb_eq in Hact. subst act.
  assert (Hcount : 1 <= action_count a <= 8) by lia.
  (* the call *)
  unfold decode_flat.
  change (Z.of_nat (length (codeword_bytes e x))) with 2.
  cbn [reg reg_size last].
  unfold bind at 1. unfold assert at 1, FLATBUF.
  change (2 <=? 100) with true. unfold ret at 1. cbv beta iota.
  unfold bind at 1.
  change (Z.to_nat (0 + 8 * (2 + 2))) with 32%nat.
  change (u32 0) with 0.
  cbn [decode_loop].
  destruct (Z.ltb_spec 0 (action_count a)); [|lia].
  change (0 <? 2 + 2) with true. cbn [andb].
  unfold bind at 1. unfold assert at 1. change (0 >=? 0) with true.
  unfold ret at 1. cbv beta iota. unfold bind at 1.
  rewrite (pure_fill_register _ _ _ _ _ _ _ w), Hfill. cbv beta iota.
  unfold bind at 1. rewrite (pure_codeword r1 w), Hcode. cbv beta iota.
  change (u32 (16 - 0)) with 16.
  destruct (Z.gtb_spec (cw_len e) 16); [lia|].
  unfold bind at 1.
  rewrite (emit_ok a prev [] w Hok Hprev) by (cbn [length]; lia).
  cbv beta iota. cbn [app].
  destruct (Z.ltb_spec (0 + action_count a) (action_count a)); [lia|].
  cbn [andb]. unfold ret at 1. cbv beta iota. unfold bind at 1.
  rewrite (pure_unget _ _ _ _ w), Hunget. cbv beta iota.
  unfold bind at 1. unfold assert at 1.
  rewrite action_samples_length by lia.
  replace (action_count a =? 0 + action_count a) with true
    by (symmetry; apply Z.eqb_eq; lia).
  unfold ret at 1. cbv beta iota. unfold bind at 1. unfold assert at 1.
  unfold EXPANSION.
  destruct (Z.leb_spec (0 + action_count a) (action_count a + 8)); [|lia].
  unfold ret. rewrite Hused. reflexivity.
Qed.

Lemma decode_flat_one_codeword_witness :
  decode_flat (codeword_bytes cw_0110xx 1)
              (action_count (cw_action cw_0110xx 1)) (FlatState 0 0 250) world0
  = Done (if cw_len cw_0110xx <=? 8 then 1 else 2,
          action_samples (cw_action cw_0110xx 1) 250,
          FlatState 0 ((16 - cw_len cw_0110xx) mod 8)
                    (List.last (action_samples (cw_action cw_0110xx 1) 250)
                               250))
         world0.
Proof.
  apply decode_flat_one_codeword;
    [do 6 right; left; reflexivity | cbn; lia | lia].
Defined.
